(** * openapi-to-mock-server: the extraction-and-synthesis engine

    A shallow embedding of [mock-server-setting.go] (the schema-aware
    variant, the first of the two in the source file) and of the entry
    point [exportOpenAPIToMockServer], with the properties of the
    specification stated over it.

    Conventions.
    - A Go [string] is a sequence of bytes: [gostring := list ascii].
    - A Go pointer that the code tests or dereferences is an [option].
    - A Go [map] is the list of its entries in the order in which the
      [range] statements of one run visit them.  Go leaves that order
      unspecified and randomises it, so "the same map" is such a list up
      to [Permutation].
    - [log.Fatalf] and a nil dereference end the run: fallible functions
      return a [Result].
    - What the code prints ([fmt.Printf], [log.Printf]) is left out. *)

From Stdlib Require Import List Ascii String ZArith Lia Bool Arith.
From Stdlib Require Import Permutation Sorted.
Import ListNotations.

Set Implicit Arguments.
Set Warnings "-register-all".
Local Open Scope Z_scope.
Local Open Scope list_scope.

(* ================================================================== *)
(** ** Go strings *)

Definition gostring := list ascii.

Definition str (s : string) : gostring := list_ascii_of_string s.

Definition bv (c : ascii) : Z := Z.of_N (N_of_ascii c).

Definition byte_eqb (a b : ascii) : bool := Ascii.eqb a b.

Fixpoint gostring_eqb (a b : gostring) : bool :=
  match a, b with
  | [], [] => true
  | x :: a', y :: b' => byte_eqb x y && gostring_eqb a' b'
  | _, _ => false
  end.

(** [strings.HasPrefix(s, p)]. *)
Fixpoint HasPrefix (s p : gostring) : bool :=
  match p, s with
  | [], _ => true
  | x :: p', y :: s' => byte_eqb x y && HasPrefix s' p'
  | _ :: _, [] => false
  end.

(* ------------------------------------------------------------------ *)
(** *** unicode/utf8 *)

Module utf8.

Definition RuneSelf : Z := 128.
Definition RuneError : Z := 65533.
Definition UTFMax : nat := 4.

(** The entry of the table [first] for a leading byte: [None] is the
    invalid marker [xx]; otherwise the size of the sequence and the
    accepted range of the second byte. *)
Definition first (b : Z) : option (nat * (Z * Z)) :=
  if b <? 128 then Some (1%nat, (0, 0))
  else if b <? 194 then None
  else if b <? 224 then Some (2%nat, (128, 191))
  else if b =? 224 then Some (3%nat, (160, 191))
  else if b <? 237 then Some (3%nat, (128, 191))
  else if b =? 237 then Some (3%nat, (128, 159))
  else if b <? 240 then Some (3%nat, (128, 191))
  else if b =? 240 then Some (4%nat, (144, 191))
  else if b <? 244 then Some (4%nat, (128, 191))
  else if b =? 244 then Some (4%nat, (128, 143))
  else None.

Definition cont (b : Z) : bool := (128 <=? b) && (b <=? 191).

(** [utf8.DecodeRuneInString]: the rune and its width in bytes. *)
Definition DecodeRuneInString (s : gostring) : Z * nat :=
  match s with
  | [] => (RuneError, 0%nat)
  | c0 :: t0 =>
      let s0 := bv c0 in
      match first s0 with
      | None => (RuneError, 1%nat)
      | Some (1%nat, _) => (s0, 1%nat)
      | Some (sz, (lo, hi)) =>
          if (List.length s <? sz)%nat then (RuneError, 1%nat) else
          match t0 with
          | [] => (RuneError, 1%nat)
          | c1 :: t1 =>
              let s1 := bv c1 in
              if (s1 <? lo) || (hi <? s1) then (RuneError, 1%nat) else
              if (sz <=? 2)%nat
              then (Z.lor (Z.shiftl (Z.land s0 31) 6) (Z.land s1 63), 2%nat)
              else
              match t1 with
              | [] => (RuneError, 1%nat)
              | c2 :: t2 =>
                  let s2 := bv c2 in
                  if negb (cont s2) then (RuneError, 1%nat) else
                  if (sz <=? 3)%nat
                  then (Z.lor (Z.shiftl (Z.land s0 15) 12)
                          (Z.lor (Z.shiftl (Z.land s1 63) 6) (Z.land s2 63)),
                        3%nat)
                  else
                  match t2 with
                  | [] => (RuneError, 1%nat)
                  | c3 :: _ =>
                      let s3 := bv c3 in
                      if negb (cont s3) then (RuneError, 1%nat) else
                      (Z.lor (Z.shiftl (Z.land s0 7) 18)
                         (Z.lor (Z.shiftl (Z.land s1 63) 12)
                            (Z.lor (Z.shiftl (Z.land s2 63) 6)
                               (Z.land s3 63))),
                       4%nat)
                  end
              end
          end
      end
  end.

(** [utf8.RuneStart]. *)
Definition RuneStart (b : Z) : bool := negb (Z.land b 192 =? 128).

(** The backwards scan of [DecodeLastRuneInString]:
    [for start--; start >= lim; start-- { if RuneStart(s[start]) break }],
    entered with [start] already decremented [k] steps above [lim];
    the result is the final value of [start] as an offset above
    [lim - 1] (0 means the loop ran off below [lim]). *)
Fixpoint scan_back (s : gostring) (lim k : nat) : nat :=
  match k with
  | O => O
  | S k' =>
      if RuneStart (bv (nth (lim + k') s "000"%char)) then k
      else scan_back s lim k'
  end.

(** [utf8.DecodeLastRuneInString]. *)
Definition DecodeLastRuneInString (s : gostring) : Z * nat :=
  let e := List.length s in
  match e with
  | O => (RuneError, 0%nat)
  | S start =>
      let r := bv (nth start s "000"%char) in
      if r <? RuneSelf then (r, 1%nat) else
      let lim := (e - UTFMax)%nat in
      (* start-- ; the loop visits start-1 down to lim *)
      let k := scan_back s lim (start - lim) in
      let start' := match k with
                    | O => (lim - 1)%nat      (* lim-1, or 0 when negative *)
                    | S k' => (lim + k')%nat
                    end in
      let '(r', size) := DecodeRuneInString (firstn (e - start') (skipn start' s)) in
      if ((start' + size)%nat =? e)%nat then (r', size) else (RuneError, 1%nat)
  end.

End utf8.

(* ------------------------------------------------------------------ *)
(** *** unicode.IsSpace and strings.TrimSpace *)

(** [unicode.IsSpace]: the Latin-1 cases of the switch, then the
    [White_Space] range table above Latin-1. *)
Definition IsSpace (r : Z) : bool :=
  if r <=? 255 then
    (r =? 9) || (r =? 10) || (r =? 11) || (r =? 12) || (r =? 13)
    || (r =? 32) || (r =? 133) || (r =? 160)
  else
    (r =? 5760) || ((8192 <=? r) && (r <=? 8202))
    || (r =? 8232) || (r =? 8233) || (r =? 8239) || (r =? 8287)
    || (r =? 12288).

(** The table [asciiSpace] of package strings. *)
Definition asciiSpace (c : ascii) : bool :=
  let b := bv c in
  (b =? 9) || (b =? 10) || (b =? 11) || (b =? 12) || (b =? 13) || (b =? 32).

(** [indexFunc(s, f, false)] followed by [s[i:]]: [TrimLeftFunc]. The
    [range] over the string decodes one rune per step; [fuel] bounds the
    number of runes by the number of bytes. *)
Fixpoint TrimLeftFunc_go (fuel : nat) (s : gostring) (f : Z -> bool) : gostring :=
  match fuel with
  | O => []
  | S fuel' =>
      match s with
      | [] => []
      | _ :: _ =>
          let '(r, size) := utf8.DecodeRuneInString s in
          if f r then TrimLeftFunc_go fuel' (skipn size s) f else s
      end
  end.

Definition TrimLeftFunc (s : gostring) (f : Z -> bool) : gostring :=
  TrimLeftFunc_go (List.length s) s f.

(** [lastIndexFunc(s, f, false)]: the loop over [i], from [len(s)] down. *)
Fixpoint lastIndexFunc_go (fuel : nat) (s : gostring) (f : Z -> bool) (i : nat)
  : option nat :=
  match fuel with
  | O => None
  | S fuel' =>
      match i with
      | O => None
      | S _ =>
          let '(r, size) := utf8.DecodeLastRuneInString (firstn i s) in
          let i' := (i - size)%nat in
          if negb (f r) then Some i' else lastIndexFunc_go fuel' s f i'
      end
  end.

Definition lastIndexFunc (s : gostring) (f : Z -> bool) : option nat :=
  lastIndexFunc_go (List.length s) s f (List.length s).

(** [strings.TrimRightFunc]. *)
Definition TrimRightFunc (s : gostring) (f : Z -> bool) : gostring :=
  match lastIndexFunc s f with
  | Some i =>
      if utf8.RuneSelf <=? bv (nth i s "000"%char)
      then firstn (i + snd (utf8.DecodeRuneInString (skipn i s))) s
      else firstn (S i) s
  | None => []                      (* i = -1, then i++ : s[0:0] *)
  end.

(** [strings.TrimFunc]. *)
Definition TrimFunc (s : gostring) (f : Z -> bool) : gostring :=
  TrimRightFunc (TrimLeftFunc s f) f.

(** The second loop of [TrimSpace], on the reversed remainder
    [s[start:stop]]: it moves [stop] down over ASCII spaces and hands over
    to [TrimRightFunc] at the first non-ASCII byte. *)
Fixpoint TrimSpace_stop (r : gostring) : gostring :=
  match r with
  | [] => []
  | c :: r' =>
      if utf8.RuneSelf <=? bv c then TrimRightFunc (rev r) IsSpace
      else if asciiSpace c then TrimSpace_stop r'
      else rev r
  end.

(** [strings.TrimSpace]: the first loop moves [start] up. *)
Fixpoint TrimSpace (s : gostring) : gostring :=
  match s with
  | [] => []
  | c :: s' =>
      if utf8.RuneSelf <=? bv c then TrimFunc s IsSpace
      else if asciiSpace c then TrimSpace s'
      else TrimSpace_stop (rev s)
  end.

(* ------------------------------------------------------------------ *)
(** *** strings.ReplaceAll *)

(** The replacement loop of [strings.Replace] for a non-empty [old]:
    non-overlapping occurrences, leftmost first. [skip] counts the bytes
    of the occurrence just replaced that are still to be passed over. *)
Fixpoint replace_go (old new : gostring) (skip : nat) (s : gostring) : gostring :=
  match s with
  | [] => []
  | c :: s' =>
      match skip with
      | S k => replace_go old new k s'
      | O =>
          if HasPrefix s old
          then new ++ replace_go old new (List.length old - 1) s'
          else c :: replace_go old new 0 s'
      end
  end.

(** The loop for the empty [old]: [new] is written before the first rune
    (by [ReplaceAll] below) and after every rune. [rest] is the number of
    bytes of the current rune still to be copied, 0 at the start of a
    rune. *)
Fixpoint replace_empty (new : gostring) (rest : nat) (s : gostring) : gostring :=
  match s with
  | [] => []
  | c :: s' =>
      let w := match rest with
               | O => snd (utf8.DecodeRuneInString s)
               | S _ => rest
               end in
      match w with
      | S (S k) => c :: replace_empty new (S k) s'
      | _ => c :: new ++ replace_empty new 0 s'
      end
  end.

Definition ReplaceAll (s old new : gostring) : gostring :=
  if gostring_eqb old new then s
  else match old with
       | [] => new ++ replace_empty new 0 s
       | _ :: _ => replace_go old new 0 s
       end.

(* ================================================================== *)
(** ** cleanFolderName (the spec's [sanitize]) *)

Definition notAllowedChars : list gostring :=
  [str "<"; str ">"; str ":"; ["034"%char]; str "/"; str "\"; str "|";
   str "?"; str "*"].

Definition LF : ascii := "010"%char.

Definition cleanFolderName (name : gostring) : gostring :=
  (* Replace new line with empty string *)
  let name := ReplaceAll name [LF] [] in
  (* Trim leading and trailing spaces *)
  let name := TrimSpace name in
  (* Replace spaces with underscores *)
  let cleanName := ReplaceAll name (str " ") (str "_") in
  (* Remove not allowed characters *)
  fold_left (fun cleanName char => ReplaceAll cleanName char []) notAllowedChars cleanName.

(* ================================================================== *)
(** ** Aborting runs *)

(** How a run ends early: [log.Fatalf] (which exits the process) or a
    run-time panic on a nil dereference. *)
Inductive Abort :=
| Fatal (msg : string)
| NilDereference.

Inductive Result (A : Type) :=
| Ok (a : A)
| Stop (e : Abort).

Arguments Ok {A} a.
Arguments Stop {A} e.

Definition bind {A B} (r : Result A) (k : A -> Result B) : Result B :=
  match r with
  | Ok a => k a
  | Stop e => Stop e
  end.

Notation "x <- r ;; k" := (bind r (fun x => k))
  (at level 61, r at next level, right associativity).
Notation "' pat <- r ;; k" := (bind r (fun x => match x with pat => k end))
  (at level 61, pat pattern, r at next level, right associativity).

(** A nil-checked dereference [p.field]. *)
Definition deref {A} (p : option A) : Result A :=
  match p with
  | Some a => Ok a
  | None => Stop NilDereference
  end.

(* ================================================================== *)
(** ** strconv *)

Definition is_digit (c : ascii) : bool := (48 <=? bv c) && (bv c <=? 57).

(** The digit loop shared by the fast path of [Atoi] and by [ParseUint]
    in base 10: [None] is a syntax error. *)
Fixpoint digits_value (s : gostring) (n : Z) : option Z :=
  match s with
  | [] => Some n
  | ch :: s' =>
      if is_digit ch then digits_value s' (n * 10 + (bv ch - 48)) else None
  end.

Definition minInt64 : Z := - 2 ^ 63.
Definition maxInt64 : Z := 2 ^ 63 - 1.

(** [strconv.Atoi] on a 64-bit platform: an optional sign, at least one
    decimal digit, nothing else, and a value that fits [int]; every error
    ([ErrSyntax], [ErrRange]) is [None]. *)
Definition Atoi (s : gostring) : option Z :=
  match s with
  | [] => None
  | c :: s' =>
      let neg := byte_eqb c "-"%char in
      let digits := if neg || byte_eqb c "+"%char then s' else s in
      match digits with
      | [] => None
      | _ :: _ =>
          match digits_value digits 0 with
          | None => None
          | Some n =>
              let v := if neg then - n else n in
              if (minInt64 <=? v) && (v <=? maxInt64) then Some v else None
          end
      end
  end.

Fixpoint digits_of_uint (d : Decimal.uint) : gostring :=
  match d with
  | Decimal.Nil => []
  | Decimal.D0 d => "0"%char :: digits_of_uint d
  | Decimal.D1 d => "1"%char :: digits_of_uint d
  | Decimal.D2 d => "2"%char :: digits_of_uint d
  | Decimal.D3 d => "3"%char :: digits_of_uint d
  | Decimal.D4 d => "4"%char :: digits_of_uint d
  | Decimal.D5 d => "5"%char :: digits_of_uint d
  | Decimal.D6 d => "6"%char :: digits_of_uint d
  | Decimal.D7 d => "7"%char :: digits_of_uint d
  | Decimal.D8 d => "8"%char :: digits_of_uint d
  | Decimal.D9 d => "9"%char :: digits_of_uint d
  end.

(** [strconv.Itoa], also the verb [%d] of [fmt.Sprintf]. *)
Definition Itoa (n : Z) : gostring :=
  match n with
  | Z0 => str "0"
  | Zpos p => digits_of_uint (Pos.to_uint p)
  | Zneg p => "-"%char :: digits_of_uint (Pos.to_uint p)
  end.

(** [strings.TrimRight(s, cutset)] for a one-byte cutset. *)
Definition TrimRight (s : gostring) (cut : ascii) : gostring :=
  rev ((fix drop (r : gostring) : gostring :=
          match r with
          | [] => []
          | c :: r' => if byte_eqb c cut then drop r' else r
          end) (rev s)).

(* ================================================================== *)
(** ** The parsed document (package openapi3), as far as the code reads it *)

(** A Go value of interface type [any] that is not nil: a string, an
    integer, a boolean, or any other value (a map, a slice, a float),
    which the code only ever hands to [json.MarshalIndent] and which is
    kept as the text the YAML or JSON source gave for it. *)
Inductive any :=
| VString (s : gostring)
| VInt (n : Z)
| VBool (b : bool)
| VOther (source : gostring).

Module openapi3.

(** [Schema] and [SchemaRef]; [Type_] is the pointer [*Types]. *)
Inductive Schema :=
| mkSchema (Type_ : option (list gostring))
           (Properties : list (gostring * SchemaRef))
           (Example : option any)
with SchemaRef :=
| mkSchemaRef (Ref : gostring) (Value : option Schema).

Definition Type_ (s : Schema) := let '(mkSchema t _ _) := s in t.
Definition Properties (s : Schema) := let '(mkSchema _ p _) := s in p.
Definition Example (s : Schema) := let '(mkSchema _ _ e) := s in e.
Definition Ref (r : SchemaRef) := let '(mkSchemaRef x _) := r in x.
Definition Value (r : SchemaRef) := let '(mkSchemaRef _ v) := r in v.

(** [func (types *Types) Is(typ string) bool]. *)
Definition Is (types : option (list gostring)) (typ : gostring) : bool :=
  match types with
  | Some [t] => gostring_eqb t typ
  | _ => false
  end.

(** [ExampleRef.Value] is a [*Example], [Example.Value] an [any]. *)
Record Example_ := { Example_Value : option any }.
Record ExampleRef := { ExampleRef_Value : option Example_ }.

Record MediaType := {
  Schema_ : option SchemaRef;
  Examples : list (gostring * option ExampleRef)
}.

(** A [Content] is a map from content type to [*MediaType]. *)
Definition Content := list (gostring * option MediaType).

Record Response := {
  Description : option gostring;
  Content_ : option Content          (* nil, or a map *)
}.

Record ResponseRef := { ResponseRef_Value : option Response }.

(** [Responses] is what [operation.Responses.Map()] returns. *)
Record Operation := {
  OperationID : gostring;
  Responses : list (gostring * ResponseRef)
}.

(** [Operations] is what [pathItem.Operations()] returns: the
    operations of the path item by HTTP method. *)
Record PathItem := { Operations : list (gostring * Operation) }.

Record Info := { Title : gostring; Info_Description : gostring }.

Record Components := { Schemas : list (gostring * SchemaRef) }.

(** [Paths] is what [openAPISpec.Paths.Map()] returns. *)
Record T := {
  Info_ : option Info;
  Components_ : option Components;
  Paths : list (gostring * PathItem)
}.

End openapi3.

(** [m[k]] on a map: the value and the "comma ok" flag. *)
Fixpoint map_lookup {V} (m : list (gostring * V)) (k : gostring) : option V :=
  match m with
  | [] => None
  | (k', v) :: m' => if gostring_eqb k' k then Some v else map_lookup m' k
  end.

(** [m[k] = v]. *)
Fixpoint map_store {V} (m : list (gostring * V)) (k : gostring) (v : V)
  : list (gostring * V) :=
  match m with
  | [] => [(k, v)]
  | (k', v') :: m' =>
      if gostring_eqb k' k then (k, v) :: m' else (k', v') :: map_store m' k v
  end.

(* ================================================================== *)
(** ** The mock server setting *)

Module Header.
Record t := mk { Name : gostring; Value : gostring }.
End Header.

Module Response.
Record t := mk {
  Name : gostring;
  Code : Z;
  Query : gostring;
  Headers : option (list Header.t);
  FilePath : option gostring;
  Body : option gostring
}.
End Response.

Module Request.
Record t := mk {
  Name : gostring;
  Method : gostring;
  Path : gostring;
  Responses : list Response.t
}.
End Request.

Module MockServerSetting.
Record t := mk {
  Name : gostring;
  Description : gostring;
  Folder : gostring;
  Host : gostring;
  Port : Z;
  SwaggerEnabled : bool;
  Headers : option (list Header.t);
  Requests : list Request.t;
  Schemas : list (gostring * gostring)
}.
End MockServerSetting.

(* ================================================================== *)
(** ** The file system and the libraries the code calls *)

(** The part of the file system the code observes: which directories
    exist ([os.Stat]) and what the files hold. [dirs] and [files] list
    the directories made and the contents written, each under the text of
    the path the call was given, the latest first. Two texts name one file
    when the operating system resolves them to the same file
    ([os_resolve] below). *)
Record FS := {
  dirs : list gostring;
  files : list (gostring * gostring)
}.

Inductive Syscall :=
| SysMkdir (path : gostring)
| SysMkdirAll (path : gostring)
| SysWriteFile (path : gostring)
| SysCreate (path : gostring).

(** What the run takes from outside the repository: the process id, the
    file a path names ([os_resolve]: what the operating system resolves
    the text of the path to, with its repeated separators, its [.] and
    [..] elements, its links, and its letter case where the file system
    ignores it; taken as fixed during the run), the operating system's
    verdict on each call, and the library functions
    [json.MarshalIndent] (with an empty prefix and an indent of two
    spaces; the [nat] is the nesting depth at which the value is printed,
    [None] an error), [yaml.Encoder.Encode] and [sort.Slice]. *)
Class GoRuntime := {
  os_Getpid : Z;
  os_resolve : gostring -> gostring;
  os_allows : FS -> Syscall -> bool;
  json_MarshalIndent : nat -> option any -> option gostring;
  yaml_Encode : MockServerSetting.t -> option gostring;
  sort_Slice : (Response.t -> Response.t -> bool) -> list Response.t -> list Response.t
}.

(** The closure handed to [sort.Slice] in [getRequests]:
    [responses[i].Code < responses[j].Code]. *)
Definition less_Code (a b : Response.t) : bool :=
  Response.Code a <? Response.Code b.

(** What the documentation of [sort.Slice] promises: the slice holds the
    same elements afterwards and is sorted by [less].  It does not promise
    stability ("equal elements may be reversed from their original
    order"). *)
Class SortSliceContract (R : GoRuntime) : Prop := {
  sort_Slice_perm : forall l, Permutation l (sort_Slice less_Code l);
  sort_Slice_sorted : forall l,
    StronglySorted (fun a b => less_Code b a = false) (sort_Slice less_Code l)
}.

(** [os.Stat] finds the path: a directory or a file was made under a
    text that names the same file. *)
Definition fs_exists `{RT : GoRuntime} (fs : FS) (path : gostring) : bool :=
  existsb (fun d => gostring_eqb (os_resolve path) (os_resolve d)) (dirs fs)
  || existsb (fun e => gostring_eqb (os_resolve path) (os_resolve (fst e))) (files fs).

(** [os.Mkdir] and [os.MkdirAll]. *)
Definition os_Mkdir `{RT : GoRuntime} (fs : FS) (path : gostring) : option FS :=
  if os_allows fs (SysMkdir path)
  then Some {| dirs := path :: dirs fs; files := files fs |}
  else None.

Definition os_MkdirAll `{RT : GoRuntime} (fs : FS) (path : gostring) : option FS :=
  if os_allows fs (SysMkdirAll path)
  then Some {| dirs := path :: dirs fs; files := files fs |}
  else None.

(** [os.WriteFile]: creates or truncates the file the path names. The
    write is recorded under the text of the path; [os_ReadFile] finds it
    under every text that names the same file. *)
Definition os_WriteFile `{RT : GoRuntime} (fs : FS) (path data : gostring) : option FS :=
  if os_allows fs (SysWriteFile path)
  then Some {| dirs := dirs fs; files := (path, data) :: files fs |}
  else None.

(** The entries of a list of writes under the files their paths name. *)
Definition by_file `{RT : GoRuntime} {V} (entries : list (gostring * V))
  : list (gostring * V) :=
  map (fun e => (os_resolve (fst e), snd e)) entries.

(** [os.ReadFile] on the model: the latest content written to the file
    the path names, under whatever text of its path. *)
Definition os_ReadFile `{RT : GoRuntime} (fs : FS) (path : gostring) : option gostring :=
  map_lookup (by_file (files fs)) (os_resolve path).

(* ================================================================== *)
(** ** OrderedMap *)

(** Modelled from the spec: the type behind [NewOrderedMap], its [Set]
    and its JSON marshalling are not in the source files at hand. The
    spec asks for "an explicitly ordered map" in which "insertion order
    must be preserved", and a JSON object with the keys in that order;
    serialization errors are reported to the caller. *)
Module OrderedMap.

Definition t := list (gostring * option any).

Definition NewOrderedMap : t := [].

(** A new key goes to the end; a key already present keeps its place. *)
Fixpoint Set_ (om : t) (key : gostring) (value : option any) : t :=
  match om with
  | [] => [(key, value)]
  | (k, v) :: om' =>
      if gostring_eqb k key then (k, value) :: om'
      else (k, v) :: Set_ om' key value
  end.

Definition keys (om : t) : list gostring := map fst om.

Fixpoint members `{RT : GoRuntime} (om : t) : option (list gostring) :=
  match om with
  | [] => Some []
  | (k, v) :: om' =>
      match json_MarshalIndent 1 (Some (VString k)),
            json_MarshalIndent 1 v,
            members om' with
      | Some kt, Some vt, Some rest =>
          Some ((str "  " ++ kt ++ str ": " ++ vt) :: rest)
      | _, _, _ => None
      end
  end.

Fixpoint join (sep : gostring) (l : list gostring) : gostring :=
  match l with
  | [] => []
  | [x] => x
  | x :: l' => x ++ sep ++ join sep l'
  end.

(** [json.MarshalIndent] on the ordered map, with an empty prefix and an
    indent of two spaces. *)
Definition MarshalIndent `{RT : GoRuntime} (om : t) : option gostring :=
  match members om with
  | None => None
  | Some [] => Some (str "{}")
  | Some ms => Some (str "{" ++ [LF] ++ join (str "," ++ [LF]) ms ++ [LF] ++ str "}")
  end.

End OrderedMap.

(* ================================================================== *)
(** ** The engine *)

Section Engine.

Context `{RT : GoRuntime}.

(** [randomPort]; [pid] is what [os.Getpid()] returns. *)
Definition randomPort : Z := 10000 + Z.rem os_Getpid 50000.

Definition getHeaders (openAPISpec : openapi3.T) : list Header.t := [].

(** The loop of [extractSchemaExample] over [schema.Properties]. *)
Fixpoint extractSchemaExample_props
    (props : list (gostring * openapi3.SchemaRef)) (om : OrderedMap.t)
  : Result OrderedMap.t :=
  match props with
  | [] => Ok om
  | (propName, propSchema) :: props' =>
      childSchema <- deref (openapi3.Value propSchema) ;;
      let childSchemaType := openapi3.Type_ childSchema in
      let om' :=
        if openapi3.Is childSchemaType (str "string")
           || openapi3.Is childSchemaType (str "integer")
        then OrderedMap.Set_ om propName (openapi3.Example childSchema)
        else om in
      extractSchemaExample_props props' om'
  end.

Definition extractSchemaExample (schema : option openapi3.Schema)
  : Result gostring :=
  let om := OrderedMap.NewOrderedMap in
  schema <- deref schema ;;
  let schemaType := openapi3.Type_ schema in
  om <- (if openapi3.Is schemaType (str "object")
         then extractSchemaExample_props (openapi3.Properties schema) om
         else Ok om) ;;
  (* Marshal the schema to JSON *)
  match OrderedMap.MarshalIndent om with
  | None => Ok []
  | Some finalData => Ok finalData
  end.

Definition getBodyString (exampleRef : option openapi3.ExampleRef) : gostring :=
  match exampleRef with
  | None => []
  | Some ref =>
      match openapi3.ExampleRef_Value ref with
      | None => []
      | Some ex =>
          match openapi3.Example_Value ex with
          | None => []
          | Some (VString s) => s
          | Some examapleObject =>
              match json_MarshalIndent 0 (Some examapleObject) with
              | None => []
              | Some jsonData => jsonData
              end
          end
      end
  end.

(** The body of the loop over [examples]. *)
Definition exampleResponse (description : gostring) (code : Z)
    (response contentType : gostring) (headers : list Header.t)
    (example : gostring * option openapi3.ExampleRef) : Response.t :=
  let '(exampleName, examapleObject) := example in
  let bodyStr := getBodyString examapleObject in
  {| Response.Name := cleanFolderName description;
     Response.Code := code;
     Response.Query := str "?key=" ++ response ++ str "&contentType="
                         ++ contentType ++ str "&name=" ++ exampleName;
     Response.Headers := Some headers;
     Response.FilePath := None;
     Response.Body := match bodyStr with [] => None | _ :: _ => Some bodyStr end |}.

(** The body of the loop over the content types of one response, past
    the test [content == nil]: the responses for one media type. *)
Definition mediaTypeResponses (schemaExamples : list (gostring * gostring))
    (description : gostring) (code : Z) (response contentType : gostring)
    (content : openapi3.MediaType) : list Response.t :=
  let headers := [ {| Header.Name := str "Content-Type"; Header.Value := contentType |} ] in
  let examples := openapi3.Examples content in
  let schema := openapi3.Schema_ content in
  let plain (body : option gostring) :=
    {| Response.Name := cleanFolderName description;
       Response.Code := code;
       Response.Query := str "?key=" ++ response ++ str "&contentType=" ++ contentType;
       Response.Headers := Some headers;
       Response.FilePath := None;
       Response.Body := body |} in
  match examples with
  | _ :: _ =>
      map (exampleResponse description code response contentType headers) examples
  | [] =>
      match schema with
      | Some ref =>
          match openapi3.Ref ref with
          | _ :: _ =>
              match map_lookup schemaExamples (openapi3.Ref ref) with
              | Some ((_ :: _) as bodyStr) => [plain (Some bodyStr)]
              | _ => [plain None]
              end
          | [] => [plain None]
          end
      | None => [plain None]
      end
  end.

(** The body of the loop over the content types of one response:
    [content := responseItem.Value.Content[contentType]], then the test
    [content == nil]. *)
Definition contentResponses (schemaExamples : list (gostring * gostring))
    (description : gostring) (code : Z) (response : gostring)
    (Content : openapi3.Content) (contentType : gostring) : list Response.t :=
  match map_lookup Content contentType with
  | None | Some None => []                                   (* continue *)
  | Some (Some content) =>
      mediaTypeResponses schemaExamples description code response contentType content
  end.

(** The body of the loop over [operation.Responses.Map()]. *)
Definition responseResponses (schemaExamples : list (gostring * gostring))
    (entry : gostring * openapi3.ResponseRef) : Result (list Response.t) :=
  let '(response, responseItem) := entry in
  (* Get the description of the response *)
  value <- deref (openapi3.ResponseRef_Value responseItem) ;;
  let description :=
    match openapi3.Description value with
    | Some d => d
    | None => []
    end in
  (* Get the response code *)
  match Atoi response with
  | None => Stop (Fatal "Failed to convert response code to integer")
  | Some code =>
      match openapi3.ResponseRef_Value responseItem with
      | Some value =>
          match openapi3.Content_ value with
          | Some Content =>
              Ok (flat_map (contentResponses schemaExamples description code response Content)
                    (map fst Content))
          | None =>
              Ok [ {| Response.Name := cleanFolderName description;
                      Response.Code := code;
                      Response.Query := str "?key=" ++ Itoa code;
                      Response.Headers := None;
                      Response.FilePath := None;
                      Response.Body := None |} ]
          end
      | None => Ok []
      end
  end.

Fixpoint extractResponse_loop (schemaExamples : list (gostring * gostring))
    (entries : list (gostring * openapi3.ResponseRef)) (responses : list Response.t)
  : Result (list Response.t) :=
  match entries with
  | [] => Ok responses
  | entry :: entries' =>
      rs <- responseResponses schemaExamples entry ;;
      extractResponse_loop schemaExamples entries' (responses ++ rs)
  end.

Definition extractResponse (operation : openapi3.Operation)
    (schemaExamples : list (gostring * gostring)) : Result (list Response.t) :=
  extractResponse_loop schemaExamples (openapi3.Responses operation) [].

(** The first loop of [getRequests]: the table of schema examples. *)
Fixpoint getRequests_schemas (schemas : list (gostring * openapi3.SchemaRef))
    (schemaExamples : list (gostring * gostring)) : Result (list (gostring * gostring)) :=
  match schemas with
  | [] => Ok schemaExamples
  | (schemaName, schemaRef) :: schemas' =>
      let schema := openapi3.Value schemaRef in
      let schemaFullName := str "#/components/schemas/" ++ schemaName in
      schemaExample <- extractSchemaExample schema ;;
      getRequests_schemas schemas' (map_store schemaExamples schemaFullName schemaExample)
  end.

(** The loop over [pathItem.Operations()]. *)
Fixpoint getRequests_operations (schemaExamples : list (gostring * gostring))
    (path : gostring) (ops : list (gostring * openapi3.Operation))
    (requests : list Request.t) : Result (list Request.t) :=
  match ops with
  | [] => Ok requests
  | (method, operation) :: ops' =>
      (* Extract the responses *)
      responses <- extractResponse operation schemaExamples ;;
      (* Sort responses by code *)
      let responses := sort_Slice less_Code responses in
      (* Create a request object *)
      getRequests_operations schemaExamples path ops'
        (requests ++ [ {| Request.Name := openapi3.OperationID operation;
                          Request.Method := method;
                          Request.Path := path;
                          Request.Responses := responses |} ])
  end.

(** The loop over [openAPISpec.Paths.Map()]. *)
Fixpoint getRequests_paths (schemaExamples : list (gostring * gostring))
    (paths : list (gostring * openapi3.PathItem))
    (requests : list Request.t) : Result (list Request.t) :=
  match paths with
  | [] => Ok requests
  | (path, pathItem) :: paths' =>
      requests <- getRequests_operations schemaExamples path
                    (openapi3.Operations pathItem) requests ;;
      getRequests_paths schemaExamples paths' requests
  end.

Definition getRequests (openAPISpec : openapi3.T) : Result (list Request.t) :=
  schemaExamples <-
    match openapi3.Components_ openAPISpec with
    | Some components => getRequests_schemas (openapi3.Schemas components) []
    | None => Ok []
    end ;;
  getRequests_paths schemaExamples (openapi3.Paths openAPISpec) [].

Definition ConvertOpenAPIToMockServer (openAPISpec : openapi3.T)
  : Result MockServerSetting.t :=
  let headers := getHeaders openAPISpec in
  requests <- getRequests openAPISpec ;;
  info <- deref (openapi3.Info_ openAPISpec) ;;
  Ok {| MockServerSetting.Name := openapi3.Title info;
        MockServerSetting.Description := openapi3.Info_Description info;
        MockServerSetting.Folder := [];
        MockServerSetting.Host := str "0.0.0.0";
        MockServerSetting.Port := randomPort;
        MockServerSetting.SwaggerEnabled := true;
        MockServerSetting.Headers := Some headers;
        MockServerSetting.Requests := requests;
        MockServerSetting.Schemas := [] |}.

End Engine.

(* ================================================================== *)
(** ** Laying the fixtures out on disk *)

Section Layout.

Context `{RT : GoRuntime}.

(** [(m *MockServerSetting) CreateFolder]. *)
Definition CreateFolder (m : MockServerSetting.t) (targetFolder : gostring) (fs : FS)
  : Result (MockServerSetting.t * FS) :=
  (* Clean the folder name *)
  let folderName := cleanFolderName (MockServerSetting.Name m) in
  (* Trim right slash *)
  let targetFolder := TrimRight targetFolder "/"%char in
  let targetFolder := TrimRight targetFolder "\"%char in
  (* Set the folder path for the mock server *)
  let folder := targetFolder ++ str "/data/" ++ folderName in
  let m := {| MockServerSetting.Name := MockServerSetting.Name m;
              MockServerSetting.Description := MockServerSetting.Description m;
              MockServerSetting.Folder := folder;
              MockServerSetting.Host := MockServerSetting.Host m;
              MockServerSetting.Port := MockServerSetting.Port m;
              MockServerSetting.SwaggerEnabled := MockServerSetting.SwaggerEnabled m;
              MockServerSetting.Headers := MockServerSetting.Headers m;
              MockServerSetting.Requests := MockServerSetting.Requests m;
              MockServerSetting.Schemas := MockServerSetting.Schemas m |} in
  (* Create the data folder if it does not exist *)
  if fs_exists fs folder then Ok (m, fs)
  else match os_Mkdir fs folder with
       | Some fs' => Ok (m, fs')
       | None => Stop (Fatal "Failed to create data folder")
       end.

Definition with_FilePath (response : Response.t) (p : gostring) : Response.t :=
  {| Response.Name := Response.Name response;
     Response.Code := Response.Code response;
     Response.Query := Response.Query response;
     Response.Headers := Response.Headers response;
     Response.FilePath := Some p;
     Response.Body := Response.Body response |}.

(** The first lines of the inner loop of [SaveSetting]: the folder of the
    response, the path recorded in the setting and the path written to. *)
Definition folderRelativePath (request : Request.t) (response : Response.t) : gostring :=
  Request.Method request ++ str "/" ++ Request.Name request ++ str "/"
    ++ Itoa (Response.Code response).

Definition folderFullPath (Folder : gostring) (request : Request.t) (response : Response.t)
  : gostring :=
  Folder ++ str "/" ++ folderRelativePath request response.

Definition fileRelativePath (Name : gostring) (request : Request.t) (response : Response.t)
  : gostring :=
  let fileName := cleanFolderName (Response.Name response) in
  str "./data/" ++ cleanFolderName Name ++ str "/" ++ folderRelativePath request response
    ++ str "/" ++ fileName ++ str ".json".

Definition fileFullPath (Folder : gostring) (request : Request.t) (response : Response.t)
  : gostring :=
  let fileName := cleanFolderName (Response.Name response) in
  folderFullPath Folder request response ++ str "/" ++ fileName ++ str ".json".

(** The body of the inner loop of [SaveSetting]: the response as stored
    back into [m.Requests[i].Responses[j]], and the file system. *)
Definition SaveSetting_response (m : MockServerSetting.t) (request : Request.t)
    (response : Response.t) (fs : FS) : Result (Response.t * FS) :=
  let folderFullPath := folderFullPath (MockServerSetting.Folder m) request response in
  let fileRelativePath := fileRelativePath (MockServerSetting.Name m) request response in
  let fileFullPath := fileFullPath (MockServerSetting.Folder m) request response in
  match Response.Body response with
  | Some body =>
      (* Save the folder path to the response *)
      let response := with_FilePath response fileRelativePath in
      (* Create a folder for the response *)
      fs <- (if fs_exists fs folderFullPath then Ok fs
             else match os_MkdirAll fs folderFullPath with
                  | Some fs' => Ok fs'
                  | None => Stop (Fatal "Failed to create response folder")
                  end) ;;
      (* Save the response body to a file *)
      match os_WriteFile fs fileFullPath body with
      | Some fs' => Ok (response, fs')
      | None => Stop (Fatal "Failed to write response body to file")
      end
  | None => Ok (response, fs)
  end.

Fixpoint SaveSetting_responses (m : MockServerSetting.t) (request : Request.t)
    (responses : list Response.t) (fs : FS) : Result (list Response.t * FS) :=
  match responses with
  | [] => Ok ([], fs)
  | response :: responses' =>
      '(response, fs) <- SaveSetting_response m request response fs ;;
      '(responses', fs) <- SaveSetting_responses m request responses' fs ;;
      Ok (response :: responses', fs)
  end.

Fixpoint SaveSetting_requests (m : MockServerSetting.t) (requests : list Request.t)
    (fs : FS) : Result (list Request.t * FS) :=
  match requests with
  | [] => Ok ([], fs)
  | request :: requests' =>
      '(responses, fs) <- SaveSetting_responses m request (Request.Responses request) fs ;;
      '(requests', fs) <- SaveSetting_requests m requests' fs ;;
      Ok ({| Request.Name := Request.Name request;
             Request.Method := Request.Method request;
             Request.Path := Request.Path request;
             Request.Responses := responses |} :: requests', fs)
  end.

Definition settingFilePath (m : MockServerSetting.t) : gostring :=
  MockServerSetting.Folder m ++ str "/setting.yaml".

(** [(m *MockServerSetting) SaveSetting]. *)
Definition SaveSetting (m : MockServerSetting.t) (fs : FS)
  : Result (MockServerSetting.t * FS) :=
  '(requests, fs) <- SaveSetting_requests m (MockServerSetting.Requests m) fs ;;
  let m := {| MockServerSetting.Name := MockServerSetting.Name m;
              MockServerSetting.Description := MockServerSetting.Description m;
              MockServerSetting.Folder := MockServerSetting.Folder m;
              MockServerSetting.Host := MockServerSetting.Host m;
              MockServerSetting.Port := MockServerSetting.Port m;
              MockServerSetting.SwaggerEnabled := MockServerSetting.SwaggerEnabled m;
              MockServerSetting.Headers := MockServerSetting.Headers m;
              MockServerSetting.Requests := requests;
              MockServerSetting.Schemas := MockServerSetting.Schemas m |} in
  (* Create the setting file *)
  if negb (os_allows fs (SysCreate (settingFilePath m)))
  then Stop (Fatal "Failed to create mock server setting file")
  else
    (* Marshal the mock server setting to YAML format *)
    match yaml_Encode m with
    | None => Stop (Fatal "Failed to write mock server setting to file")
    | Some text =>
        Ok (m, {| dirs := dirs fs; files := (settingFilePath m, text) :: files fs |})
    end.

(** [filepath.Ext]: the suffix from the last dot of the last element. *)
Definition filepath_Ext (path : gostring) : gostring :=
  (fix scan (r ext : gostring) : gostring :=
     match r with
     | [] => []
     | c :: r' =>
         if byte_eqb c "/"%char then []
         else if byte_eqb c "."%char then c :: ext
         else scan r' (c :: ext)
     end) (rev path) [].

(** [(m *MockServerSetting) CopyOpenAPIFile]; the error of
    [os.ReadFile] is dropped by the code, leaving no bytes. *)
Definition CopyOpenAPIFile (m : MockServerSetting.t) (openApiFile : gostring) (fs : FS)
  : Result FS :=
  let data := match os_ReadFile fs openApiFile with Some d => d | None => [] end in
  let filePath := MockServerSetting.Folder m ++ str "/openapi" ++ filepath_Ext openApiFile in
  match os_WriteFile fs filePath data with
  | Some fs' => Ok fs'
  | None => Stop (Fatal "Failed to copy OpenAPI file to data folder")
  end.

(** [exportOpenAPIToMockServer], from the parsed document on
    ([ParseOpenApiFile] is the parsing library's work). *)
Definition exportOpenAPIToMockServer (openAPISpec : openapi3.T)
    (openApiFile targetFolder : gostring) (fs : FS)
  : Result (MockServerSetting.t * FS) :=
  (* Step 2: Convert OpenAPI to mock server. *)
  mockServerInfo <- ConvertOpenAPIToMockServer openAPISpec ;;
  (* Step 3: Create mock server data folder. *)
  '(mockServerInfo, fs) <- CreateFolder mockServerInfo targetFolder fs ;;
  (* Step 4: Output mock server setting file *)
  '(mockServerInfo, fs) <- SaveSetting mockServerInfo fs ;;
  (* step 5: copy the openapi file to the data folder *)
  fs <- CopyOpenAPIFile mockServerInfo openApiFile fs ;;
  Ok (mockServerInfo, fs).

End Layout.

(* ================================================================== *)
(** ** sort.Slice as the Go library implements it *)

(** [sort.Slice(x, less)] is [pdqsort_func(lessSwap{less, swap}, 0, n,
    bits.Len(n))], the pattern-defeating quicksort of package sort (Go
    1.19 and later; the document API the code uses needs a later Go than
    that).  The slice is a list, [Less] and [Swap] act on positions as the
    closures of the caller do; loops take their iteration bound as
    [fuel]. *)
Module GoSort.
Section Pdqsort.

Variable A : Type.
Variable less : A -> A -> bool.

Local Open Scope nat_scope.

Definition Less (data : list A) (i j : nat) : bool :=
  match nth_error data i, nth_error data j with
  | Some x, Some y => less x y
  | _, _ => false
  end.

Fixpoint set_nth (data : list A) (i : nat) (x : A) : list A :=
  match data, i with
  | [], _ => []
  | _ :: t, O => x :: t
  | h :: t, S i' => h :: set_nth t i' x
  end.

Definition Swap (data : list A) (i j : nat) : list A :=
  match nth_error data i, nth_error data j with
  | Some x, Some y => set_nth (set_nth data i y) j x
  | _, _ => data
  end.

(** The inner loop of insertion sort:
    [for j := i; j > a && Less(j, j-1); j-- { Swap(j, j-1) }]. *)
Fixpoint insertDown (data : list A) (a j : nat) : list A :=
  match j with
  | O => data
  | S j' =>
      if (a <? j) && Less data j j' then insertDown (Swap data j j') a j'
      else data
  end.

Fixpoint insertionSort_loop (n : nat) (data : list A) (a i : nat) : list A :=
  match n with
  | O => data
  | S n' => insertionSort_loop n' (insertDown data a i) a (S i)
  end.

(** [insertionSortLessFunc(data, a, b)]. *)
Definition insertionSort (data : list A) (a b : nat) : list A :=
  insertionSort_loop (b - (a + 1)) data a (a + 1).

(** [siftDownLessFunc(data, lo, hi, first)], [root] starting at [lo]. *)
Fixpoint siftDown (fuel : nat) (data : list A) (root hi first : nat) : list A :=
  match fuel with
  | O => data
  | S fuel' =>
      let child := 2 * root + 1 in
      if hi <=? child then data else
      let child :=
        if (child + 1 <? hi) && Less data (first + child) (first + child + 1)
        then child + 1 else child in
      if negb (Less data (first + root) (first + child)) then data
      else siftDown fuel' (Swap data (first + root) (first + child)) child hi first
  end.

Fixpoint heapSort_build (k : nat) (data : list A) (hi first : nat) : list A :=
  match k with
  | O => data
  | S i => heapSort_build i (siftDown hi data i hi first) hi first
  end.

Fixpoint heapSort_pop (k : nat) (data : list A) (first : nat) : list A :=
  match k with
  | O => data
  | S i => heapSort_pop i (siftDown i (Swap data first (first + i)) 0 i first) first
  end.

(** [heapSortLessFunc(data, a, b)]. *)
Definition heapSort (data : list A) (a b : nat) : list A :=
  let first := a in
  let hi := b - a in
  heapSort_pop hi (heapSort_build ((hi - 1) / 2 + 1) data hi first) first.

(** [for i <= j && Less(i, a) { i++ }]. *)
Fixpoint scanUp (fuel : nat) (data : list A) (a i j : nat) : nat :=
  match fuel with
  | O => i
  | S fuel' =>
      if (i <=? j) && Less data i a then scanUp fuel' data a (S i) j else i
  end.

(** [for i <= j && !Less(j, a) { j-- }]. *)
Fixpoint scanDown (fuel : nat) (data : list A) (a i j : nat) : nat :=
  match fuel with
  | O => j
  | S fuel' =>
      if (i <=? j) && negb (Less data j a) then scanDown fuel' data a i (j - 1) else j
  end.

(** The [for] loop of [partitionLessFunc]; yields the slice and [j]. *)
Fixpoint partition_loop (fuel : nat) (data : list A) (a i j : nat) : list A * nat :=
  match fuel with
  | O => (data, j)
  | S fuel' =>
      let i := scanUp (S j) data a i j in
      let j := scanDown (S j) data a i j in
      if j <? i then (data, j)
      else partition_loop fuel' (Swap data i j) a (S i) (j - 1)
  end.

(** [partitionLessFunc(data, a, b, pivot)]:
    [(data, newpivot, alreadyPartitioned)]. *)
Definition partition (data : list A) (a b pivot : nat) : list A * nat * bool :=
  let data := Swap data a pivot in
  let i := a + 1 in
  let j := b - 1 in
  let i := scanUp b data a i j in
  let j := scanDown b data a i j in
  if j <? i then (Swap data j a, j, true)
  else
    let data := Swap data i j in
    let '(data, j) := partition_loop b data a (S i) (j - 1) in
    (Swap data j a, j, false).

(** The loops of [partitionEqualLessFunc], with [Less(a, i)]. *)
Fixpoint scanUpEq (fuel : nat) (data : list A) (a i j : nat) : nat :=
  match fuel with
  | O => i
  | S fuel' =>
      if (i <=? j) && negb (Less data a i) then scanUpEq fuel' data a (S i) j else i
  end.

Fixpoint scanDownEq (fuel : nat) (data : list A) (a i j : nat) : nat :=
  match fuel with
  | O => j
  | S fuel' =>
      if (i <=? j) && Less data a j then scanDownEq fuel' data a i (j - 1) else j
  end.

Fixpoint partitionEqual_loop (fuel : nat) (data : list A) (a i j : nat) : list A * nat :=
  match fuel with
  | O => (data, i)
  | S fuel' =>
      let i := scanUpEq (S j) data a i j in
      let j := scanDownEq (S j) data a i j in
      if j <? i then (data, i)
      else partitionEqual_loop fuel' (Swap data i j) a (S i) (j - 1)
  end.

(** [partitionEqualLessFunc(data, a, b, pivot)]. *)
Definition partitionEqual (data : list A) (a b pivot : nat) : list A * nat :=
  let data := Swap data a pivot in
  partitionEqual_loop b data a (a + 1) (b - 1).

(** [for i < b && !Less(i, i-1) { i++ }]. *)
Fixpoint runUp (fuel : nat) (data : list A) (i b : nat) : nat :=
  match fuel with
  | O => i
  | S fuel' =>
      if (i <? b) && negb (Less data i (i - 1)) then runUp fuel' data (S i) b else i
  end.

(** [for j := i - 1; j >= 1; j-- { if !Less(j, j-1) { break }; Swap(j, j-1) }]. *)
Fixpoint shiftLeft (data : list A) (j : nat) : list A :=
  match j with
  | O => data
  | S j' => if negb (Less data j j') then data else shiftLeft (Swap data j j') j'
  end.

(** [for j := i + 1; j < b; j++ { if !Less(j, j-1) { break }; Swap(j, j-1) }]. *)
Fixpoint shiftRight (fuel : nat) (data : list A) (j b : nat) : list A :=
  match fuel with
  | O => data
  | S fuel' =>
      if j <? b then
        if negb (Less data j (j - 1)) then data
        else shiftRight fuel' (Swap data j (j - 1)) (S j) b
      else data
  end.

(** [partialInsertionSortLessFunc(data, a, b)], [steps] counting the
    remaining rounds of [maxSteps = 5]. *)
Fixpoint partialInsertionSort_loop (steps : nat) (data : list A) (a b i : nat)
  : list A * bool :=
  match steps with
  | O => (data, false)
  | S steps' =>
      let i := runUp b data i b in
      if i =? b then (data, true)
      else if b - a <? 50 then (data, false)
      else
        let data := Swap data i (i - 1) in
        let data := if 2 <=? i - a then shiftLeft data (i - 1) else data in
        let data := if 2 <=? b - i then shiftRight b data (i + 1) b else data in
        partialInsertionSort_loop steps' data a b i
  end.

Definition partialInsertionSort (data : list A) (a b : nat) : list A * bool :=
  partialInsertionSort_loop 5 data a b (a + 1).

(** [bits.Len]. *)
Definition bits_Len (n : nat) : nat :=
  match n with
  | O => O
  | S _ => S (Nat.log2 n)
  end.

(** [func (r *xorshift) Next() uint64]: the new state, also the
    value returned. *)
Definition xorshift_Next (r : Z) : Z :=
  let m := (2 ^ 64)%Z in
  let r := Z.lxor r (Z.shiftl r 13 mod m) in
  let r := Z.lxor r (Z.shiftr r 7) in
  let r := Z.lxor r (Z.shiftl r 17 mod m) in
  r.

Fixpoint breakPatterns_loop (n : nat) (data : list A) (a length idx i : nat)
    (random modulus : Z) : list A :=
  match n with
  | O => data
  | S n' =>
      let random := xorshift_Next random in
      let other := Z.to_nat (Z.land random (modulus - 1)) in
      let other := if length <=? other then other - length else other in
      breakPatterns_loop n' (Swap data (idx - 1 + i) (a + other)) a length idx (S i)
        random modulus
  end.

(** [breakPatternsLessFunc(data, a, b)]. *)
Definition breakPatterns (data : list A) (a b : nat) : list A :=
  let length := b - a in
  if 8 <=? length then
    let random := Z.of_nat length in
    let modulus := (2 ^ Z.of_nat (bits_Len length))%Z in
    let idx := a + (length / 4) * 2 - 1 in
    breakPatterns_loop 3 data a length idx 0 random modulus
  else data.

Inductive sortedHint := unknownHint | increasingHint | decreasingHint.

(** [order2LessFunc], the counter [*swaps] threaded through. *)
Definition order2 (data : list A) (a b swaps : nat) : nat * nat * nat :=
  if Less data b a then (b, a, S swaps) else (a, b, swaps).

(** [medianLessFunc]. *)
Definition median (data : list A) (a b c swaps : nat) : nat * nat :=
  let '(a, b, swaps) := order2 data a b swaps in
  let '(b, c, swaps) := order2 data b c swaps in
  let '(a, b, swaps) := order2 data a b swaps in
  (b, swaps).

(** [medianAdjacentLessFunc]. *)
Definition medianAdjacent (data : list A) (a swaps : nat) : nat * nat :=
  median data (a - 1) a (a + 1) swaps.

(** [choosePivotLessFunc(data, a, b)]. *)
Definition choosePivot (data : list A) (a b : nat) : nat * sortedHint :=
  let shortestNinther := 50 in
  let maxSwaps := 4 * 3 in
  let l := b - a in
  let swaps := 0 in
  let i := a + l / 4 * 1 in
  let j := a + l / 4 * 2 in
  let k := a + l / 4 * 3 in
  let '(j, swaps) :=
    if 8 <=? l then
      let '(i, j, k, swaps) :=
        if shortestNinther <=? l then
          let '(i, swaps) := medianAdjacent data i swaps in
          let '(j, swaps) := medianAdjacent data j swaps in
          let '(k, swaps) := medianAdjacent data k swaps in
          (i, j, k, swaps)
        else (i, j, k, swaps) in
      median data i j k swaps
    else (j, swaps) in
  if swaps =? 0 then (j, increasingHint)
  else if swaps =? maxSwaps then (j, decreasingHint)
  else (j, unknownHint).

(** [reverseRangeLessFunc(data, a, b)]. *)
Fixpoint reverseRange_loop (fuel : nat) (data : list A) (i j : nat) : list A :=
  match fuel with
  | O => data
  | S fuel' =>
      if i <? j then reverseRange_loop fuel' (Swap data i j) (S i) (j - 1) else data
  end.

Definition reverseRange (data : list A) (a b : nat) : list A :=
  reverseRange_loop b data a (b - 1).

Definition isIncreasing (h : sortedHint) : bool :=
  match h with increasingHint => true | _ => false end.

Definition isDecreasing (h : sortedHint) : bool :=
  match h with decreasingHint => true | _ => false end.

(** [pdqsortLessFunc(data, a, b, limit)]: one round of its [for] loop
    per unit of [fuel], the recursive call on the shorter side
    included. *)
Fixpoint pdqsort (fuel : nat) (data : list A) (a b limit : nat)
    (wasBalanced wasPartitioned : bool) : list A :=
  match fuel with
  | O => data
  | S fuel' =>
      let maxInsertion := 12 in
      let length := b - a in
      if length <=? maxInsertion then insertionSort data a b
      (* Fall back to heapsort if too many bad choices were made. *)
      else if limit =? 0 then heapSort data a b
      else
        (* If the last partitioning was imbalanced, we need to breakPatterns. *)
        let '(data, limit) :=
          if negb wasBalanced then (breakPatterns data a b, limit - 1)
          else (data, limit) in
        let '(pivot, hint) := choosePivot data a b in
        let '(data, pivot, hint) :=
          if isDecreasing hint
          then (reverseRange data a b, (b - 1) - (pivot - a), increasingHint)
          else (data, pivot, hint) in
        (* The slice is likely already sorted. *)
        let '(data, done) :=
          if wasBalanced && wasPartitioned && isIncreasing hint
          then partialInsertionSort data a b
          else (data, false) in
        if done then data
        (* Probably the slice contains many duplicate elements *)
        else if (0 <? a) && negb (Less data (a - 1) pivot) then
          let '(data, mid) := partitionEqual data a b pivot in
          pdqsort fuel' data mid b limit wasBalanced wasPartitioned
        else
          let '(data, mid, alreadyPartitioned) := partition data a b pivot in
          let wasPartitioned := alreadyPartitioned in
          let leftLen := mid - a in
          let rightLen := b - mid in
          let balanceThreshold := length / 8 in
          if leftLen <? rightLen then
            let wasBalanced := balanceThreshold <=? leftLen in
            let data := pdqsort fuel' data a mid limit true true in
            pdqsort fuel' data (mid + 1) b limit wasBalanced wasPartitioned
          else
            let wasBalanced := balanceThreshold <=? rightLen in
            let data := pdqsort fuel' data (mid + 1) b limit true true in
            pdqsort fuel' data a mid limit wasBalanced wasPartitioned
  end.

(** [sort.Slice]. *)
Definition Slice (x : list A) : list A :=
  let length := List.length x in
  let limit := bits_Len length in
  pdqsort (S length) x 0 length limit true true.

End Pdqsort.
End GoSort.

(* ================================================================== *)
(** ** Concrete runtimes for evaluating the engine *)

Module Sample.

(** [encoding/json] on the values of the sample documents: [null] for
    nil, decimal integers, [true]/[false], strings between double
    quotes with the quote and the backslash escaped. *)
Definition json_string (s : gostring) : gostring :=
  ["034"%char]
    ++ flat_map (fun c => if byte_eqb c "034"%char || byte_eqb c "\"%char
                          then ["\"%char; c] else [c]) s
    ++ ["034"%char].

Definition json_text (depth : nat) (v : option any) : option gostring :=
  match v with
  | None => Some (str "null")
  | Some (VString s) => Some (json_string s)
  | Some (VInt n) => Some (Itoa n)
  | Some (VBool true) => Some (str "true")
  | Some (VBool false) => Some (str "false")
  | Some (VOther source) => Some source
  end.

(** A plain rendering of the persisted fields in the block layout of
    [yaml.v3] with indent 2 (scalars unquoted). *)
Definition pad (n : nat) : gostring := repeat " "%char n.

Definition yaml_field (n : nat) (key : string) (v : gostring) : gostring :=
  pad n ++ str key ++ str ": " ++ v ++ [LF].

Definition yaml_item (n : nat) (key : string) (v : gostring) : gostring :=
  pad n ++ str "- " ++ str key ++ str ": " ++ v ++ [LF].

Definition yaml_headers (n : nat) (headers : option (list Header.t)) : gostring :=
  match headers with
  | None => []
  | Some [] => yaml_field n "headers" (str "[]")
  | Some hs =>
      pad n ++ str "headers:" ++ [LF]
      ++ flat_map (fun h => yaml_item (n + 2) "name" (Header.Name h)
                            ++ yaml_field (n + 4) "value" (Header.Value h)) hs
  end.

Definition yaml_response (r : Response.t) : gostring :=
  yaml_item 6 "name" (Response.Name r)
  ++ yaml_field 8 "code" (Itoa (Response.Code r))
  ++ (match Response.Query r with [] => [] | q => yaml_field 8 "query" q end)
  ++ yaml_headers 8 (Response.Headers r)
  ++ (match Response.FilePath r with None => [] | Some p => yaml_field 8 "filePath" p end).

Definition yaml_request (r : Request.t) : gostring :=
  yaml_item 2 "name" (Request.Name r)
  ++ yaml_field 4 "method" (Request.Method r)
  ++ yaml_field 4 "path" (Request.Path r)
  ++ (match Request.Responses r with
      | [] => yaml_field 4 "responses" (str "[]")
      | rs => pad 4 ++ str "responses:" ++ [LF] ++ flat_map yaml_response rs
      end).

Definition yaml_text (m : MockServerSetting.t) : option gostring :=
  Some (yaml_field 0 "name" (MockServerSetting.Name m)
        ++ yaml_field 0 "description" (MockServerSetting.Description m)
        ++ yaml_field 0 "host" (MockServerSetting.Host m)
        ++ yaml_field 0 "port" (Itoa (MockServerSetting.Port m))
        ++ yaml_field 0 "swaggerEnabled"
             (if MockServerSetting.SwaggerEnabled m then str "true" else str "false")
        ++ yaml_headers 0 (MockServerSetting.Headers m)
        ++ (match MockServerSetting.Requests m with
            | [] => yaml_field 0 "requests" (str "[]")
            | rs => str "requests:" ++ [LF] ++ flat_map yaml_request rs
            end)).

(** Path resolution in the sample runtimes: a run of slashes counts as
    one slash, as on every POSIX system. *)
Fixpoint one_slash (path : gostring) : gostring :=
  match path with
  | [] => []
  | c :: path' =>
      match path' with
      | d :: _ =>
          if byte_eqb c "/"%char && byte_eqb d "/"%char then one_slash path'
          else c :: one_slash path'
      | [] => [c]
      end
  end.

(** A runtime with process id [pid], an operating system that lets
    every call through, and the library's own [sort.Slice]. *)
Definition go (pid : Z) : GoRuntime :=
  {| os_Getpid := pid;
     os_resolve := one_slash;
     os_allows := fun _ _ => true;
     json_MarshalIndent := json_text;
     yaml_Encode := yaml_text;
     sort_Slice := fun less x => GoSort.Slice less x |}.

(** A straight insertion sort on lists: each element is put before the
    first element of the sorted rest that is not smaller than it. *)
Fixpoint insert (less : Response.t -> Response.t -> bool) (x : Response.t)
    (l : list Response.t) : list Response.t :=
  match l with
  | [] => [x]
  | y :: l' => if less y x then y :: insert less x l' else x :: y :: l'
  end.

Definition insertion_sort (less : Response.t -> Response.t -> bool)
    (l : list Response.t) : list Response.t :=
  fold_right (insert less) [] l.

(** The same runtime with insertion sort standing in for [sort.Slice]. *)
Definition plain (pid : Z) : GoRuntime :=
  {| os_Getpid := pid;
     os_resolve := one_slash;
     os_allows := fun _ _ => true;
     json_MarshalIndent := json_text;
     yaml_Encode := yaml_text;
     sort_Slice := insertion_sort |}.

Definition emptyFS : FS := {| dirs := []; files := [] |}.

End Sample.

(* ================================================================== *)
(** ** Definitions used to state the properties *)

(** *** Sanitizing, byte by byte *)

(** Replacing every occurrence of the byte [c] by [new]. *)
Definition replace_byte (c : ascii) (new : gostring) (s : gostring) : gostring :=
  flat_map (fun x => if byte_eqb x c then new else [x]) s.

(** An ASCII byte that is not white space. *)
Definition plain_byte (c : ascii) : bool :=
  (bv c <? utf8.RuneSelf) && negb (asciiSpace c).

(** The bytes of [notAllowedChars]: less-than, greater-than, colon,
    double quote, slash, backslash, bar, question mark and star. *)
Definition notAllowed : list ascii := List.concat notAllowedChars.

Definition is_notAllowed (c : ascii) : bool := existsb (byte_eqb c) notAllowed.

(** The sanitizer in the spec's words, with the code's reading of them:
    line feeds are dropped, white space is trimmed at both ends, every
    space that is left becomes one underscore, and the bytes that are not
    allowed are dropped. *)
Definition sanitize_bytewise (text : gostring) : gostring :=
  filter (fun c => negb (is_notAllowed c))
    (map (fun c => if byte_eqb c " "%char then "_"%char else c)
       (TrimSpace (filter (fun c => negb (byte_eqb c LF)) text))).

(** Trimming ASCII text: the white space bytes (tab, line feed, vertical
    tab, form feed, carriage return, space) are dropped from the start
    and from the end. *)
Definition is_ascii (c : ascii) : bool := bv c <? utf8.RuneSelf.

Fixpoint drop_spaces (s : gostring) : gostring :=
  match s with
  | [] => []
  | c :: s' => if asciiSpace c then drop_spaces s' else s
  end.

Definition trim_ascii (s : gostring) : gostring :=
  rev (drop_spaces (rev (drop_spaces s))).

(** An ASCII byte other than tab, vertical tab, form feed and carriage
    return: the white space it can be is the space and the line feed. *)
Definition tame_byte (c : ascii) : bool :=
  (bv c <? utf8.RuneSelf)
  && negb ((bv c =? 9) || (bv c =? 11) || (bv c =? 12) || (bv c =? 13)).

(** *** Ordering of the responses of a request *)

(** Non-decreasing by status code. *)
Definition sorted_by_Code (responses : list Response.t) : Prop :=
  StronglySorted (fun a b => Response.Code a <= Response.Code b) responses.


(** *** The plan of the layout: the mutated configuration and the writes *)

Definition planned_response (m : MockServerSetting.t) (request : Request.t)
    (response : Response.t) : Response.t :=
  match Response.Body response with
  | Some _ =>
      with_FilePath response (fileRelativePath (MockServerSetting.Name m) request response)
  | None => response
  end.

Definition planned_request (m : MockServerSetting.t) (request : Request.t) : Request.t :=
  {| Request.Name := Request.Name request;
     Request.Method := Request.Method request;
     Request.Path := Request.Path request;
     Request.Responses := map (planned_response m request) (Request.Responses request) |}.

(** The file writes for the responses of a request, in the order of the
    walk: the full path and the body of every response that has one. *)
Definition planned_writes_responses (Folder : gostring) (request : Request.t)
    (responses : list Response.t) : list (gostring * gostring) :=
  flat_map (fun response =>
              match Response.Body response with
              | Some body => [(fileFullPath Folder request response, body)]
              | None => []
              end) responses.

Definition planned_writes (Folder : gostring) (requests : list Request.t)
  : list (gostring * gostring) :=
  flat_map (fun request =>
              planned_writes_responses Folder request (Request.Responses request))
    requests.

(** An operating system that lets every call through. *)
Definition permissive (RT : GoRuntime) : Prop :=
  forall fs call, os_allows fs call = true.

(** The response built for a status-code entry without content. *)
Definition bare_response (description : option gostring) (code : Z) : Response.t :=
  {| Response.Name := cleanFolderName (match description with Some d => d | None => [] end);
     Response.Code := code;
     Response.Query := str "?key=" ++ Itoa code;
     Response.Headers := None;
     Response.FilePath := None;
     Response.Body := None |}.

Definition has_definition (entry : gostring * openapi3.ResponseRef) : Prop :=
  openapi3.ResponseRef_Value (snd entry) <> None.

Definition has_numeric_key (entry : gostring * openapi3.ResponseRef) : Prop :=
  Atoi (fst entry) <> None.

(** *** Schema examples *)

(** A property the synthesized example takes up: its schema is of type
    string or integer. *)
Definition eligible (entry : gostring * openapi3.SchemaRef) : bool :=
  match openapi3.Value (snd entry) with
  | Some childSchema =>
      openapi3.Is (openapi3.Type_ childSchema) (str "string")
      || openapi3.Is (openapi3.Type_ childSchema) (str "integer")
  | None => false
  end.

Definition example_of (entry : gostring * openapi3.SchemaRef) : gostring * option any :=
  (fst entry,
   match openapi3.Value (snd entry) with
   | Some childSchema => openapi3.Example childSchema
   | None => None
   end).

Definition resolved (entry : gostring * openapi3.SchemaRef) : Prop :=
  openapi3.Value (snd entry) <> None.

(** *** Two runs on one document *)

(** Equal up to the order of the elements, the elements themselves being
    related by [R]. *)
Definition up_to_order {A} (R : A -> A -> Prop) (l1 l2 : list A) : Prop :=
  exists l, Permutation l1 l /\ Forall2 R l l2.

(** Two enumerations of one map whose values are related by [R]. *)
Definition same_entries {V} (R : V -> V -> Prop) (m1 m2 : list (gostring * V)) : Prop :=
  up_to_order (fun e1 e2 => fst e1 = fst e2 /\ R (snd e1) (snd e2)) m1 m2.

Definition option_rel {A} (R : A -> A -> Prop) (o1 o2 : option A) : Prop :=
  match o1, o2 with
  | Some a, Some b => R a b
  | None, None => True
  | _, _ => False
  end.

(** A Go map has one entry for a key. *)
Definition unique_keys {V} (m : list (gostring * V)) : Prop := NoDup (map fst m).

(** The same schema, the same reference: the property maps at every
    depth may be enumerated in another order. *)
Inductive same_Schema : openapi3.Schema -> openapi3.Schema -> Prop :=
| same_Schema_intro (t : option (list gostring)) (e : option any)
    (p1 p2 : list (gostring * openapi3.SchemaRef)) :
    up_to_order (fun e1 e2 => fst e1 = fst e2 /\ same_SchemaRef (snd e1) (snd e2)) p1 p2 ->
    same_Schema (openapi3.mkSchema t p1 e) (openapi3.mkSchema t p2 e)
with same_SchemaRef : openapi3.SchemaRef -> openapi3.SchemaRef -> Prop :=
| same_SchemaRef_none (r : gostring) :
    same_SchemaRef (openapi3.mkSchemaRef r None) (openapi3.mkSchemaRef r None)
| same_SchemaRef_some (r : gostring) (s1 s2 : openapi3.Schema) :
    same_Schema s1 s2 ->
    same_SchemaRef (openapi3.mkSchemaRef r (Some s1)) (openapi3.mkSchemaRef r (Some s2)).

Definition same_MediaType (c1 c2 : openapi3.MediaType) : Prop :=
  openapi3.Schema_ c1 = openapi3.Schema_ c2
  /\ Permutation (openapi3.Examples c1) (openapi3.Examples c2).

Definition same_Response (v1 v2 : openapi3.Response) : Prop :=
  openapi3.Description v1 = openapi3.Description v2
  /\ option_rel (same_entries (option_rel same_MediaType))
       (openapi3.Content_ v1) (openapi3.Content_ v2).

Definition same_ResponseRef (r1 r2 : openapi3.ResponseRef) : Prop :=
  option_rel same_Response (openapi3.ResponseRef_Value r1) (openapi3.ResponseRef_Value r2).

Definition same_Operation (o1 o2 : openapi3.Operation) : Prop :=
  openapi3.OperationID o1 = openapi3.OperationID o2
  /\ same_entries same_ResponseRef (openapi3.Responses o1) (openapi3.Responses o2).

Definition same_PathItem (p1 p2 : openapi3.PathItem) : Prop :=
  same_entries same_Operation (openapi3.Operations p1) (openapi3.Operations p2).

Definition same_Components (c1 c2 : openapi3.Components) : Prop :=
  same_entries same_SchemaRef (openapi3.Schemas c1) (openapi3.Schemas c2).

(** The same document, as two runs may see it: every map of the one is
    an enumeration of the corresponding map of the other. *)
Definition same_document (d1 d2 : openapi3.T) : Prop :=
  openapi3.Info_ d1 = openapi3.Info_ d2
  /\ option_rel same_Components (openapi3.Components_ d1) (openapi3.Components_ d2)
  /\ same_entries same_PathItem (openapi3.Paths d1) (openapi3.Paths d2).

(** The maps the code looks keys up in have one entry for a key: the
    content map of every response and the map of reusable schemas with
    the property maps of its schemas. *)
Definition unique_content_keys (operation : openapi3.Operation) : Prop :=
  forall key item value content,
    In (key, item) (openapi3.Responses operation) ->
    openapi3.ResponseRef_Value item = Some value ->
    openapi3.Content_ value = Some content ->
    unique_keys content.

Definition unique_schema_keys (components : openapi3.Components) : Prop :=
  unique_keys (openapi3.Schemas components)
  /\ forall name ref schema,
       In (name, ref) (openapi3.Schemas components) ->
       openapi3.Value ref = Some schema ->
       unique_keys (openapi3.Properties schema).

Definition well_formed (d : openapi3.T) : Prop :=
  (forall components, openapi3.Components_ d = Some components ->
                      unique_schema_keys components)
  /\ forall path pathItem method operation,
       In (path, pathItem) (openapi3.Paths d) ->
       In (method, operation) (openapi3.Operations pathItem) ->
       unique_content_keys operation.

(** What [yaml.Encode] writes of a response: every field but the body. *)
Definition persisted (r : Response.t) : Response.t :=
  {| Response.Name := Response.Name r;
     Response.Code := Response.Code r;
     Response.Query := Response.Query r;
     Response.Headers := Response.Headers r;
     Response.FilePath := Response.FilePath r;
     Response.Body := None |}.

(** What decides the persisted response after the layout step: the
    persisted fields and whether there is a body. *)
Definition outline (r : Response.t) : Response.t * bool :=
  (persisted r, match Response.Body r with Some _ => true | None => false end).

(** Two requests for the same operation: the same name, method and
    path, and the same persisted responses, sorted by status code, up to
    the order within a status code. *)
Definition same_Request (r1 r2 : Request.t) : Prop :=
  Request.Name r1 = Request.Name r2
  /\ Request.Method r1 = Request.Method r2
  /\ Request.Path r1 = Request.Path r2
  /\ sorted_by_Code (Request.Responses r1)
  /\ sorted_by_Code (Request.Responses r2)
  /\ Permutation (map persisted (Request.Responses r1))
       (map persisted (Request.Responses r2)).

(** Two settings that agree on every persisted field but the port, up
    to the order of the requests. *)
Definition same_setting (m1 m2 : MockServerSetting.t) : Prop :=
  MockServerSetting.Name m1 = MockServerSetting.Name m2
  /\ MockServerSetting.Description m1 = MockServerSetting.Description m2
  /\ MockServerSetting.Host m1 = MockServerSetting.Host m2
  /\ MockServerSetting.SwaggerEnabled m1 = MockServerSetting.SwaggerEnabled m2
  /\ MockServerSetting.Headers m1 = MockServerSetting.Headers m2
  /\ up_to_order same_Request (MockServerSetting.Requests m1) (MockServerSetting.Requests m2).

(** Two runtimes with the same JSON library (the process, the operating
    system and the outcome of [sort.Slice] may differ). *)
Definition same_json (RT1 RT2 : GoRuntime) : Prop :=
  forall depth v, @json_MarshalIndent RT1 depth v = @json_MarshalIndent RT2 depth v.

(** The table of schema examples of one run has a text for a reference
    exactly when that of the other has. *)
Definition has_text (schemaExamples : list (gostring * gostring)) (ref : gostring) : bool :=
  match map_lookup schemaExamples ref with
  | Some (_ :: _) => true
  | _ => false
  end.

Definition tables_agree (t1 t2 : list (gostring * gostring)) : Prop :=
  forall ref, has_text t1 ref = has_text t2 ref.

Definition same_outline (r1 r2 : Response.t) : Prop := outline r1 = outline r2.

(** Two requests as [getRequests] builds them for the same operation in
    two runs. *)
Definition same_extracted (r1 r2 : Request.t) : Prop :=
  Request.Name r1 = Request.Name r2
  /\ Request.Method r1 = Request.Method r2
  /\ Request.Path r1 = Request.Path r2
  /\ sorted_by_Code (Request.Responses r1)
  /\ sorted_by_Code (Request.Responses r2)
  /\ up_to_order same_outline (Request.Responses r1) (Request.Responses r2).

(** The responses for one entry of a content map. *)
Definition entryResponses `{RT : GoRuntime} (schemaExamples : list (gostring * gostring))
    (description : gostring) (code : Z) (response : gostring)
    (contentType : gostring) (content : option (option openapi3.MediaType))
  : list Response.t :=
  match content with
  | None | Some None => []
  | Some (Some content) =>
      mediaTypeResponses schemaExamples description code response contentType content
  end.

(** The request list [getRequests] appends for one operation. *)
Definition operationRequests `{RT : GoRuntime} (schemaExamples : list (gostring * gostring))
    (path : gostring) (o : gostring * openapi3.Operation) : Result (list Request.t) :=
  produced <- extractResponse (snd o) schemaExamples ;;
  Ok [ {| Request.Name := openapi3.OperationID (snd o);
          Request.Method := fst o;
          Request.Path := path;
          Request.Responses := sort_Slice less_Code produced |} ].

(** The request list [getRequests] appends for one path. *)
Definition pathRequests `{RT : GoRuntime} (schemaExamples : list (gostring * gostring))
    (p : gostring * openapi3.PathItem) : Result (list Request.t) :=
  getRequests_operations schemaExamples (fst p) (openapi3.Operations (snd p)) [].

(** The key of a schema in the table of schema examples. *)
Definition schemaFullName (schemaName : gostring) : gostring :=
  str "#/components/schemas/" ++ schemaName.

(** An entry of the ordered map that [json.MarshalIndent] fails on. *)
Definition unmarshallable `{RT : GoRuntime} (entry : gostring * option any) : Prop :=
  json_MarshalIndent 1 (Some (VString (fst entry))) = None
  \/ json_MarshalIndent 1 (snd entry) = None.

(** Two runtimes in which [sort.Slice] leaves the same order. *)
Definition same_sort (RT1 RT2 : GoRuntime) : Prop :=
  forall l, @sort_Slice RT1 less_Code l = @sort_Slice RT2 less_Code l.

(** *** Insertion sort, as the library runs it on short slices *)



(* ================================================================== *)
(** ** Sample documents *)

Module Doc.

Definition response (description : string) (content : option openapi3.Content)
  : openapi3.ResponseRef :=
  {| openapi3.ResponseRef_Value :=
       Some {| openapi3.Description := Some (str description);
               openapi3.Content_ := content |} |}.

Definition example (name body : string) : gostring * option openapi3.ExampleRef :=
  (str name,
   Some {| openapi3.ExampleRef_Value :=
             Some {| openapi3.Example_Value := Some (VString (str body)) |} |}).

Definition json (examples : list (gostring * option openapi3.ExampleRef))
  : gostring * option openapi3.MediaType :=
  (str "application/json",
   Some {| openapi3.Schema_ := None; openapi3.Examples := examples |}).

Definition operation (id : string) (responses : list (gostring * openapi3.ResponseRef))
  : openapi3.Operation :=
  {| openapi3.OperationID := str id; openapi3.Responses := responses |}.

Definition document (title : string) (paths : list (gostring * openapi3.PathItem))
  : openapi3.T :=
  {| openapi3.Info_ := Some {| openapi3.Title := str title;
                               openapi3.Info_Description := [] |};
     openapi3.Components_ := None;
     openapi3.Paths := paths |}.

Definition get (path : string) (op : openapi3.Operation) : gostring * openapi3.PathItem :=
  (str path, {| openapi3.Operations := [(str "GET", op)] |}).

(** The end-to-end scenario of the spec: one path [/pets], [GET], one
    response [200] described as [OK] followed by a line feed, with one
    inline example [sample] of value [hello]. *)
Definition petStore : openapi3.T :=
  document "Pet Store"
    [get "/pets"
       (operation "listPets"
          [(str "200",
            {| openapi3.ResponseRef_Value :=
                 Some {| openapi3.Description := Some (str "OK" ++ [LF]);
                         openapi3.Content_ := Some [json [example "sample" "hello"]] |} |})])].

(** A response [404] without content and a response [200] with twelve
    inline examples, the [404] entry visited first. *)
Definition twelveExamples : openapi3.Operation :=
  operation "listPets"
    [(str "404", response "Not Found" None);
     (str "200",
      response "OK"
        (Some [json [example "e01" "1"; example "e02" "2"; example "e03" "3";
                     example "e04" "4"; example "e05" "5"; example "e06" "6";
                     example "e07" "7"; example "e08" "8"; example "e09" "9";
                     example "e10" "10"; example "e11" "11"; example "e12" "12"]]))].


(** One response [200] with two inline examples. *)
Definition twoExamples : openapi3.T :=
  document "Pet Store"
    [get "/pets"
       (operation "listPets"
          [(str "200", response "OK" (Some [json [example "a" "A"; example "b" "B"]]))])].

(** A response keyed [default]. *)
Definition withDefault : openapi3.T :=
  document "Pet Store"
    [get "/pets"
       (operation "listPets"
          [(str "200", response "OK" None); (str "default", response "Error" None)])].

(** A response entry whose definition is absent. *)
Definition unresolved : openapi3.Operation :=
  operation "listPets" [(str "200", {| openapi3.ResponseRef_Value := None |})].

(** Two paths, in the two orders in which a run can visit them. *)
Definition pets : gostring * openapi3.PathItem :=
  get "/pets" (operation "listPets" [(str "200", response "OK" None)]).

Definition owners : gostring * openapi3.PathItem :=
  get "/owners" (operation "listOwners" [(str "200", response "OK" None)]).

Definition petsFirst : openapi3.T := document "Pet Store" [pets; owners].
Definition ownersFirst : openapi3.T := document "Pet Store" [owners; pets].

(** The schema of the spec's example: properties [id] (an integer with
    example 1), [name] (a string with example [a]) and [meta] (an
    object), declared in this order. *)
Definition property (type : string) (ex : option any) : openapi3.SchemaRef :=
  openapi3.mkSchemaRef []
    (Some (openapi3.mkSchema (Some [str type]) [] ex)).

Definition id_ := (str "id", property "integer" (Some (VInt 1))).
Definition name_ := (str "name", property "string" (Some (VString (str "a")))).
Definition meta_ := (str "meta", property "object" None).

Definition pet (properties : list (gostring * openapi3.SchemaRef)) : openapi3.Schema :=
  openapi3.mkSchema (Some [str "object"]) properties None.

End Doc.

(* ================================================================== *)
(** ** Further definitions used to state properties *)

(** The text of [s] before the first byte [c] (all of [s] when it has
    none). *)
Fixpoint take_until (c : ascii) (s : gostring) : gostring :=
  match s with
  | [] => []
  | x :: s' => if byte_eqb x c then [] else x :: take_until c s'
  end.

(** The key segment of a query string: what stands between the leading
    [?key=] and the first ampersand. *)
Definition query_key (query : gostring) : gostring :=
  take_until "&"%char (skipn 5 query).

(** A byte [strconv.Atoi] accepts somewhere in its argument. *)
Definition numeral_byte (c : ascii) : bool :=
  is_digit c || byte_eqb c "-"%char || byte_eqb c "+"%char.

(** The query of a response built for a content type, up to the name of
    the example. *)
Definition content_query (key contentType : gostring) : gostring :=
  str "?key=" ++ key ++ str "&contentType=" ++ contentType.

(** The header list built for a content type. *)
Definition content_headers (contentType : gostring) : list Header.t :=
  [ {| Header.Name := str "Content-Type"; Header.Value := contentType |} ].

(** The description [extractResponse] reads from a response. *)
Definition description_of (value : openapi3.Response) : gostring :=
  match openapi3.Description value with
  | Some d => d
  | None => []
  end.

(** A byte that can stand in a sanitized name. *)
Definition name_byte (c : ascii) : Prop :=
  ~ In c notAllowed /\ c <> LF /\ c <> " "%char.

(** The inline examples of every media type have one entry for a
    name. *)
Definition unique_example_names (operation : openapi3.Operation) : Prop :=
  forall key item value content contentType media,
    In (key, item) (openapi3.Responses operation) ->
    openapi3.ResponseRef_Value item = Some value ->
    openapi3.Content_ value = Some content ->
    In (contentType, Some media) content ->
    unique_keys (openapi3.Examples media).

(** No content type of the operation holds an ampersand. *)
Definition plain_content_types (operation : openapi3.Operation) : Prop :=
  forall key item value content contentType media,
    In (key, item) (openapi3.Responses operation) ->
    openapi3.ResponseRef_Value item = Some value ->
    openapi3.Content_ value = Some content ->
    In (contentType, media) content ->
    ~ In "&"%char contentType.

(** The status codes of the entries of the response map, as [Atoi]
    reads the keys. *)
Definition parsed_codes (operation : openapi3.Operation) : list (option Z) :=
  map (fun entry => Atoi (fst entry)) (openapi3.Responses operation).

(** A property whose schema reference is not resolved: its [Value] is
    nil. *)
Definition dangling (entry : gostring * openapi3.SchemaRef) : Prop :=
  openapi3.Value (snd entry) = None.

(** The text of the ordered map, as [extractSchemaExample] returns it:
    empty when marshalling fails. *)
Definition example_text `{RT : GoRuntime} (om : OrderedMap.t) : gostring :=
  match OrderedMap.MarshalIndent om with
  | Some finalData => finalData
  | None => []
  end.

(** The response built for a media type without inline examples. *)
Definition plain_response (description : gostring) (code : Z) (key contentType : gostring)
    (body : option gostring) : Response.t :=
  {| Response.Name := cleanFolderName description;
     Response.Code := code;
     Response.Query := content_query key contentType;
     Response.Headers := Some (content_headers contentType);
     Response.FilePath := None;
     Response.Body := body |}.

(** The operations of a document in the order in which the two loops
    of [getRequests] visit them: path, method and operation. *)
Definition operations_of (openAPISpec : openapi3.T)
  : list (gostring * gostring * openapi3.Operation) :=
  flat_map (fun p => map (fun o => (fst p, fst o, snd o)) (openapi3.Operations (snd p)))
    (openapi3.Paths openAPISpec).

(** The request [getRequests] builds for an operation, given the table
    of schema examples. *)
Definition request_of `{RT : GoRuntime} (schemaExamples : list (gostring * gostring))
    (o : gostring * gostring * openapi3.Operation) (request : Request.t) : Prop :=
  let '(path, method, operation) := o in
  exists produced,
    extractResponse operation schemaExamples = Ok produced
    /\ request = {| Request.Name := openapi3.OperationID operation;
                    Request.Method := method;
                    Request.Path := path;
                    Request.Responses := sort_Slice less_Code produced |}.

(** The table of schema examples [getRequests] starts from. *)
Definition schema_table `{RT : GoRuntime} (openAPISpec : openapi3.T)
  : Result (list (gostring * gostring)) :=
  match openapi3.Components_ openAPISpec with
  | Some components => getRequests_schemas (openapi3.Schemas components) []
  | None => Ok []
  end.

(** The target folder as [CreateFolder] trims it: the slashes at its
    end are dropped, then the backslashes. *)
Definition trimmed_target (targetFolder : gostring) : gostring :=
  TrimRight (TrimRight targetFolder "/"%char) "\"%char.

(** The folder of the service under the target folder. *)
Definition service_folder (targetFolder Name : gostring) : gostring :=
  trimmed_target targetFolder ++ str "/data/" ++ cleanFolderName Name.

(** The setting with another folder. *)
Definition with_Folder (m : MockServerSetting.t) (folder : gostring) : MockServerSetting.t :=
  {| MockServerSetting.Name := MockServerSetting.Name m;
     MockServerSetting.Description := MockServerSetting.Description m;
     MockServerSetting.Folder := folder;
     MockServerSetting.Host := MockServerSetting.Host m;
     MockServerSetting.Port := MockServerSetting.Port m;
     MockServerSetting.SwaggerEnabled := MockServerSetting.SwaggerEnabled m;
     MockServerSetting.Headers := MockServerSetting.Headers m;
     MockServerSetting.Requests := MockServerSetting.Requests m;
     MockServerSetting.Schemas := MockServerSetting.Schemas m |}.

(** The setting with another request list. *)
Definition with_Requests (m : MockServerSetting.t) (requests : list Request.t)
  : MockServerSetting.t :=
  {| MockServerSetting.Name := MockServerSetting.Name m;
     MockServerSetting.Description := MockServerSetting.Description m;
     MockServerSetting.Folder := MockServerSetting.Folder m;
     MockServerSetting.Host := MockServerSetting.Host m;
     MockServerSetting.Port := MockServerSetting.Port m;
     MockServerSetting.SwaggerEnabled := MockServerSetting.SwaggerEnabled m;
     MockServerSetting.Headers := MockServerSetting.Headers m;
     MockServerSetting.Requests := requests;
     MockServerSetting.Schemas := MockServerSetting.Schemas m |}.

(** The path [CopyOpenAPIFile] writes the copy to. *)
Definition copyFilePath (m : MockServerSetting.t) (openApiFile : gostring) : gostring :=
  MockServerSetting.Folder m ++ str "/openapi" ++ filepath_Ext openApiFile.

(* ================================================================== *)
(** * Properties *)

(** ** Strings *)

Lemma byte_eqb_eq (a b : ascii) : byte_eqb a b = true <-> a = b.
Proof. apply Ascii.eqb_eq. Qed.

Lemma byte_eqb_refl (a : ascii) : byte_eqb a a = true.
Proof. apply Ascii.eqb_refl. Qed.

Lemma gostring_eqb_eq (a b : gostring) : gostring_eqb a b = true <-> a = b.
Proof.
  revert b; induction a as [|x a IH]; intros [|y b]; simpl; split; intro H;
    try reflexivity; try discriminate.
  - apply andb_true_iff in H as [H1 H2].
    apply byte_eqb_eq in H1. apply IH in H2. now subst.
  - injection H as -> ->. rewrite byte_eqb_refl. simpl. now apply IH.
Qed.

Lemma gostring_eqb_refl (a : gostring) : gostring_eqb a a = true.
Proof. now apply gostring_eqb_eq. Qed.

Lemma HasPrefix_nil (s : gostring) : HasPrefix s [] = true.
Proof. destruct s; reflexivity. Qed.

Lemma replace_go_single (c : ascii) (new s : gostring) :
  replace_go [c] new 0 s = replace_byte c new s.
Proof.
  induction s as [|x s IH]; simpl; [reflexivity|].
  rewrite HasPrefix_nil, andb_true_r, IH.
  unfold byte_eqb. rewrite Ascii.eqb_sym.
  destruct (Ascii.eqb x c); reflexivity.
Qed.

Lemma replace_byte_same (c : ascii) (s : gostring) : replace_byte c [c] s = s.
Proof.
  induction s as [|x s IH]; simpl; [reflexivity|].
  fold (replace_byte c [c] s). rewrite IH.
  destruct (byte_eqb x c) eqn:E; [apply byte_eqb_eq in E; now subst|reflexivity].
Qed.

Lemma ReplaceAll_single (s : gostring) (c : ascii) (new : gostring) :
  ReplaceAll s [c] new = replace_byte c new s.
Proof.
  unfold ReplaceAll.
  destruct (gostring_eqb [c] new) eqn:E.
  - apply gostring_eqb_eq in E. subst new. now rewrite replace_byte_same.
  - apply replace_go_single.
Qed.

Lemma replace_byte_remove (c : ascii) (s : gostring) :
  replace_byte c [] s = filter (fun x => negb (byte_eqb x c)) s.
Proof.
  induction s as [|x s IH]; simpl; [reflexivity|].
  fold (replace_byte c [] s). rewrite IH.
  destruct (byte_eqb x c); reflexivity.
Qed.

Lemma replace_byte_map (c d : ascii) (s : gostring) :
  replace_byte c [d] s = map (fun x => if byte_eqb x c then d else x) s.
Proof.
  induction s as [|x s IH]; simpl; [reflexivity|].
  fold (replace_byte c [d] s). rewrite IH.
  destruct (byte_eqb x c); reflexivity.
Qed.

(** *** TrimSpace returns a part of its argument *)

Lemma incl_firstn {A} (n : nat) (l : list A) : incl (firstn n l) l.
Proof.
  intros x H. rewrite <- (firstn_skipn n l). apply in_or_app. now left.
Qed.

Lemma incl_skipn {A} (n : nat) (l : list A) : incl (skipn n l) l.
Proof.
  intros x H. rewrite <- (firstn_skipn n l). apply in_or_app. now right.
Qed.

Lemma TrimLeftFunc_go_incl (f : Z -> bool) (fuel : nat) (s : gostring) :
  incl (TrimLeftFunc_go fuel s f) s.
Proof.
  revert s; induction fuel as [|fuel IH]; intros s; simpl.
  - intros x [].
  - destruct s as [|c s']; [intros x []|].
    destruct (utf8.DecodeRuneInString (c :: s')) as [r size].
    destruct (f r); [|apply incl_refl].
    eapply incl_tran; [apply IH|apply incl_skipn].
Qed.

Lemma TrimRightFunc_incl (f : Z -> bool) (s : gostring) :
  incl (TrimRightFunc s f) s.
Proof.
  unfold TrimRightFunc.
  destruct (lastIndexFunc s f) as [i|]; [|intros x []].
  destruct (utf8.RuneSelf <=? bv (nth i s "000"%char)); apply incl_firstn.
Qed.

Lemma TrimFunc_incl (f : Z -> bool) (s : gostring) : incl (TrimFunc s f) s.
Proof.
  unfold TrimFunc, TrimLeftFunc.
  eapply incl_tran; [apply TrimRightFunc_incl|apply TrimLeftFunc_go_incl].
Qed.

Lemma incl_rev_l {A} (l : list A) : incl (rev l) l.
Proof. intros x H. now apply in_rev. Qed.

Lemma TrimSpace_stop_incl (r : gostring) : incl (TrimSpace_stop r) r.
Proof.
  induction r as [|c r IH]; cbn [TrimSpace_stop]; [apply incl_refl|].
  destruct (utf8.RuneSelf <=? bv c).
  - eapply incl_tran; [apply TrimRightFunc_incl|apply incl_rev_l].
  - destruct (asciiSpace c).
    + now apply incl_tl.
    + apply incl_rev_l.
Qed.

Lemma TrimSpace_incl (s : gostring) : incl (TrimSpace s) s.
Proof.
  induction s as [|c s IH]; cbn [TrimSpace]; [apply incl_refl|].
  destruct (utf8.RuneSelf <=? bv c); [apply TrimFunc_incl|].
  destruct (asciiSpace c).
  - now apply incl_tl.
  - eapply incl_tran; [apply TrimSpace_stop_incl|apply incl_rev_l].
Qed.

(** Text that starts and ends with an ASCII byte that is no white space
    is left alone. *)
Lemma TrimSpace_plain_ends (s : gostring) (c d : ascii) :
  hd_error s = Some c -> hd_error (rev s) = Some d ->
  plain_byte c = true -> plain_byte d = true -> TrimSpace s = s.
Proof.
  intros Hs Hr Hc Hd.
  destruct s as [|c' s]; [discriminate|]. injection Hs as ->.
  unfold plain_byte in Hc, Hd.
  apply andb_true_iff in Hc as [Hc1 Hc2], Hd as [Hd1 Hd2].
  apply Z.ltb_lt in Hc1, Hd1. apply negb_true_iff in Hc2, Hd2.
  cbn [TrimSpace].
  destruct (utf8.RuneSelf <=? bv c) eqn:E; [apply Z.leb_le in E; lia|].
  rewrite Hc2.
  destruct (rev (c :: s)) as [|d' r] eqn:Er; [discriminate|].
  injection Hr as ->.
  cbn [TrimSpace_stop].
  destruct (utf8.RuneSelf <=? bv d) eqn:E'; [apply Z.leb_le in E'; lia|].
  rewrite Hd2, <- Er. apply rev_involutive.
Qed.

Lemma TrimSpace_plain (s : gostring) :
  Forall (fun c => plain_byte c = true) s -> TrimSpace s = s.
Proof.
  intros H. destruct s as [|c s]; [reflexivity|].
  destruct (rev (c :: s)) as [|d r] eqn:Er.
  - apply (f_equal (@List.length _)) in Er. rewrite length_rev in Er. discriminate.
  - rewrite Forall_forall in H.
    apply (@TrimSpace_plain_ends (c :: s) c d); [reflexivity|now rewrite Er| |].
    + apply H. now left.
    + apply H. apply in_rev. rewrite Er. now left.
Qed.

(** On ASCII text, [TrimSpace] drops the white space bytes at both ends. *)
Lemma TrimSpace_stop_ascii (r : gostring) :
  Forall (fun c => is_ascii c = true) r -> TrimSpace_stop r = rev (drop_spaces r).
Proof.
  induction 1 as [|c r Hc Hr IH]; [reflexivity|].
  cbn [TrimSpace_stop drop_spaces].
  unfold is_ascii in Hc. apply Z.ltb_lt in Hc.
  destruct (utf8.RuneSelf <=? bv c) eqn:E; [apply Z.leb_le in E; lia|].
  destruct (asciiSpace c); [exact IH|reflexivity].
Qed.

Lemma TrimSpace_ascii (s : gostring) :
  Forall (fun c => is_ascii c = true) s -> TrimSpace s = trim_ascii s.
Proof.
  unfold trim_ascii. induction 1 as [|c s Hc Hs IH]; [reflexivity|].
  cbn [TrimSpace drop_spaces].
  pose proof Hc as Hc'. unfold is_ascii in Hc'. apply Z.ltb_lt in Hc'.
  destruct (utf8.RuneSelf <=? bv c) eqn:E; [apply Z.leb_le in E; lia|].
  destruct (asciiSpace c); [exact IH|].
  apply TrimSpace_stop_ascii.
  apply Forall_forall. intros x Hx. apply in_rev in Hx.
  revert x Hx. apply Forall_forall. now constructor.
Qed.

(** *** cleanFolderName *)

Lemma filter_filter {A} (p q : A -> bool) (l : list A) :
  filter p (filter q l) = filter (fun x => q x && p x) l.
Proof.
  induction l as [|x l IH]; simpl; [reflexivity|].
  destruct (q x); simpl; [destruct (p x)|]; now rewrite IH.
Qed.

Lemma cleanFolderName_bytewise (name : gostring) :
  cleanFolderName name = sanitize_bytewise name.
Proof.
  unfold cleanFolderName, sanitize_bytewise, notAllowedChars.
  cbn [fold_left str list_ascii_of_string].
  rewrite !ReplaceAll_single, !replace_byte_remove, replace_byte_map.
  rewrite !filter_filter.
  apply filter_ext. intros c.
  unfold is_notAllowed, notAllowed, notAllowedChars.
  cbn [List.concat str list_ascii_of_string app existsb].
  rewrite !negb_orb, andb_true_r, !andb_assoc. reflexivity.
Qed.

Lemma sanitize_bytewise_In (text : gostring) (c : ascii) :
  In c (sanitize_bytewise text) ->
  is_notAllowed c = false /\ c <> LF /\ c <> " "%char
  /\ (c = "_"%char \/ In c text).
Proof.
  unfold sanitize_bytewise. intros H.
  apply filter_In in H as [H Hc]. apply negb_true_iff in Hc.
  apply in_map_iff in H as [x [Hx Hin]].
  apply TrimSpace_incl in Hin. apply filter_In in Hin as [Hin Hlf].
  apply negb_true_iff in Hlf.
  split; [exact Hc|].
  destruct (byte_eqb x " "%char) eqn:E; subst c.
  - repeat split; try discriminate. now left.
  - repeat split.
    + intros ->. now rewrite byte_eqb_refl in Hlf.
    + intros ->. now rewrite byte_eqb_refl in E.
    + now right.
Qed.

(** Sanitizing a sanitized text only trims it. *)
Lemma sanitize_bytewise_twice (text : gostring) :
  sanitize_bytewise (sanitize_bytewise text) = TrimSpace (sanitize_bytewise text).
Proof.
  set (y := sanitize_bytewise text).
  assert (Hy : forall c, In c y ->
             is_notAllowed c = false /\ c <> LF /\ c <> " "%char).
  { intros c Hc. apply sanitize_bytewise_In in Hc. tauto. }
  unfold sanitize_bytewise at 1.
  assert (E1 : filter (fun c => negb (byte_eqb c LF)) y = y).
  { apply forallb_filter_id. apply forallb_forall. intros c Hc.
    apply negb_true_iff. destruct (byte_eqb c LF) eqn:E; [|reflexivity].
    apply byte_eqb_eq in E. apply Hy in Hc. tauto. }
  rewrite E1.
  assert (Ht : forall c, In c (TrimSpace y) ->
             is_notAllowed c = false /\ c <> LF /\ c <> " "%char).
  { intros c Hc. apply Hy. now apply TrimSpace_incl. }
  assert (E2 : map (fun c => if byte_eqb c " "%char then "_"%char else c) (TrimSpace y)
               = TrimSpace y).
  { rewrite <- (map_id (TrimSpace y)) at 2. apply map_ext_in. intros c Hc.
    destruct (byte_eqb c " "%char) eqn:E; [|reflexivity].
    apply byte_eqb_eq in E. apply Ht in Hc. tauto. }
  rewrite E2.
  apply forallb_filter_id. apply forallb_forall. intros c Hc.
  apply Ht in Hc. destruct Hc as [Hc _]. now rewrite Hc.
Qed.

Lemma tame_not_space_plain (c : ascii) :
  tame_byte c = true -> c <> LF -> c <> " "%char -> plain_byte c = true.
Proof.
  unfold tame_byte, plain_byte, asciiSpace. intros H Hlf Hsp.
  apply andb_true_iff in H as [H1 H2]. rewrite H1. simpl.
  apply negb_true_iff in H2. apply orb_false_iff in H2 as [H2 H13].
  apply orb_false_iff in H2 as [H2 H12]. apply orb_false_iff in H2 as [H9 H11].
  rewrite H9, H11, H12, H13. simpl.
  assert (N10 : bv c <> 10).
  { intros E. apply Hlf. unfold bv in E.
    rewrite <- (ascii_N_embedding c). unfold LF.
    replace (N_of_ascii c) with 10%N by lia. reflexivity. }
  assert (N32 : bv c <> 32).
  { intros E. apply Hsp. unfold bv in E.
    rewrite <- (ascii_N_embedding c).
    replace (N_of_ascii c) with 32%N by lia. reflexivity. }
  apply Z.eqb_neq in N10, N32. now rewrite N10, N32.
Qed.

Lemma is_notAllowed_false (c : ascii) : is_notAllowed c = false <-> ~ In c notAllowed.
Proof.
  unfold is_notAllowed. split.
  - intros H Hin.
    assert (E : existsb (byte_eqb c) notAllowed = true).
    { apply existsb_exists. exists c. split; [exact Hin|apply byte_eqb_refl]. }
    congruence.
  - intros H. destruct (existsb (byte_eqb c) notAllowed) eqn:E; [|reflexivity].
    apply existsb_exists in E as [x [Hx Hcx]]. apply byte_eqb_eq in Hcx. now subst.
Qed.

Lemma sanitize_bytewise_run (k : nat) :
  sanitize_bytewise (str "a" ++ repeat " "%char k ++ str "b")
  = str "a" ++ repeat "_"%char k ++ str "b".
Proof.
  unfold sanitize_bytewise.
  assert (E1 : filter (fun c => negb (byte_eqb c LF)) (str "a" ++ repeat " "%char k ++ str "b")
               = str "a" ++ repeat " "%char k ++ str "b").
  { apply forallb_filter_id. apply forallb_forall. intros c Hc.
    apply in_app_or in Hc as [Hc|Hc]; [|apply in_app_or in Hc as [Hc|Hc]].
    - destruct Hc as [<-|[]]. reflexivity.
    - apply repeat_spec in Hc. now subst.
    - destruct Hc as [<-|[]]. reflexivity. }
  rewrite E1.
  rewrite (@TrimSpace_plain_ends _ "a"%char "b"%char); try reflexivity.
  - set (F := fun c => if byte_eqb c " "%char then "_"%char else c).
    set (P := fun c => negb (is_notAllowed c)).
    rewrite !map_app, !filter_app. clear E1.
    assert (Hk : filter P (map F (repeat " "%char k)) = repeat "_"%char k).
    { induction k as [|k IH]; [reflexivity|].
      change (repeat " "%char (S k)) with (" "%char :: repeat " "%char k).
      rewrite map_cons. change (F " "%char) with "_"%char.
      cbn [filter]. change (P "_"%char) with true. cbv iota.
      now rewrite IH. }
    rewrite Hk. reflexivity.
  - rewrite !rev_app_distr. reflexivity.
Qed.

(** *** The claims on the sanitizer *)

(** C4, as stated, fails: a run of two spaces inside the text gives two
    underscores, not one. *)
Lemma C4_two_spaces_two_underscores :
  cleanFolderName (str "a  b") = str "a__b"
  /\ cleanFolderName (str "a  b") <> str "a_b".
Proof. split; [reflexivity|discriminate]. Qed.

(** C4, amended: [cleanFolderName] drops every line feed, trims white
    space at both ends (on ASCII text: the bytes tab, vertical tab, form
    feed, carriage return and space at the start and at the end), turns
    every space that is left into one underscore (one for each space, so a
    run of [k] spaces gives [k] underscores, and other white space inside
    the text is kept), and drops the bytes that are not allowed. *)
Theorem C4_cleanFolderName_bytewise :
  (forall name, cleanFolderName name = sanitize_bytewise name)
  /\ (forall name,
        Forall (fun c => is_ascii c = true) name ->
        cleanFolderName name
        = filter (fun c => negb (is_notAllowed c))
            (map (fun c => if byte_eqb c " "%char then "_"%char else c)
               (trim_ascii (filter (fun c => negb (byte_eqb c LF)) name))))
  /\ (forall k, cleanFolderName (str "a" ++ repeat " "%char k ++ str "b")
                = str "a" ++ repeat "_"%char k ++ str "b").
Proof.
  split; [apply cleanFolderName_bytewise|]. split.
  - intros name H. rewrite cleanFolderName_bytewise. unfold sanitize_bytewise.
    rewrite TrimSpace_ascii; [reflexivity|].
    apply Forall_forall. intros c Hc. apply filter_In in Hc as [Hc _].
    rewrite Forall_forall in H. now apply H.
  - intros k. rewrite cleanFolderName_bytewise. apply sanitize_bytewise_run.
Qed.

Lemma C4_cleanFolderName_bytewise_witness :
  Forall (fun c => is_ascii c = true) (str "  Pet  Store: A/B ")
  /\ cleanFolderName (str "  Pet  Store: A/B ")
     = filter (fun c => negb (is_notAllowed c))
         (map (fun c => if byte_eqb c " "%char then "_"%char else c)
            (trim_ascii (filter (fun c => negb (byte_eqb c LF)) (str "  Pet  Store: A/B "))))
  /\ cleanFolderName (str "  Pet  Store: A/B ") = str "Pet__Store_AB".
Proof.
  assert (H : Forall (fun c => is_ascii c = true) (str "  Pet  Store: A/B ")).
  { repeat constructor. }
  split; [exact H|]. split; [|reflexivity].
  exact (proj1 (proj2 C4_cleanFolderName_bytewise) (str "  Pet  Store: A/B ") H).
Defined.

(** C7, as stated, fails: removing the less-than sign uncovers a tab at
    the start of the text, which only a second pass trims. *)
Lemma C7_not_idempotent :
  cleanFolderName (cleanFolderName ("<"%char :: "009"%char :: str "a"))
  <> cleanFolderName ("<"%char :: "009"%char :: str "a").
Proof. discriminate. Qed.

(** C7, amended: sanitizing a sanitized text only trims its white space,
    [sanitize (sanitize x) = TrimSpace (sanitize x)]; so [sanitize] is
    idempotent on every text of ASCII bytes without tab, vertical tab,
    form feed and carriage return. *)
Theorem C7_cleanFolderName_twice (x : gostring) :
  cleanFolderName (cleanFolderName x) = TrimSpace (cleanFolderName x)
  /\ (Forall (fun c => tame_byte c = true) x ->
      cleanFolderName (cleanFolderName x) = cleanFolderName x).
Proof.
  rewrite !cleanFolderName_bytewise.
  split; [apply sanitize_bytewise_twice|].
  intros H. rewrite sanitize_bytewise_twice.
  apply TrimSpace_plain. apply Forall_forall. intros c Hc.
  apply sanitize_bytewise_In in Hc as (_ & Hlf & Hsp & [->|Hin]); [reflexivity|].
  rewrite Forall_forall in H. now apply tame_not_space_plain; [apply H| |].
Qed.

Lemma C7_cleanFolderName_twice_witness :
  Forall (fun c => tame_byte c = true) (str " Pet  Store? ")
  /\ cleanFolderName (cleanFolderName (str " Pet  Store? "))
     = cleanFolderName (str " Pet  Store? ").
Proof.
  assert (H : Forall (fun c => tame_byte c = true) (str " Pet  Store? ")).
  { repeat constructor. }
  split; [exact H|].
  exact (proj2 (C7_cleanFolderName_twice (str " Pet  Store? ")) H).
Defined.

(** C8: the output of [cleanFolderName] holds none of the bytes that are
    not allowed (less-than, greater-than, colon, double quote, slash,
    backslash, bar, question mark, star) and no line feed. *)
Theorem C8_cleanFolderName_output (text : gostring) :
  Forall (fun c => ~ In c notAllowed /\ c <> LF) (cleanFolderName text).
Proof.
  rewrite cleanFolderName_bytewise. apply Forall_forall. intros c Hc.
  apply sanitize_bytewise_In in Hc as (Hn & Hlf & _).
  split; [now apply is_notAllowed_false|exact Hlf].
Qed.

(* ================================================================== *)
(** ** Response extraction *)

Section ExtractFacts.

Context `{RT : GoRuntime}.

Lemma responseResponses_absent schemaExamples key item :
  openapi3.ResponseRef_Value item = None ->
  responseResponses schemaExamples (key, item) = Stop NilDereference.
Proof. intros H. unfold responseResponses. now rewrite H. Qed.

Lemma responseResponses_not_numeric schemaExamples key item value :
  openapi3.ResponseRef_Value item = Some value ->
  Atoi key = None ->
  responseResponses schemaExamples (key, item)
  = Stop (Fatal "Failed to convert response code to integer").
Proof. intros H1 H2. unfold responseResponses. rewrite H1. simpl. now rewrite H2. Qed.

Lemma responseResponses_total schemaExamples entry :
  has_definition entry -> has_numeric_key entry ->
  exists rs, responseResponses schemaExamples entry = Ok rs.
Proof.
  destruct entry as [key item]. unfold has_definition, has_numeric_key. simpl.
  intros H1 H2. unfold responseResponses.
  destruct (openapi3.ResponseRef_Value item) as [value|]; [|congruence]. simpl.
  destruct (Atoi key) as [code|]; [|congruence].
  destruct (openapi3.Content_ value); eauto.
Qed.

Lemma responseResponses_Ok_inv schemaExamples entry rs :
  responseResponses schemaExamples entry = Ok rs ->
  has_definition entry /\ has_numeric_key entry.
Proof.
  destruct entry as [key item]. unfold has_definition, has_numeric_key. simpl.
  unfold responseResponses.
  destruct (openapi3.ResponseRef_Value item) as [value|]; simpl; [|discriminate].
  destruct (Atoi key) as [code|]; [|discriminate].
  intros _. split; discriminate.
Qed.

(** The loop succeeds exactly when every entry does, and then appends
    what the entries give, in order. *)
Lemma extractResponse_loop_Ok schemaExamples entries acc rs :
  extractResponse_loop schemaExamples entries acc = Ok rs <->
  exists outs,
    Forall2 (fun e o => responseResponses schemaExamples e = Ok o) entries outs
    /\ rs = acc ++ List.concat outs.
Proof.
  revert acc rs; induction entries as [|e entries IH]; intros acc rs; simpl.
  - split.
    + intros [= <-]. exists []. split; [constructor|]. simpl. now rewrite app_nil_r.
    + intros (outs & HF & ->). inversion HF; subst. simpl. now rewrite app_nil_r.
  - destruct (responseResponses schemaExamples e) as [o|err] eqn:E; simpl.
    + rewrite IH. split.
      * intros (outs & HF & ->). exists (o :: outs). split; [now constructor|].
        simpl. now rewrite app_assoc.
      * intros (outs & HF & ->). inversion HF as [|? o' ? outs' Ho HF']; subst.
        assert (o' = o) by congruence. subst o'.
        exists outs'. split; [exact HF'|]. simpl. now rewrite app_assoc.
    + split; [discriminate|].
      intros (outs & HF & _). inversion HF; subst. congruence.
Qed.

Lemma extractResponse_loop_Stop schemaExamples entries acc e err :
  In e entries -> responseResponses schemaExamples e = Stop err ->
  exists err', extractResponse_loop schemaExamples entries acc = Stop err'.
Proof.
  intros Hin He.
  destruct (extractResponse_loop schemaExamples entries acc) as [rs|err'] eqn:E; [|eauto].
  apply extractResponse_loop_Ok in E as (outs & HF & _).
  exfalso. clear acc rs.
  induction HF as [|e0 o0 es os H0 HF IH]; [destruct Hin|].
  destruct Hin as [->|Hin]; [congruence|auto].
Qed.

(** The first entry that stops decides how the loop stops. *)
Lemma extractResponse_loop_Stop_kind schemaExamples (P : Abort -> Prop) entries acc err :
  extractResponse_loop schemaExamples entries acc = Stop err ->
  Forall (fun e => forall x, responseResponses schemaExamples e = Stop x -> P x) entries ->
  P err.
Proof.
  revert acc; induction entries as [|e entries IH]; intros acc; simpl; [discriminate|].
  intros H HF. inversion HF as [|? ? He HF']; subst.
  destruct (responseResponses schemaExamples e) as [o|x] eqn:E; simpl in H.
  - eapply IH; eauto.
  - injection H as <-. now apply He.
Qed.

Lemma extractResponse_total operation schemaExamples :
  Forall has_definition (openapi3.Responses operation) ->
  Forall has_numeric_key (openapi3.Responses operation) ->
  exists rs, extractResponse operation schemaExamples = Ok rs.
Proof.
  unfold extractResponse. generalize (@nil Response.t) as acc.
  induction (openapi3.Responses operation) as [|e entries IH]; intros acc H1 H2; simpl.
  - eauto.
  - inversion H1; inversion H2; subst.
    destruct (@responseResponses_total schemaExamples e) as [o ->]; auto.
    simpl. apply IH; auto.
Qed.

(** *** The walks of [getRequests] *)

Lemma getRequests_operations_Ok schemaExamples path ops acc requests :
  getRequests_operations schemaExamples path ops acc = Ok requests ->
  exists news,
    requests = acc ++ news
    /\ Forall2 (fun o r =>
                  exists produced,
                    extractResponse (snd o) schemaExamples = Ok produced
                    /\ r = {| Request.Name := openapi3.OperationID (snd o);
                              Request.Method := fst o;
                              Request.Path := path;
                              Request.Responses := sort_Slice less_Code produced |})
         ops news.
Proof.
  revert acc requests; induction ops as [|[method operation] ops IH];
    intros acc requests; simpl.
  - intros [= <-]. exists []. split; [now rewrite app_nil_r|constructor].
  - destruct (extractResponse operation schemaExamples) as [produced|] eqn:E;
      simpl; [|discriminate].
    intros H. apply IH in H as (news & -> & HF).
    eexists (_ :: news). split; [now rewrite <- app_assoc|].
    constructor; [|exact HF]. exists produced. split; [exact E|reflexivity].
Qed.

Lemma Forall2_Forall_r {A B} (R : A -> B -> Prop) (l : list A) (l' : list B) :
  Forall2 R l l' -> Forall (fun b => exists a, In a l /\ R a b) l'.
Proof.
  induction 1 as [|a b l l' H HF IH]; constructor.
  - exists a. split; [now left|exact H].
  - eapply Forall_impl; [|exact IH].
    intros b' (a' & Hin & HR). exists a'. split; [now right|exact HR].
Qed.

Lemma getRequests_paths_Ok schemaExamples paths acc requests :
  getRequests_paths schemaExamples paths acc = Ok requests ->
  exists news,
    requests = acc ++ news
    /\ Forall (fun r =>
                 exists path pathItem method operation produced,
                   In (path, pathItem) paths
                   /\ In (method, operation) (openapi3.Operations pathItem)
                   /\ extractResponse operation schemaExamples = Ok produced
                   /\ r = {| Request.Name := openapi3.OperationID operation;
                             Request.Method := method;
                             Request.Path := path;
                             Request.Responses := sort_Slice less_Code produced |})
         news.
Proof.
  revert acc requests; induction paths as [|[path pathItem] paths IH];
    intros acc requests; simpl.
  - intros [= <-]. exists []. split; [now rewrite app_nil_r|constructor].
  - destruct (getRequests_operations schemaExamples path (openapi3.Operations pathItem) acc)
      as [requests1|] eqn:E; simpl; [|discriminate].
    apply getRequests_operations_Ok in E as (news1 & -> & HF1).
    intros H. apply IH in H as (news2 & -> & HF2).
    exists (news1 ++ news2). split; [now rewrite app_assoc|].
    apply Forall_app. split.
    + apply Forall2_Forall_r in HF1.
      eapply Forall_impl; [|exact HF1].
      intros r ([method operation] & Hin & produced & H1 & H2).
      exists path, pathItem, method, operation, produced.
      split; [now left|]. auto.
    + eapply Forall_impl; [|exact HF2].
      intros r (p & pi & me & op & pr & H1 & H2 & H3 & H4).
      exists p, pi, me, op, pr. split; [now right|]. auto.
Qed.

(** A request list comes out only if every operation's extraction
    succeeds. *)
Lemma getRequests_operations_Stop schemaExamples path ops acc method operation err :
  In (method, operation) ops ->
  extractResponse operation schemaExamples = Stop err ->
  exists err', getRequests_operations schemaExamples path ops acc = Stop err'.
Proof.
  revert acc; induction ops as [|[method' operation'] ops IH]; intros acc Hin He;
    [destruct Hin|]. simpl.
  destruct Hin as [[= -> ->]|Hin].
  - rewrite He. simpl. eauto.
  - destruct (extractResponse operation' schemaExamples); simpl; eauto.
Qed.

Lemma getRequests_paths_Stop schemaExamples paths acc path pathItem method operation err :
  In (path, pathItem) paths ->
  In (method, operation) (openapi3.Operations pathItem) ->
  extractResponse operation schemaExamples = Stop err ->
  exists err', getRequests_paths schemaExamples paths acc = Stop err'.
Proof.
  revert acc; induction paths as [|[path' pathItem'] paths IH]; intros acc Hin Hop He;
    [destruct Hin|]. simpl.
  destruct Hin as [[= -> ->]|Hin].
  - destruct (@getRequests_operations_Stop schemaExamples path _ acc _ _ err Hop He) as [err' ->].
    simpl. eauto.
  - destruct (getRequests_operations schemaExamples path' (openapi3.Operations pathItem') acc);
      simpl; eauto.
Qed.

End ExtractFacts.

(** *** The sorting contract, met by insertion sort *)

Lemma less_Code_false (a b : Response.t) :
  less_Code b a = false <-> Response.Code a <= Response.Code b.
Proof. unfold less_Code. rewrite Z.ltb_ge. reflexivity. Qed.

Lemma sorted_by_Code_of_less (l : list Response.t) :
  StronglySorted (fun a b => less_Code b a = false) l -> sorted_by_Code l.
Proof.
  induction 1 as [|a l Hs IH Ha]; constructor; [exact IH|].
  eapply Forall_impl; [|exact Ha]. intros b Hb. now apply less_Code_false.
Qed.

Lemma insert_perm (x : Response.t) (l : list Response.t) :
  Permutation (x :: l) (Sample.insert less_Code x l).
Proof.
  induction l as [|y l IH]; simpl; [reflexivity|].
  destruct (less_Code y x); [|reflexivity].
  rewrite perm_swap. now apply perm_skip.
Qed.

Lemma insert_sorted (x : Response.t) (l : list Response.t) :
  StronglySorted (fun a b => less_Code b a = false) l ->
  StronglySorted (fun a b => less_Code b a = false) (Sample.insert less_Code x l).
Proof.
  induction 1 as [|y l Hs IH Hy]; simpl; [repeat constructor|].
  destruct (less_Code y x) eqn:E.
  - constructor; [exact IH|].
    apply Forall_forall. intros z Hz.
    apply (Permutation_in _ (Permutation_sym (insert_perm x l))) in Hz.
    destruct Hz as [<-|Hz].
    + unfold less_Code in *. apply Z.ltb_lt in E. apply Z.ltb_ge. lia.
    + rewrite Forall_forall in Hy. now apply Hy.
  - constructor; [now constructor|].
    constructor; [exact E|].
    eapply Forall_impl; [|exact Hy]. intros z Hz.
    unfold less_Code in *. apply Z.ltb_ge in E, Hz. apply Z.ltb_ge. lia.
Qed.

Lemma plain_contract (pid : Z) : SortSliceContract (Sample.plain pid).
Proof.
  split; simpl; unfold Sample.insertion_sort; intros l.
  - induction l as [|x l IH]; simpl; [constructor|].
    rewrite <- insert_perm. now apply perm_skip.
  - induction l as [|x l IH]; simpl; [constructor|]. now apply insert_sorted.
Qed.

(** *** The claims on extraction *)

(** C6: a response definition without content-type mapping yields exactly
    one response, with the query [?key=<code>] and neither headers, file
    path nor body; it is among the responses extracted for its operation;
    the layout step leaves it as it is and writes no file for it. *)
Theorem C6_no_content `{RT : GoRuntime}
    (schemaExamples : list (gostring * gostring))
    (key : gostring) (item : openapi3.ResponseRef) (value : openapi3.Response) (code : Z) :
  openapi3.ResponseRef_Value item = Some value ->
  openapi3.Content_ value = None ->
  Atoi key = Some code ->
  let r := bare_response (openapi3.Description value) code in
  responseResponses schemaExamples (key, item) = Ok [r]
  /\ Response.Query r = str "?key=" ++ Itoa code
  /\ Response.Body r = None
  /\ Response.FilePath r = None
  /\ (forall operation responses,
        In (key, item) (openapi3.Responses operation) ->
        extractResponse operation schemaExamples = Ok responses ->
        In r responses)
  /\ (forall m request fs,
        SaveSetting_response m request r fs = Ok (r, fs)
        /\ planned_response m request r = r
        /\ planned_writes_responses (MockServerSetting.Folder m) request [r] = []).
Proof.
  intros Hv Hc Hk r.
  assert (Hr : responseResponses schemaExamples (key, item) = Ok [r]).
  { unfold responseResponses. rewrite Hv. simpl. rewrite Hk, Hc. reflexivity. }
  repeat split; auto.
  intros operation responses Hin He.
  unfold extractResponse in He.
  apply extractResponse_loop_Ok in He as (outs & HF & ->). simpl.
  clear - HF Hin Hr. induction HF as [|e o es os He HF IH]; [destruct Hin|].
  simpl. apply in_or_app. destruct Hin as [->|Hin].
  - left. rewrite Hr in He. injection He as <-. now left.
  - right. auto.
Qed.

(** The test is on the content map being nil: a response whose content
    map is there but empty yields no response at all. *)
Lemma responseResponses_empty_content `{RT : GoRuntime}
    (schemaExamples : list (gostring * gostring))
    (key : gostring) (item : openapi3.ResponseRef) (value : openapi3.Response) (code : Z) :
  openapi3.ResponseRef_Value item = Some value ->
  openapi3.Content_ value = Some [] ->
  Atoi key = Some code ->
  responseResponses schemaExamples (key, item) = Ok [].
Proof.
  intros Hv Hc Hk. unfold responseResponses. rewrite Hv. simpl. now rewrite Hk, Hc.
Qed.

Lemma C6_no_content_witness :
  let item := Doc.response "Not Found" None in
  let r := bare_response (Some (str "Not Found")) 404 in
  responseResponses (RT := Sample.go 4242) [] (str "404", item) = Ok [r]
  /\ Response.Query r = str "?key=404"
  /\ Response.Body r = None
  /\ Response.FilePath r = None.
Proof.
  intros item r.
  destruct (@C6_no_content (Sample.go 4242) [] (str "404") item
              {| openapi3.Description := Some (str "Not Found");
                 openapi3.Content_ := None |} 404
              eq_refl eq_refl eq_refl) as (H1 & H2 & H3 & H4 & _).
  repeat split; assumption.
Defined.

Lemma getRequests_Stop `{RT : GoRuntime} openAPISpec path pathItem method operation :
  In (path, pathItem) (openapi3.Paths openAPISpec) ->
  In (method, operation) (openapi3.Operations pathItem) ->
  (forall schemaExamples, exists err, extractResponse operation schemaExamples = Stop err) ->
  exists err, getRequests openAPISpec = Stop err.
Proof.
  intros Hp Ho He. unfold getRequests.
  destruct (match openapi3.Components_ openAPISpec with
            | Some components => getRequests_schemas (openapi3.Schemas components) []
            | None => Ok []
            end) as [schemaExamples|err]; simpl; [|eauto].
  destruct (He schemaExamples) as [err Herr].
  eapply getRequests_paths_Stop; eauto.
Qed.

Lemma export_Stop `{RT : GoRuntime} openAPISpec openApiFile targetFolder fs err :
  getRequests openAPISpec = Stop err ->
  exportOpenAPIToMockServer openAPISpec openApiFile targetFolder fs = Stop err.
Proof.
  intros H. unfold exportOpenAPIToMockServer, ConvertOpenAPIToMockServer.
  rewrite H. reflexivity.
Qed.

(** C9: an operation with a response entry whose status-code key does
    not parse as an integer makes extraction stop without a result, with
    the fatal message of [log.Fatalf] when the entries have their
    definitions; so do [getRequests] and the whole run, which stops before
    anything is laid out. *)
Theorem C9_non_numeric_key_aborts `{RT : GoRuntime}
    (openAPISpec : openapi3.T) (path : gostring) (pathItem : openapi3.PathItem)
    (method : gostring) (operation : openapi3.Operation)
    (key : gostring) (item : openapi3.ResponseRef) :
  In (path, pathItem) (openapi3.Paths openAPISpec) ->
  In (method, operation) (openapi3.Operations pathItem) ->
  In (key, item) (openapi3.Responses operation) ->
  Atoi key = None ->
  (forall schemaExamples,
     exists err,
       extractResponse operation schemaExamples = Stop err
       /\ (Forall has_definition (openapi3.Responses operation) ->
           err = Fatal "Failed to convert response code to integer"))
  /\ (exists err,
        getRequests openAPISpec = Stop err
        /\ forall openApiFile targetFolder fs,
             exportOpenAPIToMockServer openAPISpec openApiFile targetFolder fs = Stop err).
Proof.
  intros Hp Ho Hk Ha.
  assert (Hstop : forall schemaExamples,
             exists err, responseResponses schemaExamples (key, item) = Stop err).
  { intros schemaExamples.
    destruct (openapi3.ResponseRef_Value item) as [value|] eqn:Ev.
    - rewrite (responseResponses_not_numeric schemaExamples key item Ev Ha). eauto.
    - rewrite (responseResponses_absent schemaExamples key item Ev). eauto. }
  assert (Hex : forall schemaExamples,
             exists err,
               extractResponse operation schemaExamples = Stop err
               /\ (Forall has_definition (openapi3.Responses operation) ->
                   err = Fatal "Failed to convert response code to integer")).
  { intros schemaExamples. destruct (Hstop schemaExamples) as [err0 Herr0].
    destruct (@extractResponse_loop_Stop RT schemaExamples (openapi3.Responses operation)
                [] (key, item) err0 Hk Herr0) as [err Herr].
    exists err. split; [exact Herr|].
    intros Hdef.
    apply (@extractResponse_loop_Stop_kind RT schemaExamples
             (fun x => x = Fatal "Failed to convert response code to integer")
             (openapi3.Responses operation) [] err Herr).
    eapply Forall_impl; [|exact Hdef].
    intros [k i] Hd x Hx. unfold has_definition in Hd. simpl in Hd.
    unfold responseResponses in Hx.
    destruct (openapi3.ResponseRef_Value i) as [v|]; [|congruence]. simpl in Hx.
    destruct (Atoi k); [|congruence].
    destruct (openapi3.Content_ v); discriminate. }
  split; [exact Hex|].
  destruct (@getRequests_Stop RT openAPISpec path pathItem method operation Hp Ho) as [err Herr].
  { intros schemaExamples. destruct (Hex schemaExamples) as (e & He & _). eauto. }
  exists err. split; [exact Herr|].
  intros. now apply export_Stop.
Qed.

Lemma C9_non_numeric_key_aborts_witness :
  Atoi (str "default") = None
  /\ getRequests (RT := Sample.go 4242) Doc.withDefault
     = Stop (Fatal "Failed to convert response code to integer")
  /\ exists err,
       getRequests (RT := Sample.go 4242) Doc.withDefault = Stop err
       /\ forall openApiFile targetFolder fs,
            exportOpenAPIToMockServer (RT := Sample.go 4242) Doc.withDefault
              openApiFile targetFolder fs = Stop err.
Proof.
  split; [reflexivity|]. split; [reflexivity|].
  refine (proj2 (@C9_non_numeric_key_aborts (Sample.go 4242) Doc.withDefault
            (str "/pets") _ (str "GET") _ (str "default") (Doc.response "Error" None)
            _ _ _ eq_refl)).
  - left. reflexivity.
  - left. reflexivity.
  - right. left. reflexivity.
Defined.

(** C10: extraction returns a list when every status-code entry has its
    response definition and a numeric key, and only then; an entry whose
    definition is absent stops it, by the nil dereference of the
    description read when the keys are numeric: the nil test further down
    comes too late. *)
Theorem C10_absent_definition `{RT : GoRuntime}
    (operation : openapi3.Operation) (schemaExamples : list (gostring * gostring)) :
  (Forall has_definition (openapi3.Responses operation) ->
   Forall has_numeric_key (openapi3.Responses operation) ->
   exists responses, extractResponse operation schemaExamples = Ok responses)
  /\ (forall responses,
        extractResponse operation schemaExamples = Ok responses ->
        Forall has_definition (openapi3.Responses operation))
  /\ (forall key item,
        In (key, item) (openapi3.Responses operation) ->
        openapi3.ResponseRef_Value item = None ->
        exists err,
          extractResponse operation schemaExamples = Stop err
          /\ (Forall has_numeric_key (openapi3.Responses operation) ->
              err = NilDereference)).
Proof.
  split; [apply extractResponse_total|]. split.
  - intros responses H. unfold extractResponse in H.
    apply extractResponse_loop_Ok in H as (outs & HF & _).
    induction HF as [|e o es os He HF IH]; constructor; [|exact IH].
    now apply responseResponses_Ok_inv in He.
  - intros key item Hin Hv.
    destruct (@extractResponse_loop_Stop RT schemaExamples (openapi3.Responses operation)
                [] (key, item) NilDereference Hin
                (responseResponses_absent schemaExamples key item Hv)) as [err Herr].
    exists err. split; [exact Herr|].
    intros Hnum.
    apply (@extractResponse_loop_Stop_kind RT schemaExamples (fun x => x = NilDereference)
             (openapi3.Responses operation) [] err Herr).
    eapply Forall_impl; [|exact Hnum].
    intros [k i] Hn x Hx. unfold has_numeric_key in Hn. simpl in Hn.
    unfold responseResponses in Hx.
    destruct (openapi3.ResponseRef_Value i) as [v|]; simpl in Hx; [|congruence].
    destruct (Atoi k); [|congruence].
    destruct (openapi3.Content_ v); discriminate.
Qed.

Lemma C10_absent_definition_witness :
  extractResponse (RT := Sample.go 4242) Doc.unresolved [] = Stop NilDereference
  /\ exists err,
       extractResponse (RT := Sample.go 4242) Doc.unresolved [] = Stop err
       /\ (Forall has_numeric_key (openapi3.Responses Doc.unresolved) ->
           err = NilDereference).
Proof.
  split; [reflexivity|].
  refine (proj2 (proj2 (@C10_absent_definition (Sample.go 4242) Doc.unresolved []))
            (str "200") {| openapi3.ResponseRef_Value := None |} _ eq_refl).
  left. reflexivity.
Defined.

(* ================================================================== *)
(** ** The library's sort on short slices *)

Section InsertionSort.

Variable A : Type.
Variable less : A -> A -> bool.

Local Open Scope nat_scope.









End InsertionSort.








(** *** The claim on the order of the responses *)

(** The model of the library's sort on two slices longer than the
    insertion-sort threshold: fifteen and sixty status codes come out in
    non-decreasing order. *)
Lemma GoSort_Slice_samples :
  GoSort.Slice Z.ltb [500; 404; 200; 201; 404; 200; 301; 500; 204; 200; 403; 401; 400; 302; 200]
  = [200; 200; 200; 200; 201; 204; 301; 302; 400; 401; 403; 404; 404; 500; 500]
  /\ GoSort.Slice Z.ltb (map (fun n => Z.of_nat ((n * 37 + 11) mod 60)) (seq 0 60))
     = map Z.of_nat (seq 0 60).
Proof. split; vm_compute; reflexivity. Qed.




(* ================================================================== *)
(** ** The layout *)

Section LayoutFacts.

Context `{RT : GoRuntime}.

Lemma SaveSetting_response_plan m request response fs response' fs' :
  SaveSetting_response m request response fs = Ok (response', fs') ->
  response' = planned_response m request response
  /\ files fs'
     = rev (planned_writes_responses (MockServerSetting.Folder m) request [response])
         ++ files fs.
Proof.
  unfold SaveSetting_response, planned_response, planned_writes_responses. simpl.
  destruct (Response.Body response) as [body|]; simpl.
  - destruct (fs_exists fs _).
    + simpl. unfold os_WriteFile.
      destruct (os_allows fs _); [|discriminate].
      intros [= <- <-]. split; reflexivity.
    + unfold os_MkdirAll. destruct (os_allows fs _); simpl; [|discriminate].
      unfold os_WriteFile. destruct (os_allows _ _); [|discriminate].
      intros [= <- <-]. split; reflexivity.
  - intros [= <- <-]. split; reflexivity.
Qed.

Lemma SaveSetting_responses_plan m request responses fs responses' fs' :
  SaveSetting_responses m request responses fs = Ok (responses', fs') ->
  responses' = map (planned_response m request) responses
  /\ files fs'
     = rev (planned_writes_responses (MockServerSetting.Folder m) request responses)
         ++ files fs.
Proof.
  revert fs responses' fs'; induction responses as [|r responses IH];
    intros fs responses' fs'; simpl.
  - intros [= <- <-]. split; reflexivity.
  - destruct (SaveSetting_response m request r fs) as [[r1 fs1]|] eqn:E1;
      simpl; [|discriminate].
    destruct (SaveSetting_responses m request responses fs1) as [[rs2 fs2]|] eqn:E2;
      simpl; [|discriminate].
    intros [= <- <-].
    apply SaveSetting_response_plan in E1 as [-> F1].
    apply IH in E2 as [-> F2].
    split; [reflexivity|].
    rewrite F2, F1. unfold planned_writes_responses. simpl.
    rewrite app_nil_r, rev_app_distr, app_assoc. reflexivity.
Qed.

Lemma SaveSetting_requests_plan m requests fs requests' fs' :
  SaveSetting_requests m requests fs = Ok (requests', fs') ->
  requests' = map (planned_request m) requests
  /\ files fs' = rev (planned_writes (MockServerSetting.Folder m) requests) ++ files fs.
Proof.
  revert fs requests' fs'; induction requests as [|r requests IH];
    intros fs requests' fs'; simpl.
  - intros [= <- <-]. split; reflexivity.
  - destruct (SaveSetting_responses m r (Request.Responses r) fs) as [[rs1 fs1]|] eqn:E1;
      simpl; [|discriminate].
    destruct (SaveSetting_requests m requests fs1) as [[rs2 fs2]|] eqn:E2;
      simpl; [|discriminate].
    intros [= <- <-].
    apply SaveSetting_responses_plan in E1 as [-> F1].
    apply IH in E2 as [-> F2].
    split; [reflexivity|].
    rewrite F2, F1, rev_app_distr, app_assoc. reflexivity.
Qed.

(** With an operating system that lets every call through, the loops of
    [SaveSetting] run to their end. *)
Lemma SaveSetting_requests_total m requests fs :
  permissive RT -> exists requests' fs', SaveSetting_requests m requests fs = Ok (requests', fs').
Proof.
  intros HP. revert fs; induction requests as [|r requests IH]; intros fs; simpl; [eauto|].
  assert (H : exists rs1 fs1,
             SaveSetting_responses m r (Request.Responses r) fs = Ok (rs1, fs1)).
  { generalize (Request.Responses r) as rs. clear IH. intros rs. revert fs.
    induction rs as [|x rs IHr]; intros fs; simpl; [eauto|].
    assert (H : exists x1 fs1, SaveSetting_response m r x fs = Ok (x1, fs1)).
    { unfold SaveSetting_response, os_MkdirAll, os_WriteFile.
      destruct (Response.Body x); [|eauto].
      destruct (fs_exists fs _); simpl; rewrite ?HP; simpl; rewrite ?HP; eauto. }
    destruct H as (x1 & fs1 & ->). simpl.
    destruct (IHr fs1) as (rs2 & fs2 & ->). simpl. eauto. }
  destruct H as (rs1 & fs1 & ->). simpl.
  destruct (IH fs1) as (rs2 & fs2 & ->). simpl. eauto.
Qed.

(** Reading a path gives what was written to it last. *)
Lemma map_lookup_app_absent {V} (m1 m2 : list (gostring * V)) (k : gostring) :
  (forall p c, In (p, c) m1 -> p <> k) ->
  map_lookup (m1 ++ m2) k = map_lookup m2 k.
Proof.
  induction m1 as [|[p c] m1 IH]; intros H; simpl; [reflexivity|].
  destruct (gostring_eqb p k) eqn:E.
  - apply gostring_eqb_eq in E. exfalso. apply (H p c); [now left|exact E].
  - apply IH. intros p' c' Hin. apply (H p' c'). now right.
Qed.

Lemma read_last_write (before after old : list (gostring * gostring)) path body :
  (forall p c, In (p, c) after -> p <> path) ->
  map_lookup (rev (before ++ (path, body) :: after) ++ old) path = Some body.
Proof.
  intros H. rewrite rev_app_distr. simpl. rewrite <- !app_assoc.
  rewrite map_lookup_app_absent.
  - simpl. now rewrite gostring_eqb_refl.
  - intros p c Hin. apply in_rev in Hin. eauto.
Qed.

Lemma planned_writes_In Folder requests request response body :
  In request requests ->
  In response (Request.Responses request) ->
  Response.Body response = Some body ->
  In (fileFullPath Folder request response, body) (planned_writes Folder requests).
Proof.
  intros H1 H2 H3. unfold planned_writes. apply in_flat_map.
  exists request. split; [exact H1|].
  unfold planned_writes_responses. apply in_flat_map.
  exists response. split; [exact H2|]. rewrite H3. now left.
Qed.

End LayoutFacts.

(** *** The claim on the round trip *)

(** C5, as stated, fails: the two inline examples of one response get the
    same file, and reading the path assigned to the first one gives the
    body of the second. *)
Lemma C5_overwritten :
  exists m0 m fs request ra rb m' fs',
    ConvertOpenAPIToMockServer (RT := Sample.go 4242) Doc.twoExamples = Ok m0
    /\ CreateFolder (RT := Sample.go 4242) m0 (str "out") Sample.emptyFS = Ok (m, fs)
    /\ MockServerSetting.Requests m = [request]
    /\ Request.Responses request = [ra; rb]
    /\ Response.Body ra = Some (str "A")
    /\ SaveSetting (RT := Sample.go 4242) m fs = Ok (m', fs')
    /\ fileFullPath (MockServerSetting.Folder m) request ra = str "out/data/Pet_Store/GET/listPets/200/OK.json"
    /\ os_ReadFile (RT := Sample.go 4242) fs'
         (fileFullPath (MockServerSetting.Folder m) request ra) = Some (str "B").
Proof.
  do 8 eexists.
  split; [vm_compute; reflexivity|].
  split; [vm_compute; reflexivity|].
  split; [vm_compute; reflexivity|].
  split; [vm_compute; reflexivity|].
  split; [vm_compute; reflexivity|].
  split; [vm_compute; reflexivity|].
  split; vm_compute; reflexivity.
Qed.

(** The same happens when the paths of two responses differ as texts
    and name one file: for the operation ids [a] and [a/] the bodies go to
    [.../GET/a/200/OK.json] and [.../GET/a//200/OK.json], and reading the
    first path gives the body written to the second. *)
Lemma C5_same_file_overwritten :
  let d := Doc.document "T"
             [Doc.get "/a" (Doc.operation "a"
                [(str "200", Doc.response "OK" (Some [Doc.json [Doc.example "x" "A"]]))]);
              Doc.get "/b" (Doc.operation "a/"
                [(str "200", Doc.response "OK" (Some [Doc.json [Doc.example "y" "B"]]))])] in
  exists m fs,
    exportOpenAPIToMockServer (RT := Sample.go 4242) d (str "api.yaml") (str "out")
      Sample.emptyFS = Ok (m, fs)
    /\ planned_writes (str "out/data/T") (MockServerSetting.Requests m)
       = [(str "out/data/T/GET/a/200/OK.json", str "A");
          (str "out/data/T/GET/a//200/OK.json", str "B")]
    /\ os_ReadFile (RT := Sample.go 4242) fs (str "out/data/T/GET/a/200/OK.json")
       = Some (str "B").
Proof.
  intros d. do 2 eexists.
  split; [vm_compute; reflexivity|].
  split; vm_compute; reflexivity.
Qed.

(** C5, amended: the layout step gives every response that has a body its
    relative path and writes the body, byte for byte, to its full path, in
    the order of the walk; reading a path back after the step gives the
    body written last to the file the path names, so a response reads its
    own body back when no later response with a body has a full path that
    the operating system resolves to the same file. *)
Theorem C5_body_files `{RT : GoRuntime}
    (m : MockServerSetting.t) (fs : FS) (m' : MockServerSetting.t) (fs' : FS) :
  SaveSetting m fs = Ok (m', fs') ->
  MockServerSetting.Requests m' = map (planned_request m) (MockServerSetting.Requests m)
  /\ (forall request response body,
        In request (MockServerSetting.Requests m) ->
        In response (Request.Responses request) ->
        Response.Body response = Some body ->
        Response.FilePath (planned_response m request response)
        = Some (fileRelativePath (MockServerSetting.Name m) request response)
        /\ In (fileFullPath (MockServerSetting.Folder m) request response, body)
             (planned_writes (MockServerSetting.Folder m) (MockServerSetting.Requests m)))
  /\ (exists text, files fs' = (settingFilePath m, text) :: rev (planned_writes (MockServerSetting.Folder m) (MockServerSetting.Requests m))
              ++ files fs)
  /\ (forall before path body after,
        planned_writes (MockServerSetting.Folder m) (MockServerSetting.Requests m)
        = before ++ (path, body) :: after ->
        (forall p c, In (p, c) after -> os_resolve p <> os_resolve path) ->
        os_resolve path <> os_resolve (settingFilePath m) ->
        os_ReadFile fs' path = Some body).
Proof.
  unfold SaveSetting. intros H.
  set (writes := planned_writes (MockServerSetting.Folder m) (MockServerSetting.Requests m)).
  destruct (SaveSetting_requests m (MockServerSetting.Requests m) fs)
    as [[requests fs1]|] eqn:E; simpl in H; [|discriminate].
  apply SaveSetting_requests_plan in E as [-> F].
  destruct (negb (os_allows fs1 _)); [discriminate|].
  destruct (yaml_Encode _) as [text|]; [|discriminate].
  injection H as <- <-. simpl.
  split; [reflexivity|]. split; [|split].
  - intros request response body H1 H2 H3. split.
    + unfold planned_response. rewrite H3. reflexivity.
    + now apply planned_writes_In.
  - exists text. unfold settingFilePath. simpl. now rewrite F.
  - intros before path body after Hw Hafter Hne.
    unfold os_ReadFile, by_file. cbn [files map fst snd map_lookup].
    destruct (gostring_eqb _ (os_resolve path)) eqn:Ep.
    + apply gostring_eqb_eq in Ep. exfalso. apply Hne. symmetry. exact Ep.
    + rewrite F. fold writes. rewrite Hw.
      rewrite map_app, map_rev, map_app. cbn [map fst snd].
      apply read_last_write.
      intros p c Hin. apply in_map_iff in Hin as ([p0 c0] & [= <- <-] & Hin).
      exact (Hafter p0 c0 Hin).
Qed.

Lemma C5_body_files_witness :
  exists m0 m fs m' fs',
    ConvertOpenAPIToMockServer (RT := Sample.go 4242) Doc.petStore = Ok m0
    /\ CreateFolder (RT := Sample.go 4242) m0 (str "out") Sample.emptyFS = Ok (m, fs)
    /\ SaveSetting (RT := Sample.go 4242) m fs = Ok (m', fs')
    /\ os_ReadFile (RT := Sample.go 4242) fs'
         (str "out/data/Pet_Store/GET/listPets/200/OK.json")
       = Some (str "hello").
Proof.
  do 5 eexists.
  split; [vm_compute; reflexivity|].
  split; [vm_compute; reflexivity|].
  match goal with
  | |- ?S = Ok (?m', ?fs') /\ _ =>
      assert (H : S = Ok (m', fs')) by (vm_compute; reflexivity)
  end.
  split; [exact H|].
  apply (proj2 (proj2 (proj2 (@C5_body_files (Sample.go 4242) _ _ _ _ H))) [] _ _ []).
  - vm_compute. reflexivity.
  - intros p c [].
  - vm_compute. discriminate.
Defined.

(* ================================================================== *)
(** ** Schema examples *)

Lemma OrderedMap_Set_new (om : OrderedMap.t) (key : gostring) (value : option any) :
  ~ In key (OrderedMap.keys om) -> OrderedMap.Set_ om key value = om ++ [(key, value)].
Proof.
  induction om as [|[k v] om IH]; simpl; intros H; [reflexivity|].
  destruct (gostring_eqb k key) eqn:E.
  - apply gostring_eqb_eq in E. tauto.
  - rewrite IH by tauto. reflexivity.
Qed.

(** The ordered map receives the eligible properties in the order in
    which the [range] over [schema.Properties] visits them. *)
Lemma extractSchemaExample_props_order `{RT : GoRuntime}
    (props : list (gostring * openapi3.SchemaRef)) (om : OrderedMap.t) :
  NoDup (OrderedMap.keys om ++ map fst props) ->
  Forall resolved props ->
  extractSchemaExample_props props om = Ok (om ++ map example_of (filter eligible props)).
Proof.
  revert om; induction props as [|[propName propSchema] props IH]; intros om Hnd Hres.
  - simpl. now rewrite app_nil_r.
  - inversion Hres as [|? ? Hr Hres']; subst.
    unfold resolved in Hr. cbn [snd] in Hr.
    cbn [extractSchemaExample_props filter].
    unfold eligible at 1. cbn [snd].
    destruct (openapi3.Value propSchema) as [childSchema|] eqn:Ev; [|congruence].
    cbn [deref bind].
    cbn [map fst] in Hnd.
    destruct (openapi3.Is (openapi3.Type_ childSchema) (str "string")
              || openapi3.Is (openapi3.Type_ childSchema) (str "integer")).
    + rewrite OrderedMap_Set_new.
      * rewrite IH; [| |exact Hres'].
        -- cbn [map]. unfold example_of at 2. cbn [fst snd]. rewrite Ev.
           now rewrite <- app_assoc.
        -- replace (OrderedMap.keys (om ++ [(propName, openapi3.Example childSchema)]))
             with (OrderedMap.keys om ++ [propName])
             by (unfold OrderedMap.keys; now rewrite map_app).
           rewrite <- app_assoc. exact Hnd.
      * intros Hin. apply NoDup_remove_2 in Hnd. apply Hnd.
        apply in_or_app. now left.
    + apply IH; [|exact Hres'].
      apply NoDup_remove_1 in Hnd. exact Hnd.
Qed.

(** *** The claim on the order of the property names *)

(** C2 on the code: the example lists the eligible properties in the
    order in which the run's [range] over the property map visits them. A
    run that visits [id], [name], [meta] gives [id] then [name]; a run that
    visits [name] first gives [name] then [id], for the same schema. *)
Theorem C2_order_follows_range :
  let q := Sample.json_string in
  extractSchemaExample (RT := Sample.go 4242) (Some (Doc.pet [Doc.id_; Doc.name_; Doc.meta_]))
  = Ok (str "{" ++ [LF]
        ++ str "  " ++ q (str "id") ++ str ": 1," ++ [LF]
        ++ str "  " ++ q (str "name") ++ str ": " ++ q (str "a") ++ [LF]
        ++ str "}")
  /\ extractSchemaExample (RT := Sample.go 4242) (Some (Doc.pet [Doc.name_; Doc.id_; Doc.meta_]))
     = Ok (str "{" ++ [LF]
           ++ str "  " ++ q (str "name") ++ str ": " ++ q (str "a") ++ str "," ++ [LF]
           ++ str "  " ++ q (str "id") ++ str ": 1" ++ [LF]
           ++ str "}")
  /\ Permutation [Doc.id_; Doc.name_; Doc.meta_] [Doc.name_; Doc.id_; Doc.meta_].
Proof.
  intros q.
  split; [vm_compute; reflexivity|].
  split; [vm_compute; reflexivity|].
  apply perm_swap.
Qed.

(* ================================================================== *)
(** ** Two runs on one document *)

(** *** Lists up to order *)

Lemma Forall2_Permutation_l {A B} (P : A -> B -> Prop) (l l' : list A) (o : list B) :
  Forall2 P l o -> Permutation l l' ->
  exists o', Permutation o o' /\ Forall2 P l' o'.
Proof.
  intros HF HP. revert o HF.
  induction HP as [|x l l' HP IH|x y l|l l' l'' HP1 IH1 HP2 IH2]; intros o HF.
  - inversion HF; subst. exists []. split; constructor.
  - inversion HF as [|? b ? o1 Hx HF1]; subst.
    destruct (IH o1 HF1) as (o' & Hp & Hf).
    exists (b :: o'). split; [now apply perm_skip|now constructor].
  - inversion HF as [|? b1 ? o1 Hy HF1]; subst.
    inversion HF1 as [|? b2 ? o2 Hx HF2]; subst.
    exists (b2 :: b1 :: o2). split; [apply perm_swap|].
    constructor; [exact Hx|]. constructor; [exact Hy|exact HF2].
  - destruct (IH1 o HF) as (o1 & Hp1 & Hf1).
    destruct (IH2 o1 Hf1) as (o2 & Hp2 & Hf2).
    exists o2. split; [now transitivity o1|exact Hf2].
Qed.

Lemma Permutation_concat_lists {B} (l l' : list (list B)) :
  Permutation l l' -> Permutation (List.concat l) (List.concat l').
Proof.
  induction 1 as [|x l l' HP IH|x y l|l l' l'' HP1 IH1 HP2 IH2]; simpl.
  - constructor.
  - now apply Permutation_app_head.
  - rewrite !app_assoc. apply Permutation_app_tail. apply Permutation_app_comm.
  - now transitivity (List.concat l').
Qed.

Section UpToOrder.

Context {A B : Type}.

Variable R : B -> B -> Prop.

Lemma up_to_order_nil : up_to_order R [] [].
Proof. exists []. split; constructor. Qed.

Lemma up_to_order_app (a1 a2 b1 b2 : list B) :
  up_to_order R a1 a2 -> up_to_order R b1 b2 -> up_to_order R (a1 ++ b1) (a2 ++ b2).
Proof.
  intros (a & Ha & Fa) (b & Hb & Fb). exists (a ++ b). split.
  - now apply Permutation_app.
  - now apply Forall2_app.
Qed.

Lemma up_to_order_Permutation_l (l1 l1' l2 : list B) :
  Permutation l1 l1' -> up_to_order R l1' l2 -> up_to_order R l1 l2.
Proof.
  intros HP (l & Hl & Fl). exists l. split; [now transitivity l1'|exact Fl].
Qed.

Lemma up_to_order_of_Permutation (l1 l2 : list B) :
  (forall b, R b b) -> Permutation l1 l2 -> up_to_order R l1 l2.
Proof.
  intros Hrefl HP. exists l2. split; [exact HP|].
  clear HP. induction l2; constructor; auto.
Qed.

(** Walking two enumerations of one map, with step functions that give
    related lists on related entries, gives related lists. *)
Lemma walk_up_to_order (E : A -> A -> Prop) (f1 f2 : A -> Result (list B)) :
  (forall a a' o o', E a a' -> f1 a = Ok o -> f2 a' = Ok o' -> up_to_order R o o') ->
  forall l1 l2 outs1 outs2,
    up_to_order E l1 l2 ->
    Forall2 (fun a o => f1 a = Ok o) l1 outs1 ->
    Forall2 (fun a o => f2 a = Ok o) l2 outs2 ->
    up_to_order R (List.concat outs1) (List.concat outs2).
Proof.
  intros Hstep l1 l2 outs1 outs2 (l & Hl & Fl) H1 H2.
  destruct (Forall2_Permutation_l H1 Hl) as (outs1' & Hp & H1').
  apply up_to_order_Permutation_l with (List.concat outs1');
    [now apply Permutation_concat_lists|].
  clear l1 outs1 Hl H1 Hp.
  revert outs1' outs2 H1' H2.
  induction Fl as [|a a' l l2 Ha Fl IH]; intros outs1' outs2 H1' H2.
  - inversion H1'; inversion H2; subst. apply up_to_order_nil.
  - inversion H1' as [|? o ? os Ho H1'']; subst.
    inversion H2 as [|? o' ? os' Ho' H2'']; subst.
    simpl. apply up_to_order_app; [eapply Hstep; eauto|now apply IH].
Qed.

End UpToOrder.

Lemma up_to_order_map {A B} (f : A -> B) (l1 l2 : list A) :
  up_to_order (fun a b => f a = f b) l1 l2 <-> Permutation (map f l1) (map f l2).
Proof.
  split.
  - intros (l & Hl & Fl).
    transitivity (map f l); [now apply Permutation_map|].
    replace (map f l) with (map f l2); [reflexivity|].
    clear Hl. induction Fl as [|a b l l2 Hab Fl IH]; simpl; [reflexivity|].
    now rewrite Hab, IH.
  - intros HP. apply Permutation_sym in HP.
    apply Permutation_map_inv in HP as (l & Heq & Hl).
    exists l. split; [exact Hl|].
    clear Hl. revert l2 Heq. induction l as [|a l IH]; intros [|b l2] Heq;
      simpl in Heq; try discriminate; constructor.
    + congruence.
    + apply IH. congruence.
Qed.

(** *** Looking keys up in a map with one entry for a key *)

Lemma map_lookup_In {V} (m : list (gostring * V)) (k : gostring) (v : V) :
  unique_keys m -> In (k, v) m -> map_lookup m k = Some v.
Proof.
  unfold unique_keys. induction m as [|[k' v'] m IH]; simpl; intros Hnd Hin; [destruct Hin|].
  inversion Hnd as [|? ? Hk Hnd']; subst.
  destruct Hin as [[= -> ->]|Hin].
  - now rewrite gostring_eqb_refl.
  - destruct (gostring_eqb k' k) eqn:E.
    + apply gostring_eqb_eq in E. subst k'. exfalso. apply Hk.
      apply in_map_iff. exists (k, v). split; [reflexivity|exact Hin].
    + now apply IH.
Qed.

Lemma flat_map_lookup {V B} (m : list (gostring * V)) (g : gostring -> option V -> list B) :
  unique_keys m ->
  flat_map (fun k => g k (map_lookup m k)) (map fst m)
  = flat_map (fun e => g (fst e) (Some (snd e))) m.
Proof.
  intros Hnd. rewrite !flat_map_concat_map, map_map. f_equal.
  apply map_ext_in. intros [k v] Hin. simpl.
  now rewrite (@map_lookup_In _ m k v Hnd Hin).
Qed.

Lemma same_entries_unique_keys {V} (R : V -> V -> Prop) (m1 m2 : list (gostring * V)) :
  same_entries R m1 m2 -> unique_keys m1 -> unique_keys m2.
Proof.
  unfold unique_keys. intros (m & Hm & Fm) Hnd.
  assert (E : map fst m = map fst m2).
  { clear Hm. induction Fm as [|e1 e2 ? ? [He _] ? IH]; simpl; congruence. }
  rewrite <- E. eapply Permutation_NoDup; [|exact Hnd]. now apply Permutation_map.
Qed.

Lemma up_to_order_Forall_l {A} (E : A -> A -> Prop) (P : A -> Prop) (l1 l2 : list A) :
  up_to_order E l1 l2 -> Forall P l1 -> up_to_order (fun a b => E a b /\ P a) l1 l2.
Proof.
  intros (l & Hl & Fl) HP. exists l. split; [exact Hl|].
  assert (HPl : Forall P l).
  { rewrite Forall_forall in *. intros x Hx. apply HP.
    eapply Permutation_in; [symmetry; exact Hl|exact Hx]. }
  clear Hl HP. induction Fl as [|a b l l2 Hab Fl IH]; constructor.
  - split; [exact Hab|]. now inversion HPl.
  - apply IH. now inversion HPl.
Qed.

Lemma Forall2_map_Ok {A B} (h : A -> B) (l : list A) :
  Forall2 (fun a o => @Ok B (h a) = Ok o) l (map h l).
Proof. induction l; simpl; constructor; auto. Qed.

Lemma same_outline_refl (r : Response.t) : same_outline r r.
Proof. reflexivity. Qed.

(** *** Extraction in two runs *)

Section TwoRuns.

Variables RT1 RT2 : GoRuntime.
Hypothesis json : same_json RT1 RT2.

Variables t1 t2 : list (gostring * gostring).
Hypothesis tables : tables_agree t1 t2.

Lemma getBodyString_same (e : option openapi3.ExampleRef) :
  getBodyString (RT := RT1) e = getBodyString (RT := RT2) e.
Proof.
  unfold getBodyString.
  destruct e as [[[[[[s|n|b|x]|]]|]]|]; simpl; try reflexivity; now rewrite json.
Qed.

Lemma exampleResponse_same description code response contentType headers e :
  exampleResponse (RT := RT1) description code response contentType headers e
  = exampleResponse (RT := RT2) description code response contentType headers e.
Proof.
  unfold exampleResponse. destruct e as [name e]. now rewrite getBodyString_same.
Qed.

Lemma mediaTypeResponses_same description code response contentType c1 c2 :
  same_MediaType c1 c2 ->
  up_to_order same_outline
    (mediaTypeResponses (RT := RT1) t1 description code response contentType c1)
    (mediaTypeResponses (RT := RT2) t2 description code response contentType c2).
Proof.
  intros [Hs He]. unfold mediaTypeResponses. rewrite <- Hs.
  destruct (openapi3.Examples c1) as [|e1 es1] eqn:E1;
    destruct (openapi3.Examples c2) as [|e2 es2] eqn:E2.
  - destruct (openapi3.Schema_ c1) as [ref|];
      [|apply up_to_order_of_Permutation; [apply same_outline_refl|reflexivity]].
    destruct (openapi3.Ref ref) as [|c r] eqn:Er;
      [apply up_to_order_of_Permutation; [apply same_outline_refl|reflexivity]|].
    pose proof (tables (c :: r)) as Ht. unfold has_text in Ht.
    exists [ match map_lookup t1 (c :: r) with
             | Some ((_ :: _) as bodyStr) =>
                 {| Response.Name := cleanFolderName description;
                    Response.Code := code;
                    Response.Query := str "?key=" ++ response ++ str "&contentType=" ++ contentType;
                    Response.Headers :=
                      Some [ {| Header.Name := str "Content-Type"; Header.Value := contentType |} ];
                    Response.FilePath := None;
                    Response.Body := Some bodyStr |}
             | _ =>
                 {| Response.Name := cleanFolderName description;
                    Response.Code := code;
                    Response.Query := str "?key=" ++ response ++ str "&contentType=" ++ contentType;
                    Response.Headers :=
                      Some [ {| Header.Name := str "Content-Type"; Header.Value := contentType |} ];
                    Response.FilePath := None;
                    Response.Body := None |}
             end ].
    destruct (map_lookup t1 (c :: r)) as [[|x1 b1]|];
      destruct (map_lookup t2 (c :: r)) as [[|x2 b2]|]; try discriminate Ht;
      (split; [reflexivity|constructor; [reflexivity|constructor]]).
  - apply Permutation_nil in He. discriminate.
  - apply Permutation_sym, Permutation_nil in He. discriminate.
  - apply up_to_order_of_Permutation; [apply same_outline_refl|].
    rewrite (map_ext _ _ (exampleResponse_same description code response contentType _)).
    now apply Permutation_map.
Qed.

Lemma entryResponses_same description code response k oc1 oc2 :
  option_rel same_MediaType oc1 oc2 ->
  up_to_order same_outline
    (entryResponses (RT := RT1) t1 description code response k (Some oc1))
    (entryResponses (RT := RT2) t2 description code response k (Some oc2)).
Proof.
  destruct oc1 as [c1|], oc2 as [c2|]; simpl; intros H; try contradiction.
  - now apply mediaTypeResponses_same.
  - apply up_to_order_nil.
Qed.

Lemma contentResponses_walk description code response (c1 c2 : openapi3.Content) :
  same_entries (option_rel same_MediaType) c1 c2 ->
  unique_keys c1 ->
  up_to_order same_outline
    (flat_map (contentResponses (RT := RT1) t1 description code response c1) (map fst c1))
    (flat_map (contentResponses (RT := RT2) t2 description code response c2) (map fst c2)).
Proof.
  intros Hc Hu1.
  pose proof (same_entries_unique_keys Hc Hu1) as Hu2.
  change (contentResponses (RT := RT1) t1 description code response c1)
    with (fun k => entryResponses (RT := RT1) t1 description code response k (map_lookup c1 k)).
  change (contentResponses (RT := RT2) t2 description code response c2)
    with (fun k => entryResponses (RT := RT2) t2 description code response k (map_lookup c2 k)).
  rewrite (flat_map_lookup (entryResponses (RT := RT1) t1 description code response) Hu1).
  rewrite (flat_map_lookup (entryResponses (RT := RT2) t2 description code response) Hu2).
  rewrite !flat_map_concat_map.
  eapply walk_up_to_order with
    (f1 := fun e => Ok (entryResponses (RT := RT1) t1 description code response
                          (fst e) (Some (snd e))))
    (f2 := fun e => Ok (entryResponses (RT := RT2) t2 description code response
                          (fst e) (Some (snd e))));
    [|exact Hc|apply Forall2_map_Ok|apply Forall2_map_Ok].
  intros [k1 oc1] [k2 oc2] o o' [Hk Hoc] [= <-] [= <-]. simpl in *. subst k2.
  now apply entryResponses_same.
Qed.

Lemma responseResponses_same (e1 e2 : gostring * openapi3.ResponseRef) o1 o2 :
  fst e1 = fst e2 ->
  same_ResponseRef (snd e1) (snd e2) ->
  (forall value content,
     openapi3.ResponseRef_Value (snd e1) = Some value ->
     openapi3.Content_ value = Some content -> unique_keys content) ->
  responseResponses (RT := RT1) t1 e1 = Ok o1 ->
  responseResponses (RT := RT2) t2 e2 = Ok o2 ->
  up_to_order same_outline o1 o2.
Proof.
  destruct e1 as [k i1], e2 as [k2 i2]. simpl. intros <- Hsame Hu.
  unfold same_ResponseRef in Hsame. unfold responseResponses.
  destruct (openapi3.ResponseRef_Value i1) as [v1|];
    destruct (openapi3.ResponseRef_Value i2) as [v2|]; simpl; try discriminate;
    try contradiction.
  destruct Hsame as [Hd Hc]. rewrite <- Hd.
  destruct (Atoi k) as [code|]; [|discriminate].
  destruct (openapi3.Content_ v1) as [c1|] eqn:E1;
    destruct (openapi3.Content_ v2) as [c2|]; simpl in Hc; try contradiction.
  - intros [= <-] [= <-]. apply contentResponses_walk; [exact Hc|].
    eapply Hu; eauto.
  - intros [= <-] [= <-].
    apply up_to_order_of_Permutation; [apply same_outline_refl|reflexivity].
Qed.

Lemma extractResponse_same (op1 op2 : openapi3.Operation) p1 p2 :
  same_Operation op1 op2 ->
  unique_content_keys op1 ->
  extractResponse (RT := RT1) op1 t1 = Ok p1 ->
  extractResponse (RT := RT2) op2 t2 = Ok p2 ->
  up_to_order same_outline p1 p2.
Proof.
  intros [_ Hr] Hu H1 H2. unfold extractResponse in *.
  apply extractResponse_loop_Ok in H1 as (outs1 & F1 & ->).
  apply extractResponse_loop_Ok in H2 as (outs2 & F2 & ->). simpl.
  assert (HP : Forall (fun e => forall value content,
                         openapi3.ResponseRef_Value (snd e) = Some value ->
                         openapi3.Content_ value = Some content -> unique_keys content)
                 (openapi3.Responses op1)).
  { apply Forall_forall. intros [k i] Hin value content Hv Hc.
    eapply Hu; eauto. }
  pose proof (up_to_order_Forall_l Hr HP) as Hr'.
  eapply walk_up_to_order with
    (f1 := responseResponses (RT := RT1) t1) (f2 := responseResponses (RT := RT2) t2);
    [|exact Hr'|exact F1|exact F2].
  intros a a' o o' [[Hk Hs] Hu'] Ho Ho'.
  eapply responseResponses_same; eauto.
Qed.

End TwoRuns.

(** *** The walks of [getRequests], entry by entry *)

Section Walks.

Context `{RT : GoRuntime}.

Lemma getRequests_operations_walk schemaExamples path ops acc requests :
  getRequests_operations schemaExamples path ops acc = Ok requests <->
  exists outs,
    Forall2 (fun o out => operationRequests schemaExamples path o = Ok out) ops outs
    /\ requests = acc ++ List.concat outs.
Proof.
  revert acc requests; induction ops as [|[method operation] ops IH]; intros acc requests.
  - simpl. split.
    + intros [= <-]. exists []. split; [constructor|]. simpl. now rewrite app_nil_r.
    + intros (outs & HF & ->). inversion HF; subst. simpl. now rewrite app_nil_r.
  - cbn [getRequests_operations]. unfold operationRequests at 1. cbn [fst snd].
    destruct (extractResponse operation schemaExamples) as [produced|err] eqn:E;
      cbn [bind].
    + rewrite IH. split.
      * intros (outs & HF & ->). eexists (_ :: outs). split.
        -- constructor; [|exact HF]. unfold operationRequests. cbn [fst snd].
           rewrite E. reflexivity.
        -- simpl. now rewrite <- app_assoc.
      * intros (outs & HF & ->). inversion HF as [|? out ? outs' Ho HF']; subst.
        unfold operationRequests in Ho. cbn [fst snd] in Ho. rewrite E in Ho.
        cbn [bind] in Ho. injection Ho as <-.
        exists outs'. split; [exact HF'|]. simpl. now rewrite <- app_assoc.
    + split; [discriminate|].
      intros (outs & HF & _). inversion HF as [|? out ? outs' Ho HF']; subst.
      unfold operationRequests in Ho. cbn [fst snd] in Ho. rewrite E in Ho.
      discriminate Ho.
Qed.

Lemma getRequests_paths_walk schemaExamples paths acc requests :
  getRequests_paths schemaExamples paths acc = Ok requests <->
  exists blocks,
    Forall2 (fun p block => pathRequests schemaExamples p = Ok block) paths blocks
    /\ requests = acc ++ List.concat blocks.
Proof.
  revert acc requests; induction paths as [|[path pathItem] paths IH]; intros acc requests.
  - simpl. split.
    + intros [= <-]. exists []. split; [constructor|]. simpl. now rewrite app_nil_r.
    + intros (blocks & HF & ->). inversion HF; subst. simpl. now rewrite app_nil_r.
  - cbn [getRequests_paths].
    destruct (getRequests_operations schemaExamples path (openapi3.Operations pathItem) acc)
      as [requests1|err] eqn:E; cbn [bind].
    + apply getRequests_operations_walk in E as (outs & HF1 & ->).
      assert (Hb : pathRequests schemaExamples (path, pathItem) = Ok (List.concat outs)).
      { unfold pathRequests. cbn [fst snd]. apply getRequests_operations_walk.
        exists outs. split; [exact HF1|reflexivity]. }
      rewrite IH. split.
      * intros (blocks & HF & ->). exists (List.concat outs :: blocks). split.
        -- constructor; [exact Hb|exact HF].
        -- simpl. now rewrite <- app_assoc.
      * intros (blocks & HF & ->). inversion HF as [|? b ? blocks' Hb' HF']; subst.
        rewrite Hb in Hb'. injection Hb' as <-.
        exists blocks'. split; [exact HF'|]. simpl. now rewrite <- app_assoc.
    + split; [discriminate|].
      intros (blocks & HF & _). inversion HF as [|? b ? blocks' Hb' HF']; subst.
      unfold pathRequests in Hb'. cbn [fst snd] in Hb'.
      apply getRequests_operations_walk in Hb' as (outs & HF1 & _).
      assert (E' : getRequests_operations schemaExamples path
                     (openapi3.Operations pathItem) acc = Ok (acc ++ List.concat outs)).
      { apply getRequests_operations_walk. exists outs. split; [exact HF1|reflexivity]. }
      congruence.
Qed.

End Walks.

Lemma sorted_by_Code_sort `{RT : GoRuntime} (contract : SortSliceContract RT)
    (l : list Response.t) : sorted_by_Code (sort_Slice less_Code l).
Proof. apply sorted_by_Code_of_less, sort_Slice_sorted. Qed.

Section TwoRunsRequests.

Variables RT1 RT2 : GoRuntime.
Hypothesis contract1 : SortSliceContract RT1.
Hypothesis contract2 : SortSliceContract RT2.
Hypothesis json : same_json RT1 RT2.

Variables t1 t2 : list (gostring * gostring).
Hypothesis tables : tables_agree t1 t2.

Lemma operationRequests_same path (o1 o2 : gostring * openapi3.Operation) out1 out2 :
  fst o1 = fst o2 ->
  same_Operation (snd o1) (snd o2) ->
  unique_content_keys (snd o1) ->
  operationRequests (RT := RT1) t1 path o1 = Ok out1 ->
  operationRequests (RT := RT2) t2 path o2 = Ok out2 ->
  up_to_order same_extracted out1 out2.
Proof.
  destruct o1 as [method op1], o2 as [method2 op2]. cbn [fst snd].
  intros <- Hs Hu. unfold operationRequests. cbn [fst snd].
  destruct (extractResponse (RT := RT1) op1 t1) as [p1|] eqn:E1; [|discriminate].
  destruct (extractResponse (RT := RT2) op2 t2) as [p2|] eqn:E2; [|discriminate].
  cbn [bind]. intros [= <-] [= <-].
  pose proof (extractResponse_same json tables Hs Hu E1 E2) as Hp.
  eexists. split; [reflexivity|]. constructor; [|constructor].
  unfold same_extracted. cbn.
  split; [apply Hs|]. split; [reflexivity|]. split; [reflexivity|].
  split; [now apply sorted_by_Code_sort|]. split; [now apply sorted_by_Code_sort|].
  apply up_to_order_map. apply up_to_order_map in Hp.
  transitivity (map outline p1);
    [apply Permutation_map; symmetry; apply sort_Slice_perm|].
  transitivity (map outline p2); [exact Hp|].
  apply Permutation_map. apply sort_Slice_perm.
Qed.

Lemma pathRequests_same (p1 p2 : gostring * openapi3.PathItem) b1 b2 :
  fst p1 = fst p2 ->
  same_PathItem (snd p1) (snd p2) ->
  (forall method operation,
     In (method, operation) (openapi3.Operations (snd p1)) -> unique_content_keys operation) ->
  pathRequests (RT := RT1) t1 p1 = Ok b1 ->
  pathRequests (RT := RT2) t2 p2 = Ok b2 ->
  up_to_order same_extracted b1 b2.
Proof.
  destruct p1 as [path pi1], p2 as [path2 pi2]. cbn [fst snd].
  intros <- Hs Hu. unfold pathRequests. cbn [fst snd]. intros H1 H2.
  apply getRequests_operations_walk in H1 as (outs1 & F1 & ->).
  apply getRequests_operations_walk in H2 as (outs2 & F2 & ->). simpl.
  assert (HP : Forall (fun o => unique_content_keys (snd o)) (openapi3.Operations pi1)).
  { apply Forall_forall. intros [m o] Hin. eapply Hu; eauto. }
  pose proof (up_to_order_Forall_l Hs HP) as Hs'.
  eapply walk_up_to_order with
    (f1 := operationRequests (RT := RT1) t1 path)
    (f2 := operationRequests (RT := RT2) t2 path);
    [|exact Hs'|exact F1|exact F2].
  intros a a' o o' [[Hk Ho] Hu'] Ha Ha'.
  eapply operationRequests_same; eauto.
Qed.

Lemma getRequests_paths_same (paths1 paths2 : list (gostring * openapi3.PathItem)) rs1 rs2 :
  same_entries same_PathItem paths1 paths2 ->
  (forall path pathItem method operation,
     In (path, pathItem) paths1 ->
     In (method, operation) (openapi3.Operations pathItem) -> unique_content_keys operation) ->
  getRequests_paths (RT := RT1) t1 paths1 [] = Ok rs1 ->
  getRequests_paths (RT := RT2) t2 paths2 [] = Ok rs2 ->
  up_to_order same_extracted rs1 rs2.
Proof.
  intros Hs Hu H1 H2.
  apply getRequests_paths_walk in H1 as (blocks1 & F1 & ->).
  apply getRequests_paths_walk in H2 as (blocks2 & F2 & ->). simpl.
  assert (HP : Forall (fun p => forall method operation,
                         In (method, operation) (openapi3.Operations (snd p)) ->
                         unique_content_keys operation) paths1).
  { apply Forall_forall. intros [path pi] Hin method operation Hop. eapply Hu; eauto. }
  pose proof (up_to_order_Forall_l Hs HP) as Hs'.
  eapply walk_up_to_order with
    (f1 := pathRequests (RT := RT1) t1) (f2 := pathRequests (RT := RT2) t2);
    [|exact Hs'|exact F1|exact F2].
  intros a a' o o' [[Hk Ho] Hu'] Ha Ha'.
  eapply pathRequests_same; eauto.
Qed.

End TwoRunsRequests.

(** *** The table of schema examples in two runs *)

Lemma map_lookup_store {V} (m : list (gostring * V)) (k k' : gostring) (v : V) :
  map_lookup (map_store m k v) k'
  = if gostring_eqb k k' then Some v else map_lookup m k'.
Proof.
  induction m as [|[k0 v0] m IH]; simpl.
  - reflexivity.
  - destruct (gostring_eqb k0 k) eqn:E0; simpl.
    + apply gostring_eqb_eq in E0. subst k0.
      destruct (gostring_eqb k k'); reflexivity.
    + rewrite IH. destruct (gostring_eqb k k') eqn:E1; [|reflexivity].
      apply gostring_eqb_eq in E1. subst k'. now rewrite E0.
Qed.

Section SchemaTable.

Context `{RT : GoRuntime}.

Lemma getRequests_schemas_lookup schemas t0 t :
  getRequests_schemas schemas t0 = Ok t ->
  unique_keys schemas ->
  (forall name ref,
     In (name, ref) schemas ->
     exists text,
       extractSchemaExample (openapi3.Value ref) = Ok text
       /\ map_lookup t (schemaFullName name) = Some text)
  /\ (forall k,
        ~ In k (map (fun e => schemaFullName (fst e)) schemas) ->
        map_lookup t k = map_lookup t0 k).
Proof.
  unfold unique_keys.
  revert t0 t; induction schemas as [|[name0 ref0] schemas IH]; intros t0 t H Hnd.
  - simpl in H. injection H as <-. split; [intros ? ? []|reflexivity].
  - cbn [getRequests_schemas] in H.
    destruct (extractSchemaExample (openapi3.Value ref0)) as [text0|] eqn:E;
      cbn [bind] in H; [|discriminate].
    cbn [map fst] in Hnd. inversion Hnd as [|? ? Hn0 Hnd']; subst.
    destruct (IH _ _ H Hnd') as [IH1 IH2].
    assert (Hfresh : ~ In (schemaFullName name0)
                       (map (fun e => schemaFullName (fst e)) schemas)).
    { intros Hin. apply in_map_iff in Hin as ([n r] & Heq & Hin).
      unfold schemaFullName in Heq. apply app_inv_head in Heq. simpl in Heq. subst n.
      apply Hn0. apply in_map_iff. exists (name0, r). split; [reflexivity|exact Hin]. }
    split.
    + intros name ref [[= -> ->]|Hin].
      * exists text0. split; [exact E|].
        rewrite (IH2 _ Hfresh). fold (schemaFullName name).
        rewrite map_lookup_store. now rewrite gostring_eqb_refl.
      * now apply IH1.
    + intros k Hk. cbn [map fst] in Hk.
      rewrite IH2 by (intros Hin; apply Hk; now right).
      fold (schemaFullName name0). rewrite map_lookup_store.
      destruct (gostring_eqb (schemaFullName name0) k) eqn:Ek; [|reflexivity].
      apply gostring_eqb_eq in Ek. exfalso. apply Hk. now left.
Qed.

Lemma extractSchemaExample_props_resolved props om om' :
  extractSchemaExample_props props om = Ok om' -> Forall resolved props.
Proof.
  revert om; induction props as [|[propName propSchema] props IH]; intros om H;
    [constructor|].
  cbn [extractSchemaExample_props] in H.
  destruct (openapi3.Value propSchema) as [childSchema|] eqn:Ev; cbn [deref bind] in H;
    [|discriminate].
  constructor.
  - unfold resolved. cbn [snd]. congruence.
  - eapply IH; eauto.
Qed.

Lemma members_None (om : OrderedMap.t) :
  OrderedMap.members om = None <-> Exists unmarshallable om.
Proof.
  induction om as [|[k v] om IH]; cbn [OrderedMap.members].
  - split; [discriminate|]. intros H. inversion H.
  - unfold unmarshallable at 1. split.
    + intros H.
      destruct (json_MarshalIndent 1 (Some (VString k))) eqn:Ek;
        [|left; now left].
      destruct (json_MarshalIndent 1 v) eqn:Ev; [|left; now right].
      destruct (OrderedMap.members om); [discriminate|].
      right. now apply IH.
    + intros H. inversion H as [? ? [Hk|Hv]|? ? Hom]; subst; cbn [fst snd] in *.
      * now rewrite Hk.
      * destruct (json_MarshalIndent 1 (Some (VString k))); [|reflexivity].
        now rewrite Hv.
      * apply IH in Hom. rewrite Hom.
        destruct (json_MarshalIndent 1 (Some (VString k))); [|reflexivity].
        destruct (json_MarshalIndent 1 v); reflexivity.
Qed.

(** The synthesized text is empty exactly when marshalling failed. *)
Lemma MarshalIndent_text (om : OrderedMap.t) :
  match OrderedMap.MarshalIndent om with
  | Some text => text <> [] /\ ~ Exists unmarshallable om
  | None => Exists unmarshallable om
  end.
Proof.
  unfold OrderedMap.MarshalIndent.
  destruct (OrderedMap.members om) as [ms|] eqn:E.
  - assert (Hn : ~ Exists unmarshallable om).
    { intros H. apply members_None in H. congruence. }
    destruct ms; (split; [discriminate|exact Hn]).
  - now apply members_None.
Qed.

Lemma marshalled_text (om : OrderedMap.t) (x : gostring) :
  match OrderedMap.MarshalIndent om with
  | None => Ok []
  | Some finalData => Ok finalData
  end = Ok x ->
  x = match OrderedMap.MarshalIndent om with Some d => d | None => [] end.
Proof. destruct (OrderedMap.MarshalIndent om); now intros [= <-]. Qed.

End SchemaTable.

Lemma same_SchemaRef_entry (e1 e2 : gostring * openapi3.SchemaRef) :
  fst e1 = fst e2 -> same_SchemaRef (snd e1) (snd e2) ->
  eligible e1 = eligible e2 /\ example_of e1 = example_of e2.
Proof.
  destruct e1 as [k r1], e2 as [k2 r2]. cbn [fst snd]. intros <- H.
  unfold eligible, example_of. cbn [fst snd].
  inversion H as [r|r s1 s2 Hs]; subst; cbn [openapi3.Value]; [split; reflexivity|].
  inversion Hs; subst. split; reflexivity.
Qed.

Lemma Permutation_filter_keep {A} (p : A -> bool) (l l' : list A) :
  Permutation l l' -> Permutation (filter p l) (filter p l').
Proof.
  induction 1 as [|x l l' HP IH|x y l|l l' l'' HP1 IH1 HP2 IH2]; simpl.
  - constructor.
  - destruct (p x); [now apply perm_skip|exact IH].
  - destruct (p x), (p y); try reflexivity. apply perm_swap.
  - now transitivity (filter p l').
Qed.

Lemma eligible_examples_same (p1 p2 : list (gostring * openapi3.SchemaRef)) :
  same_entries same_SchemaRef p1 p2 ->
  Permutation (map example_of (filter eligible p1)) (map example_of (filter eligible p2)).
Proof.
  intros (m & Hm & Fm).
  transitivity (map example_of (filter eligible m)).
  - apply Permutation_map. now apply Permutation_filter_keep.
  - replace (map example_of (filter eligible m)) with (map example_of (filter eligible p2));
      [reflexivity|].
    clear Hm. induction Fm as [|e1 e2 l l2 [Hk Hs] Fm IH]; [reflexivity|].
    destruct (same_SchemaRef_entry e1 e2 Hk Hs) as [He Hx].
    cbn [filter]. rewrite <- He. destruct (eligible e1); cbn [map]; [now rewrite IH, Hx|exact IH].
Qed.

Lemma unmarshallable_same (RT1 RT2 : GoRuntime) (e : gostring * option any) :
  same_json RT1 RT2 ->
  unmarshallable (RT := RT1) e <-> unmarshallable (RT := RT2) e.
Proof. intros json. unfold unmarshallable. now rewrite !json. Qed.

Lemma Exists_Permutation {A} (P : A -> Prop) (l l' : list A) :
  Permutation l l' -> Exists P l -> Exists P l'.
Proof.
  intros HP H. apply Exists_exists in H as (x & Hx & Px).
  apply Exists_exists. exists x. split; [|exact Px].
  eapply Permutation_in; eauto.
Qed.

(** The synthesized texts of one schema in two runs are empty together. *)
Lemma extractSchemaExample_same (RT1 RT2 : GoRuntime) (r1 r2 : openapi3.SchemaRef) x1 x2 :
  same_json RT1 RT2 ->
  same_SchemaRef r1 r2 ->
  (forall schema, openapi3.Value r1 = Some schema ->
                  unique_keys (openapi3.Properties schema)) ->
  extractSchemaExample (RT := RT1) (openapi3.Value r1) = Ok x1 ->
  extractSchemaExample (RT := RT2) (openapi3.Value r2) = Ok x2 ->
  (x1 = [] <-> x2 = []).
Proof.
  intros json Hs Hu H1 H2.
  inversion Hs as [r|r s1 s2 Hss]; subst; cbn [openapi3.Value] in *; [discriminate|].
  inversion Hss as [t e p1 p2 Hp]; subst.
  specialize (Hu _ eq_refl). cbn [openapi3.Properties] in Hu.
  pose proof (same_entries_unique_keys Hp Hu) as Hu2.
  unfold extractSchemaExample in H1, H2.
  cbn [deref bind openapi3.Type_ openapi3.Properties] in H1, H2.
  assert (Hom : exists om1 om2,
             Permutation om1 om2
             /\ x1 = match OrderedMap.MarshalIndent (RT := RT1) om1 with
                     | Some d => d | None => [] end
             /\ x2 = match OrderedMap.MarshalIndent (RT := RT2) om2 with
                     | Some d => d | None => [] end).
  { destruct (openapi3.Is t (str "object")).
    - destruct (extractSchemaExample_props p1 OrderedMap.NewOrderedMap) as [om1|] eqn:E1;
        cbn [bind] in H1; [|discriminate].
      destruct (extractSchemaExample_props p2 OrderedMap.NewOrderedMap) as [om2|] eqn:E2;
        cbn [bind] in H2; [|discriminate].
      exists om1, om2.
      pose proof (extractSchemaExample_props_resolved _ _ E1) as R1.
      pose proof (extractSchemaExample_props_resolved _ _ E2) as R2.
      unfold OrderedMap.NewOrderedMap in E1, E2.
      rewrite (@extractSchemaExample_props_order RT1 p1 [] Hu R1) in E1.
      rewrite (@extractSchemaExample_props_order RT2 p2 [] Hu2 R2) in E2.
      injection E1 as <-. injection E2 as <-.
      split; [now apply eligible_examples_same|].
      split; now apply marshalled_text.
    - cbn [bind] in H1, H2. exists [], []. split; [constructor|].
      split; now apply marshalled_text. }
  destruct Hom as (om1 & om2 & Hperm & -> & ->).
  pose proof (MarshalIndent_text (RT := RT1) om1) as M1.
  pose proof (MarshalIndent_text (RT := RT2) om2) as M2.
  assert (Hex : Exists (unmarshallable (RT := RT1)) om1
                <-> Exists (unmarshallable (RT := RT2)) om2).
  { split; intros H.
    - apply (Exists_Permutation Hperm) in H.
      eapply Exists_impl; [|exact H]. intros a. now apply unmarshallable_same.
    - apply (Exists_Permutation (Permutation_sym Hperm)).
      eapply Exists_impl; [|exact H]. intros a. now apply unmarshallable_same. }
  destruct (OrderedMap.MarshalIndent (RT := RT1) om1) as [d1|];
    destruct (OrderedMap.MarshalIndent (RT := RT2) om2) as [d2|].
  - destruct M1 as [N1 _], M2 as [N2 _]. split; intros; contradiction.
  - destruct M1 as [_ N1]. exfalso. apply N1. now apply Hex.
  - destruct M2 as [_ N2]. exfalso. apply N2. now apply Hex.
  - split; reflexivity.
Qed.

Lemma up_to_order_In {A} (E : A -> A -> Prop) (l1 l2 : list A) (a : A) :
  up_to_order E l1 l2 -> In a l1 -> exists b, In b l2 /\ E a b.
Proof.
  intros (l & Hl & Fl) Hin.
  assert (Hin' : In a l) by (eapply Permutation_in; eauto).
  clear Hl Hin. induction Fl as [|x y l l2 Hxy Fl IH]; [destruct Hin'|].
  destruct Hin' as [->|Hin'].
  - exists y. split; [now left|exact Hxy].
  - destruct (IH Hin') as (b & Hb & Eb). exists b. split; [now right|exact Eb].
Qed.

Lemma up_to_order_In_r {A} (E : A -> A -> Prop) (l1 l2 : list A) (b : A) :
  up_to_order E l1 l2 -> In b l2 -> exists a, In a l1 /\ E a b.
Proof.
  intros (l & Hl & Fl) Hin.
  assert (H : exists a, In a l /\ E a b).
  { clear Hl. induction Fl as [|x y l l2 Hxy Fl IH]; [destruct Hin|].
    destruct Hin as [->|Hin].
    - exists x. split; [now left|exact Hxy].
    - destruct (IH Hin) as (a & Ha & Ea). exists a. split; [now right|exact Ea]. }
  destruct H as (a & Ha & Ea). exists a. split; [|exact Ea].
  eapply Permutation_in; [symmetry; exact Hl|exact Ha].
Qed.

(** The tables of schema examples of two runs have a text for the same
    references. *)
Lemma getRequests_schemas_agree (RT1 RT2 : GoRuntime)
    (schemas1 schemas2 : list (gostring * openapi3.SchemaRef)) t1 t2 :
  same_json RT1 RT2 ->
  same_entries same_SchemaRef schemas1 schemas2 ->
  unique_schema_keys {| openapi3.Schemas := schemas1 |} ->
  getRequests_schemas (RT := RT1) schemas1 [] = Ok t1 ->
  getRequests_schemas (RT := RT2) schemas2 [] = Ok t2 ->
  tables_agree t1 t2.
Proof.
  intros json Hs [Hu Hup] H1 H2. cbn [openapi3.Schemas] in Hu, Hup.
  pose proof (same_entries_unique_keys Hs Hu) as Hu2.
  destruct (@getRequests_schemas_lookup RT1 schemas1 [] t1 H1 Hu) as [L1 N1].
  destruct (@getRequests_schemas_lookup RT2 schemas2 [] t2 H2 Hu2) as [L2 N2].
  intros k. unfold has_text.
  destruct (in_dec (list_eq_dec ascii_dec) k
              (map (fun e => schemaFullName (fst e)) schemas1)) as [Hin|Hnin].
  - apply in_map_iff in Hin as ([name r1] & <- & Hin). cbn [fst].
    destruct (@up_to_order_In _ _ _ _ _ Hs Hin) as ([name2 r2] & Hin2 & Hk & Hr).
    cbn [fst snd] in Hk, Hr. subst name2.
    destruct (L1 _ _ Hin) as (x1 & E1 & ->).
    destruct (L2 _ _ Hin2) as (x2 & E2 & ->).
    assert (Hx : x1 = [] <-> x2 = []).
    { exact (@extractSchemaExample_same RT1 RT2 r1 r2 x1 x2 json Hr
               (fun schema Hv => Hup name r1 schema Hin Hv) E1 E2). }
    destruct x1, x2; try reflexivity.
    + destruct Hx as [Hx _]. specialize (Hx eq_refl). discriminate.
    + destruct Hx as [_ Hx]. specialize (Hx eq_refl). discriminate.
  - assert (Hnin2 : ~ In k (map (fun e => schemaFullName (fst e)) schemas2)).
    { intros Hin. apply in_map_iff in Hin as ([name r2] & <- & Hin). cbn [fst] in *.
      destruct (@up_to_order_In_r _ _ _ _ _ Hs Hin) as ([name1 r1] & Hin1 & Hk & _).
      cbn [fst] in Hk. subst name1.
      apply Hnin. apply in_map_iff. exists (name, r1). split; [reflexivity|exact Hin1]. }
    rewrite (N1 _ Hnin), (N2 _ Hnin2). reflexivity.
Qed.

Lemma tables_agree_refl (t : list (gostring * gostring)) : tables_agree t t.
Proof. intros k. reflexivity. Qed.

(** The request lists of two runs are the same up to order. *)
Lemma getRequests_same (RT1 RT2 : GoRuntime)
    (contract1 : SortSliceContract RT1) (contract2 : SortSliceContract RT2)
    (d1 d2 : openapi3.T) rs1 rs2 :
  same_json RT1 RT2 ->
  same_document d1 d2 ->
  well_formed d1 ->
  getRequests (RT := RT1) d1 = Ok rs1 ->
  getRequests (RT := RT2) d2 = Ok rs2 ->
  up_to_order same_extracted rs1 rs2.
Proof.
  intros json (Hi & Hc & Hp) [Wc Wp]. unfold getRequests.
  destruct (openapi3.Components_ d1) as [c1|] eqn:C1;
    destruct (openapi3.Components_ d2) as [c2|] eqn:C2; cbn in Hc; try contradiction.
  - destruct (getRequests_schemas (RT := RT1) (openapi3.Schemas c1) []) as [t1|] eqn:T1;
      cbn [bind]; [|discriminate].
    destruct (getRequests_schemas (RT := RT2) (openapi3.Schemas c2) []) as [t2|] eqn:T2;
      cbn [bind]; [|discriminate].
    intros H1 H2.
    assert (Ht : tables_agree t1 t2).
    { specialize (Wc c1 eq_refl). destruct c1 as [s1].
      exact (@getRequests_schemas_agree RT1 RT2 s1 (openapi3.Schemas c2) t1 t2
               json Hc Wc T1 T2). }
    exact (@getRequests_paths_same RT1 RT2 contract1 contract2 json t1 t2 Ht
             (openapi3.Paths d1) (openapi3.Paths d2) rs1 rs2 Hp Wp H1 H2).
  - cbn [bind]. intros H1 H2.
    exact (@getRequests_paths_same RT1 RT2 contract1 contract2 json [] []
             (tables_agree_refl []) (openapi3.Paths d1) (openapi3.Paths d2) rs1 rs2
             Hp Wp H1 H2).
Qed.

(** *** From the request lists to the settings *)

Lemma fileRelativePath_same Name (req1 req2 : Request.t) (r : Response.t) :
  Request.Name req1 = Request.Name req2 ->
  Request.Method req1 = Request.Method req2 ->
  fileRelativePath Name req1 r = fileRelativePath Name req2 r.
Proof.
  intros Hn Hm. unfold fileRelativePath, folderRelativePath. now rewrite Hn, Hm.
Qed.

Lemma persisted_planned (m1 m2 : MockServerSetting.t) (req1 req2 : Request.t)
    (r1 r2 : Response.t) :
  MockServerSetting.Name m1 = MockServerSetting.Name m2 ->
  Request.Name req1 = Request.Name req2 ->
  Request.Method req1 = Request.Method req2 ->
  outline r1 = outline r2 ->
  persisted (planned_response m1 req1 r1) = persisted (planned_response m2 req2 r2).
Proof.
  intros Hm Hn Hme Ho. unfold outline in Ho.
  injection Ho as Hname Hcode Hquery Hheaders Hpath Hbody.
  unfold planned_response.
  rewrite (fileRelativePath_same _ req1 req2 r1 Hn Hme), Hm.
  unfold fileRelativePath, folderRelativePath, persisted, with_FilePath.
  destruct (Response.Body r1), (Response.Body r2); try discriminate; cbn;
    now rewrite Hname, Hcode, Hquery, Hheaders, ?Hpath.
Qed.

Lemma sorted_by_Code_planned (m : MockServerSetting.t) (req : Request.t)
    (rs : list Response.t) :
  sorted_by_Code rs -> sorted_by_Code (map (planned_response m req) rs).
Proof.
  assert (Hc : forall r, Response.Code (planned_response m req r) = Response.Code r).
  { intros r. unfold planned_response. destruct (Response.Body r); reflexivity. }
  unfold sorted_by_Code. induction 1 as [|a l Hs IH Ha]; simpl; constructor; [exact IH|].
  apply Forall_map. eapply Forall_impl; [|exact Ha].
  intros b Hb. now rewrite !Hc.
Qed.

Lemma planned_request_same (m1 m2 : MockServerSetting.t) (req1 req2 : Request.t) :
  MockServerSetting.Name m1 = MockServerSetting.Name m2 ->
  same_extracted req1 req2 ->
  same_Request (planned_request m1 req1) (planned_request m2 req2).
Proof.
  intros Hm (Hn & Hme & Hp & S1 & S2 & Hr).
  unfold same_Request, planned_request.
  cbn [Request.Name Request.Method Request.Path Request.Responses].
  split; [exact Hn|]. split; [exact Hme|]. split; [exact Hp|].
  split; [now apply sorted_by_Code_planned|].
  split; [now apply sorted_by_Code_planned|].
  destruct Hr as (l & Hl & Fl).
  rewrite !map_map.
  transitivity (map (fun r => persisted (planned_response m1 req1 r)) l);
    [now apply Permutation_map|].
  replace (map (fun r => persisted (planned_response m1 req1 r)) l)
    with (map (fun r => persisted (planned_response m2 req2 r)) (Request.Responses req2));
    [reflexivity|].
  clear Hl S1 S2. induction Fl as [|a b l l2 Hab Fl IH]; [reflexivity|].
  cbn [map]. rewrite IH. f_equal. symmetry. now apply persisted_planned.
Qed.

Lemma planned_requests_same (m1 m2 : MockServerSetting.t) (rs1 rs2 : list Request.t) :
  MockServerSetting.Name m1 = MockServerSetting.Name m2 ->
  up_to_order same_extracted rs1 rs2 ->
  up_to_order same_Request (map (planned_request m1) rs1) (map (planned_request m2) rs2).
Proof.
  intros Hm (l & Hl & Fl). exists (map (planned_request m1) l). split.
  - now apply Permutation_map.
  - clear Hl. induction Fl as [|a b l l2 Hab Fl IH]; simpl; constructor; [|exact IH].
    now apply planned_request_same.
Qed.

(** What a run that ends well has gone through. *)
Lemma export_Ok `{RT : GoRuntime} openAPISpec openApiFile targetFolder fs m' fs' :
  exportOpenAPIToMockServer openAPISpec openApiFile targetFolder fs = Ok (m', fs') ->
  exists requests info m,
    getRequests openAPISpec = Ok requests
    /\ openapi3.Info_ openAPISpec = Some info
    /\ MockServerSetting.Name m = openapi3.Title info
    /\ MockServerSetting.Requests m = requests
    /\ MockServerSetting.Name m' = openapi3.Title info
    /\ MockServerSetting.Description m' = openapi3.Info_Description info
    /\ MockServerSetting.Host m' = str "0.0.0.0"
    /\ MockServerSetting.Port m' = randomPort
    /\ MockServerSetting.SwaggerEnabled m' = true
    /\ MockServerSetting.Headers m' = Some []
    /\ MockServerSetting.Requests m' = map (planned_request m) requests.
Proof.
  unfold exportOpenAPIToMockServer, ConvertOpenAPIToMockServer.
  destruct (getRequests openAPISpec) as [requests|]; cbn [bind]; [|discriminate].
  destruct (openapi3.Info_ openAPISpec) as [info|]; cbn [deref bind]; [|discriminate].
  unfold CreateFolder. cbn [MockServerSetting.Name MockServerSetting.Description
    MockServerSetting.Host MockServerSetting.Port MockServerSetting.SwaggerEnabled
    MockServerSetting.Headers MockServerSetting.Requests MockServerSetting.Schemas].
  match goal with
  | |- context [if fs_exists fs ?f then Ok (?x, fs) else _] => set (m := x)
  end.
  destruct (if fs_exists fs _ then _ else _) as [[m0 fs0]|] eqn:Ecf; cbn [bind];
    [|discriminate].
  assert (Hm0 : m0 = m).
  { destruct (fs_exists fs _); [congruence|].
    destruct (os_Mkdir fs _); [congruence|discriminate]. }
  subst m0.
  destruct (SaveSetting m fs0) as [[m1 fs1]|] eqn:Es; cbn [bind]; [|discriminate].
  destruct (CopyOpenAPIFile m1 openApiFile fs1) as [fs2|]; cbn [bind]; [|discriminate].
  intros [= <- <-].
  unfold SaveSetting in Es.
  destruct (SaveSetting_requests m (MockServerSetting.Requests m) fs0)
    as [[requests' fs3]|] eqn:Er; cbn [bind] in Es; [|discriminate].
  apply SaveSetting_requests_plan in Er as [-> _].
  destruct (negb (os_allows fs3 _)); [discriminate|].
  destruct (yaml_Encode _); [|discriminate].
  injection Es as <- _.
  exists requests, info, m. subst m. cbn. repeat split; reflexivity.
Qed.

(** *** Two runs that visit the maps in the same order *)

Section SameOrder.

Variables RT1 RT2 : GoRuntime.
Hypothesis json : same_json RT1 RT2.
Hypothesis sort : same_sort RT1 RT2.

Lemma mediaTypeResponses_eq t description code response contentType content :
  mediaTypeResponses (RT := RT1) t description code response contentType content
  = mediaTypeResponses (RT := RT2) t description code response contentType content.
Proof.
  unfold mediaTypeResponses.
  destruct (openapi3.Examples content); [reflexivity|].
  apply map_ext. intros e. now apply exampleResponse_same.
Qed.

Lemma responseResponses_eq t entry :
  responseResponses (RT := RT1) t entry = responseResponses (RT := RT2) t entry.
Proof.
  unfold responseResponses. destruct entry as [response responseItem].
  destruct (openapi3.ResponseRef_Value responseItem) as [value|]; [|reflexivity].
  cbn [deref bind]. destruct (Atoi response); [|reflexivity].
  destruct (openapi3.Content_ value) as [Content|]; [|reflexivity].
  f_equal. rewrite !flat_map_concat_map. f_equal. apply map_ext. intros k.
  unfold contentResponses. destruct (map_lookup Content k) as [[c|]|]; try reflexivity.
  apply mediaTypeResponses_eq.
Qed.

Lemma extractResponse_eq operation t :
  extractResponse (RT := RT1) operation t = extractResponse (RT := RT2) operation t.
Proof.
  unfold extractResponse. generalize (@nil Response.t) as acc.
  induction (openapi3.Responses operation) as [|e entries IH]; intros acc; [reflexivity|].
  cbn [extractResponse_loop]. rewrite responseResponses_eq.
  destruct (responseResponses (RT := RT2) t e); cbn [bind]; [apply IH|reflexivity].
Qed.

Lemma members_eq (om : OrderedMap.t) :
  OrderedMap.members (RT := RT1) om = OrderedMap.members (RT := RT2) om.
Proof.
  induction om as [|[k v] om IH]; [reflexivity|].
  cbn [OrderedMap.members]. now rewrite !json, IH.
Qed.

Lemma extractSchemaExample_eq schema :
  extractSchemaExample (RT := RT1) schema = extractSchemaExample (RT := RT2) schema.
Proof.
  unfold extractSchemaExample, OrderedMap.MarshalIndent.
  destruct schema as [schema|]; [|reflexivity]. cbn [deref bind].
  destruct (if openapi3.Is (openapi3.Type_ schema) (str "object") then _ else _);
    cbn [bind]; [|reflexivity].
  now rewrite members_eq.
Qed.

Lemma getRequests_schemas_eq schemas t :
  getRequests_schemas (RT := RT1) schemas t = getRequests_schemas (RT := RT2) schemas t.
Proof.
  revert t; induction schemas as [|[name ref] schemas IH]; intros t; [reflexivity|].
  cbn [getRequests_schemas]. rewrite extractSchemaExample_eq.
  destruct (extractSchemaExample (RT := RT2) (openapi3.Value ref)); cbn [bind];
    [apply IH|reflexivity].
Qed.

Lemma getRequests_eq openAPISpec :
  getRequests (RT := RT1) openAPISpec = getRequests (RT := RT2) openAPISpec.
Proof.
  unfold getRequests.
  assert (Ht : match openapi3.Components_ openAPISpec with
               | Some components =>
                   getRequests_schemas (RT := RT1) (openapi3.Schemas components) []
               | None => Ok []
               end
               = match openapi3.Components_ openAPISpec with
                 | Some components =>
                     getRequests_schemas (RT := RT2) (openapi3.Schemas components) []
                 | None => Ok []
                 end).
  { destruct (openapi3.Components_ openAPISpec); [apply getRequests_schemas_eq|reflexivity]. }
  rewrite Ht. clear Ht.
  destruct (match openapi3.Components_ openAPISpec with
            | Some components =>
                getRequests_schemas (RT := RT2) (openapi3.Schemas components) []
            | None => Ok []
            end) as [t|]; cbn [bind]; [|reflexivity].
  generalize (@nil Request.t) as acc.
  induction (openapi3.Paths openAPISpec) as [|[path pathItem] paths IH]; intros acc;
    [reflexivity|].
  cbn [getRequests_paths].
  assert (Ho : forall ops acc,
             getRequests_operations (RT := RT1) t path ops acc
             = getRequests_operations (RT := RT2) t path ops acc).
  { clear IH acc. induction ops as [|[method operation] ops IHo]; intros acc; [reflexivity|].
    cbn [getRequests_operations]. rewrite extractResponse_eq.
    destruct (extractResponse (RT := RT2) operation t); cbn [bind]; [|reflexivity].
    rewrite sort. apply IHo. }
  rewrite Ho.
  destruct (getRequests_operations (RT := RT2) t path (openapi3.Operations pathItem) acc);
    cbn [bind]; [apply IH|reflexivity].
Qed.

End SameOrder.

(** *** Reflexivity of "the same document" on the side of the paths *)

Lemma same_entries_refl {V} (R : V -> V -> Prop) (m : list (gostring * V)) :
  (forall v, R v v) -> same_entries R m m.
Proof.
  intros H. exists m. split; [reflexivity|].
  induction m; constructor; auto.
Qed.

Lemma option_rel_refl {A} (R : A -> A -> Prop) (o : option A) :
  (forall a, R a a) -> option_rel R o o.
Proof. intros H. destruct o; simpl; auto. Qed.

Lemma same_PathItem_refl (p : openapi3.PathItem) : same_PathItem p p.
Proof.
  apply same_entries_refl. intros o. split; [reflexivity|].
  apply same_entries_refl. intros r. apply option_rel_refl. intros v.
  split; [reflexivity|].
  apply option_rel_refl. intros c. apply same_entries_refl. intros mt.
  apply option_rel_refl. intros x. split; reflexivity.
Qed.

(** *** The claim on the two runs *)

(** C3, as stated, fails: two runs on the same document, with the same
    process id, that visit the two paths of the document in different
    orders write different configuration documents. *)
Lemma C3_request_order_differs :
  exists m1 fs1 m2 fs2,
    same_document Doc.petsFirst Doc.ownersFirst
    /\ exportOpenAPIToMockServer (RT := Sample.go 4242) Doc.petsFirst
         (str "api.yaml") (str "out1") Sample.emptyFS = Ok (m1, fs1)
    /\ exportOpenAPIToMockServer (RT := Sample.go 4242) Doc.ownersFirst
         (str "api.yaml") (str "out2") Sample.emptyFS = Ok (m2, fs2)
    /\ MockServerSetting.Port m1 = MockServerSetting.Port m2
    /\ map Request.Path (MockServerSetting.Requests m1) = [str "/pets"; str "/owners"]
    /\ map Request.Path (MockServerSetting.Requests m2) = [str "/owners"; str "/pets"]
    /\ os_ReadFile (RT := Sample.go 4242) fs1 (str "out1/data/Pet_Store/setting.yaml")
       <> os_ReadFile (RT := Sample.go 4242) fs2 (str "out2/data/Pet_Store/setting.yaml").
Proof.
  do 4 eexists.
  split.
  { split; [reflexivity|]. split; [exact I|].
    exists [Doc.owners; Doc.pets]. split; [apply perm_swap|].
    repeat constructor; apply same_PathItem_refl. }
  split; [vm_compute; reflexivity|].
  split; [vm_compute; reflexivity|].
  split; [vm_compute; reflexivity|].
  split; [vm_compute; reflexivity|].
  split; [vm_compute; reflexivity|].
  vm_compute. discriminate.
Qed.

(** C3, amended: two runs of the full conversion on the same document
    (with the same JSON library, whatever the process ids, the target
    roots and the orders in which the runs visit the maps of the document)
    give configurations that agree on every persisted field but the port,
    up to the order of the requests and the order of the responses of one
    status code; the responses of every request are sorted by status code
    in both. When the two runs visit the maps in the same order and
    [sort.Slice] leaves the same order, the request lists are equal. *)
Theorem C3_same_up_to_order (RT1 RT2 : GoRuntime)
    (contract1 : SortSliceContract RT1) (contract2 : SortSliceContract RT2)
    (d1 d2 : openapi3.T) (file1 file2 target1 target2 : gostring) (fs1 fs2 : FS)
    (m1 m2 : MockServerSetting.t) (fs1' fs2' : FS) :
  same_json RT1 RT2 ->
  same_document d1 d2 ->
  well_formed d1 ->
  exportOpenAPIToMockServer (RT := RT1) d1 file1 target1 fs1 = Ok (m1, fs1') ->
  exportOpenAPIToMockServer (RT := RT2) d2 file2 target2 fs2 = Ok (m2, fs2') ->
  same_setting m1 m2
  /\ (d1 = d2 -> same_sort RT1 RT2 ->
      MockServerSetting.Requests m1 = MockServerSetting.Requests m2).
Proof.
  intros json Hd Hw H1 H2.
  apply export_Ok in H1
    as (rs1 & i1 & n1 & G1 & I1 & N1 & Q1 & A1 & B1 & C1 & _ & D1 & E1 & F1).
  apply export_Ok in H2
    as (rs2 & i2 & n2 & G2 & I2 & N2 & Q2 & A2 & B2 & C2 & _ & D2 & E2 & F2).
  assert (Hi : i1 = i2).
  { destruct Hd as [Hi _]. rewrite I1, I2 in Hi. now injection Hi. }
  subst i2.
  assert (Hn : MockServerSetting.Name n1 = MockServerSetting.Name n2) by congruence.
  split.
  - unfold same_setting. rewrite A1, A2, B1, B2, C1, C2, D1, D2, E1, E2, F1, F2.
    repeat (split; [reflexivity|]).
    apply planned_requests_same; [exact Hn|].
    exact (@getRequests_same RT1 RT2 contract1 contract2 d1 d2 rs1 rs2 json Hd Hw G1 G2).
  - intros Hdd Hsort. rewrite F1, F2.
    rewrite (getRequests_eq json Hsort d1), Hdd, G2 in G1.
    injection G1 as <-.
    apply map_ext. intros r. unfold planned_request. f_equal.
    apply map_ext. intros x. unfold planned_response. now rewrite Hn.
Qed.

Lemma C3_same_up_to_order_witness :
  exists m1 fs1 m2 fs2,
    exportOpenAPIToMockServer (RT := Sample.plain 4242) Doc.petsFirst
      (str "api.yaml") (str "out1") Sample.emptyFS = Ok (m1, fs1)
    /\ exportOpenAPIToMockServer (RT := Sample.plain 777) Doc.ownersFirst
         (str "api.yaml") (str "out2") Sample.emptyFS = Ok (m2, fs2)
    /\ MockServerSetting.Port m1 <> MockServerSetting.Port m2
    /\ same_setting m1 m2.
Proof.
  do 4 eexists.
  match goal with
  | |- ?S1 = Ok (?a, ?b) /\ ?S2 = Ok (?c, ?d) /\ _ =>
      assert (H1 : S1 = Ok (a, b)) by (vm_compute; reflexivity);
      assert (H2 : S2 = Ok (c, d)) by (vm_compute; reflexivity)
  end.
  split; [exact H1|]. split; [exact H2|].
  split; [vm_compute; discriminate|].
  refine (proj1 (@C3_same_up_to_order (Sample.plain 4242) (Sample.plain 777)
                   (plain_contract 4242) (plain_contract 777)
                   Doc.petsFirst Doc.ownersFirst _ _ _ _ _ _ _ _ _ _ _ _ _ H1 H2)).
  - intros depth v. reflexivity.
  - split; [reflexivity|]. split; [exact I|].
    exists [Doc.owners; Doc.pets]. split; [apply perm_swap|].
    repeat constructor; apply same_PathItem_refl.
  - split.
    + intros components H. discriminate H.
    + intros path pathItem method operation Hp Ho key item value content Hk Hv Hc.
      exfalso.
      destruct Hp as [[= <- <-]|[[= <- <-]|[]]];
        destruct Ho as [[= <- <-]|[]];
        destruct Hk as [[= <- <-]|[]];
        injection Hv as <-; discriminate Hc.
Defined.

(* ================================================================== *)
(** ** Status codes and their text *)

From Stdlib Require DecimalPos.

Lemma digits_value_acc (d : Decimal.uint) (acc : positive) :
  digits_value (digits_of_uint d) (Z.pos acc) = Some (Z.pos (Pos.of_uint_acc d acc)).
Proof.
  revert acc; induction d; intros acc; cbn [digits_of_uint digits_value Pos.of_uint_acc];
    [reflexivity|..];
    match goal with
    | |- context [is_digit ?c] => change (is_digit c) with true; cbv iota
    end;
    rewrite <- IHd; f_equal; vm_compute bv; lia.
Qed.

Lemma digits_value_of_uint (d : Decimal.uint) :
  digits_value (digits_of_uint d) 0 = Some (Z.of_N (Pos.of_uint d)).
Proof.
  induction d; cbn [digits_of_uint digits_value Pos.of_uint];
    [reflexivity|exact IHd|..];
    match goal with
    | |- context [is_digit ?c] => change (is_digit c) with true; cbv iota
    end;
    apply digits_value_acc.
Qed.

Lemma digits_of_uint_head (d : Decimal.uint) :
  d <> Decimal.Nil ->
  exists c s, digits_of_uint d = c :: s /\ is_digit c = true.
Proof.
  destruct d; intros H; [congruence|..]; cbn [digits_of_uint]; eauto.
Qed.

Lemma is_digit_no_sign (c : ascii) :
  is_digit c = true -> byte_eqb c "-"%char = false /\ byte_eqb c "+"%char = false.
Proof.
  intros H. split.
  - destruct (byte_eqb c "-"%char) eqn:E; [|reflexivity].
    apply byte_eqb_eq in E. subst c. discriminate.
  - destruct (byte_eqb c "+"%char) eqn:E; [|reflexivity].
    apply byte_eqb_eq in E. subst c. discriminate.
Qed.

Lemma Atoi_digits (p : positive) :
  digits_value (digits_of_uint (Pos.to_uint p)) 0 = Some (Z.pos p).
Proof. now rewrite digits_value_of_uint, DecimalPos.Unsigned.of_to. Qed.

(** [Atoi] reads back what [Itoa] wrote. *)
Lemma Atoi_Itoa (n : Z) : minInt64 <= n <= maxInt64 -> Atoi (Itoa n) = Some n.
Proof.
  intros Hn. destruct n as [|p|p]; [reflexivity| |].
  - cbn [Itoa].
    destruct (digits_of_uint_head (DecimalPos.Unsigned.to_uint_nonnil p)) as (c & s & E & Hc).
    pose proof (Atoi_digits p) as Hd. rewrite E in Hd.
    unfold Atoi. rewrite E.
    destruct (is_digit_no_sign c Hc) as [-> ->]. cbn [orb]. rewrite Hd.
    replace ((minInt64 <=? Z.pos p) && (Z.pos p <=? maxInt64)) with true; [reflexivity|].
    symmetry. apply andb_true_iff. split; apply Z.leb_le; lia.
  - cbn [Itoa].
    destruct (digits_of_uint_head (DecimalPos.Unsigned.to_uint_nonnil p)) as (c & s & E & Hc).
    pose proof (Atoi_digits p) as Hd. rewrite E in Hd.
    unfold Atoi. rewrite byte_eqb_refl. cbn [orb]. rewrite E, Hd.
    replace ((minInt64 <=? - Z.pos p) && (- Z.pos p <=? maxInt64)) with true; [reflexivity|].
    symmetry. apply andb_true_iff. split; apply Z.leb_le; lia.
Qed.

Lemma digits_value_digits (s : gostring) (n v : Z) :
  digits_value s n = Some v -> Forall (fun c => is_digit c = true) s.
Proof.
  revert n; induction s as [|c s IH]; intros n; cbn [digits_value]; [constructor|].
  destruct (is_digit c) eqn:E; [|discriminate].
  intros H. constructor; [exact E|eauto].
Qed.

(** What [Atoi] accepts: a text that is not empty, made of digits and
    signs, with a value that fits 64 bits. *)
Lemma Atoi_Some (s : gostring) (n : Z) :
  Atoi s = Some n ->
  s <> [] /\ Forall (fun c => numeral_byte c = true) s /\ minInt64 <= n <= maxInt64.
Proof.
  unfold Atoi. destruct s as [|c s]; [discriminate|].
  set (neg := byte_eqb c "-"%char).
  set (digits := if neg || byte_eqb c "+"%char then s else c :: s).
  destruct digits as [|d ds] eqn:Ed; [discriminate|].
  destruct (digits_value (d :: ds) 0) as [v|] eqn:Ev; [|discriminate].
  destruct ((minInt64 <=? (if neg then - v else v)) && ((if neg then - v else v) <=? maxInt64))
    eqn:Er; [|discriminate].
  intros [= <-]. apply andb_true_iff in Er as [E1 E2]. apply Z.leb_le in E1, E2.
  split; [discriminate|]. split; [|lia].
  apply digits_value_digits in Ev.
  assert (Hd : forall x, In x (d :: ds) -> numeral_byte x = true).
  { intros x Hx. unfold numeral_byte. rewrite Forall_forall in Ev. now rewrite (Ev x Hx). }
  subst digits. apply Forall_forall. intros x Hx.
  destruct (neg || byte_eqb c "+"%char) eqn:Es.
  - destruct Hx as [<-|Hx].
    + unfold numeral_byte. fold neg. rewrite <- orb_assoc, Es. apply orb_true_r.
    + apply Hd. rewrite <- Ed. exact Hx.
  - apply Hd. rewrite <- Ed. exact Hx.
Qed.

Lemma Atoi_no_ampersand (s : gostring) (n : Z) : Atoi s = Some n -> ~ In "&"%char s.
Proof.
  intros H Hin. apply Atoi_Some in H as (_ & H & _).
  rewrite Forall_forall in H. specialize (H _ Hin). discriminate.
Qed.

Lemma take_until_app (c : ascii) (a rest : gostring) :
  ~ In c a -> rest = [] \/ (exists rest', rest = c :: rest') ->
  take_until c (a ++ rest) = a.
Proof.
  induction a as [|x a IH]; intros Ha Hr; cbn [app take_until].
  - destruct Hr as [->|[rest' ->]]; [reflexivity|].
    cbn [take_until]. now rewrite byte_eqb_refl.
  - destruct (byte_eqb x c) eqn:E.
    + apply byte_eqb_eq in E. subst x. exfalso. apply Ha. now left.
    + rewrite IH; [reflexivity| |exact Hr]. intros Hin. apply Ha. now right.
Qed.

(** X1 (strconv.Atoi and strconv.Itoa, as [extractResponse] uses them on
    the keys of the response map): [Atoi] takes only a text that is not
    empty and is made of decimal digits and signs, and its value fits 64
    bits; [Itoa] of such a value is read back by [Atoi] as the same value,
    so the text [Itoa] writes for two different codes differs. *)
Theorem X1_Atoi_Itoa_round_trip (key : gostring) (code : Z) :
  Atoi key = Some code ->
  key <> []
  /\ Forall (fun c => numeral_byte c = true) key
  /\ minInt64 <= code <= maxInt64
  /\ Atoi (Itoa code) = Some code
  /\ (forall code', minInt64 <= code' <= maxInt64 -> Itoa code' = Itoa code -> code' = code).
Proof.
  intros H. destruct (Atoi_Some _ H) as (H1 & H2 & H3).
  repeat split; try assumption; try lia.
  - now apply Atoi_Itoa.
  - intros code' Hc E. apply Atoi_Itoa in Hc. rewrite E, (Atoi_Itoa H3) in Hc. congruence.
Qed.

Lemma X1_Atoi_Itoa_round_trip_witness :
  Atoi (str "+0404") = Some 404
  /\ Itoa 404 = str "404"
  /\ Atoi (Itoa 404) = Some 404.
Proof.
  assert (H : Atoi (str "+0404") = Some 404) by reflexivity.
  split; [exact H|]. split; [reflexivity|].
  exact (proj1 (proj2 (proj2 (proj2 (X1_Atoi_Itoa_round_trip (str "+0404") H))))).
Defined.

(* ================================================================== *)
(** ** What an extracted response looks like *)

Section ExtractedResponses.

Context `{RT : GoRuntime}.

Lemma mediaTypeResponses_In schemaExamples description code key contentType media r :
  In r (mediaTypeResponses schemaExamples description code key contentType media) ->
  Response.Name r = cleanFolderName description
  /\ Response.Code r = code
  /\ Response.Headers r = Some (content_headers contentType)
  /\ Response.FilePath r = None
  /\ Response.Body r <> Some []
  /\ ((openapi3.Examples media = [] /\ Response.Query r = content_query key contentType)
      \/ (exists name example,
            In (name, example) (openapi3.Examples media)
            /\ Response.Query r = content_query key contentType ++ str "&name=" ++ name
            /\ Response.Body r = match getBodyString example with
                                 | [] => None
                                 | _ :: _ => Some (getBodyString example)
                                 end)).
Proof.
  unfold mediaTypeResponses.
  assert (Hplain : forall body,
            body <> Some [] ->
            forall r0, In r0 [ {| Response.Name := cleanFolderName description;
                       Response.Code := code;
                       Response.Query := str "?key=" ++ key ++ str "&contentType=" ++ contentType;
                       Response.Headers := Some [ {| Header.Name := str "Content-Type";
                                                     Header.Value := contentType |} ];
                       Response.FilePath := None;
                       Response.Body := body |} ] ->
            openapi3.Examples media = [] ->
            Response.Name r0 = cleanFolderName description
            /\ Response.Code r0 = code
            /\ Response.Headers r0 = Some (content_headers contentType)
            /\ Response.FilePath r0 = None
            /\ Response.Body r0 <> Some []
            /\ ((openapi3.Examples media = [] /\ Response.Query r0 = content_query key contentType)
                \/ (exists name example,
                      In (name, example) (openapi3.Examples media)
                      /\ Response.Query r0 = content_query key contentType ++ str "&name=" ++ name
                      /\ Response.Body r0 = match getBodyString example with
                                            | [] => None
                                            | _ :: _ => Some (getBodyString example)
                                            end))).
  { intros body Hb r0 [<-|[]] He. cbn. repeat split; try assumption. left.
    split; [exact He|reflexivity]. }
  destruct (openapi3.Examples media) as [|e es] eqn:Ee.
  - destruct (openapi3.Schema_ media) as [ref|].
    + destruct (openapi3.Ref ref) as [|c ref'].
      * intros H. apply (Hplain None); [discriminate|exact H|reflexivity].
      * destruct (map_lookup schemaExamples (c :: ref')) as [[|b text]|];
          intros H; (eapply Hplain; [|exact H|reflexivity]); discriminate.
    + intros H. apply (Hplain None); [discriminate|exact H|reflexivity].
  - clear Hplain. intros H. apply in_map_iff in H as ([name example] & <- & Hin).
    cbn. repeat split.
    + destruct (getBodyString example); discriminate.
    + right. exists name, example. split; [exact Hin|]. split; [|reflexivity].
      unfold content_query. now rewrite <- !app_assoc.
Qed.

Lemma responseResponses_In schemaExamples key item o r :
  responseResponses schemaExamples (key, item) = Ok o ->
  In r o ->
  exists value,
    openapi3.ResponseRef_Value item = Some value
    /\ Atoi key = Some (Response.Code r)
    /\ Response.Name r = cleanFolderName (description_of value)
    /\ ((openapi3.Content_ value = None
         /\ r = bare_response (openapi3.Description value) (Response.Code r))
        \/ (exists content contentType media,
              openapi3.Content_ value = Some content
              /\ In contentType (map fst content)
              /\ map_lookup content contentType = Some (Some media)
              /\ In r (mediaTypeResponses schemaExamples (description_of value)
                         (Response.Code r) key contentType media))).
Proof.
  unfold responseResponses.
  destruct (openapi3.ResponseRef_Value item) as [value|]; cbn [deref bind]; [|discriminate].
  destruct (Atoi key) as [code|]; [|discriminate].
  fold (description_of value).
  destruct (openapi3.Content_ value) as [content|] eqn:Ec.
  - intros [= <-] Hin. apply in_flat_map in Hin as (contentType & Hct & Hin).
    unfold contentResponses in Hin.
    destruct (map_lookup content contentType) as [[media|]|] eqn:El; try destruct Hin.
    pose proof (mediaTypeResponses_In _ _ _ _ _ _ _ Hin) as (Hn & Hc & _).
    exists value. rewrite Hc. repeat split; try assumption.
    right. exists content, contentType, media. repeat split; assumption.
  - intros [= <-] [<-|[]]. exists value. cbn.
    split; [reflexivity|]. split; [reflexivity|]. split; [reflexivity|].
    left. split; [exact Ec|]. reflexivity.
Qed.

Lemma extractResponse_In operation schemaExamples rs r :
  extractResponse operation schemaExamples = Ok rs ->
  In r rs ->
  exists key item o,
    In (key, item) (openapi3.Responses operation)
    /\ responseResponses schemaExamples (key, item) = Ok o
    /\ In r o.
Proof.
  unfold extractResponse. intros H Hin.
  apply extractResponse_loop_Ok in H as (outs & HF & ->). cbn [app] in Hin.
  induction HF as [|[key item] o es os Ho HF IH]; [destruct Hin|].
  cbn [List.concat] in Hin. apply in_app_or in Hin as [Hin|Hin].
  - exists key, item, o. split; [now left|]. split; assumption.
  - destruct (IH Hin) as (k & i & o' & H1 & H2 & H3).
    exists k, i, o'. split; [now right|]. split; assumption.
Qed.

End ExtractedResponses.

Lemma map_lookup_Some_In {V} (m : list (gostring * V)) (k : gostring) (v : V) :
  map_lookup m k = Some v -> In (k, v) m.
Proof.
  induction m as [|[k' v'] m IH]; cbn [map_lookup]; [discriminate|].
  destruct (gostring_eqb k' k) eqn:E.
  - apply gostring_eqb_eq in E. intros [= ->]. subst. now left.
  - intros H. right. now apply IH.
Qed.

Lemma cleanFolderName_name_bytes (text : gostring) :
  Forall name_byte (cleanFolderName text).
Proof.
  rewrite cleanFolderName_bytewise. apply Forall_forall. intros c Hc.
  apply sanitize_bytewise_In in Hc as (Hn & Hlf & Hsp & _).
  split; [now apply is_notAllowed_false|]. split; assumption.
Qed.

(** X2 ([extractResponse]): every response that comes out of the
    extraction has no file path yet, has a body that is not the empty
    text when it has one, has a status code that fits 64 bits, and has a
    name without space, line feed or a character that is not allowed. *)
Theorem X2_extracted_shape `{RT : GoRuntime}
    (operation : openapi3.Operation) (schemaExamples : list (gostring * gostring))
    (rs : list Response.t) :
  extractResponse operation schemaExamples = Ok rs ->
  Forall (fun r => Response.FilePath r = None
                   /\ Response.Body r <> Some []
                   /\ minInt64 <= Response.Code r <= maxInt64
                   /\ Forall name_byte (Response.Name r)) rs.
Proof.
  intros H. apply Forall_forall. intros r Hin.
  destruct (@extractResponse_In RT operation schemaExamples rs r H Hin) as (key & item & o & _ & Ho & Hr).
  destruct (@responseResponses_In RT schemaExamples key item o r Ho Hr) as (value & _ & Hcode & Hname & Hcase).
  apply Atoi_Some in Hcode as (_ & _ & Hrange).
  assert (Hbytes : Forall name_byte (Response.Name r)).
  { rewrite Hname. apply cleanFolderName_name_bytes. }
  destruct Hcase as [[_ Hbare]|(content & contentType & media & _ & _ & _ & Hm)].
  - assert (Hf : Response.FilePath r = None) by (rewrite Hbare; reflexivity).
    assert (Hb : Response.Body r = None) by (rewrite Hbare; reflexivity).
    rewrite Hb. repeat split; try assumption; try lia. discriminate.
  - apply mediaTypeResponses_In in Hm as (_ & _ & _ & Hf & Hb & _).
    repeat split; try assumption; lia.
Qed.

Lemma X2_extracted_shape_witness :
  exists rs,
    extractResponse (RT := Sample.go 4242) Doc.twelveExamples [] = Ok rs
    /\ List.length rs = 13%nat
    /\ Forall (fun r => Response.FilePath r = None
                        /\ Response.Body r <> Some []
                        /\ minInt64 <= Response.Code r <= maxInt64
                        /\ Forall name_byte (Response.Name r)) rs.
Proof.
  eexists.
  match goal with
  | |- ?S = Ok ?x /\ _ => assert (H : S = Ok x) by (vm_compute; reflexivity)
  end.
  split; [exact H|]. split; [reflexivity|].
  exact (@X2_extracted_shape _ _ _ _ H).
Defined.

(** X3 ([extractResponse]): every extracted response comes from an entry
    of the operation's response map: its code is the key as [Atoi] reads
    it and its name the sanitized description. If the entry has no content
    map, the response has no header and no body and its query is [?key=]
    followed by the code in decimal; otherwise it carries the single
    header [Content-Type] for one of the entry's content types, and its
    query is [?key=<key>&contentType=<type>], followed by
    [&name=<example>] exactly when the media type has inline examples, the
    body then being the text of that example. *)
Theorem X3_extracted_provenance `{RT : GoRuntime}
    (operation : openapi3.Operation) (schemaExamples : list (gostring * gostring))
    (rs : list Response.t) :
  extractResponse operation schemaExamples = Ok rs ->
  Forall (fun r =>
            exists key item value,
              In (key, item) (openapi3.Responses operation)
              /\ openapi3.ResponseRef_Value item = Some value
              /\ Atoi key = Some (Response.Code r)
              /\ Response.Name r = cleanFolderName (description_of value)
              /\ ((openapi3.Content_ value = None
                   /\ Response.Headers r = None
                   /\ Response.Body r = None
                   /\ Response.Query r = str "?key=" ++ Itoa (Response.Code r))
                  \/ (exists content contentType media,
                        openapi3.Content_ value = Some content
                        /\ In (contentType, Some media) content
                        /\ Response.Headers r = Some (content_headers contentType)
                        /\ ((openapi3.Examples media = []
                             /\ Response.Query r = content_query key contentType)
                            \/ (exists name example,
                                  In (name, example) (openapi3.Examples media)
                                  /\ Response.Query r
                                     = content_query key contentType ++ str "&name=" ++ name
                                  /\ Response.Body r
                                     = match getBodyString example with
                                       | [] => None
                                       | _ :: _ => Some (getBodyString example)
                                       end))))) rs.
Proof.
  intros H. apply Forall_forall. intros r Hin.
  destruct (@extractResponse_In RT operation schemaExamples rs r H Hin) as (key & item & o & Hentry & Ho & Hr).
  destruct (@responseResponses_In RT schemaExamples key item o r Ho Hr) as (value & Hv & Hcode & Hname & Hcase).
  exists key, item, value. repeat (split; [assumption|]).
  destruct Hcase as [[Hc Hbare]|(content & contentType & media & Hc & _ & Hl & Hm)].
  - left. split; [exact Hc|].
    split; [rewrite Hbare; reflexivity|]. split; [rewrite Hbare; reflexivity|].
    rewrite Hbare at 1. reflexivity.
  - right. exists content, contentType, media.
    apply mediaTypeResponses_In in Hm as (_ & _ & Hh & _ & _ & Hq).
    split; [exact Hc|]. split; [now apply map_lookup_Some_In|]. split; assumption.
Qed.

Lemma X3_extracted_provenance_witness :
  exists rs,
    extractResponse (RT := Sample.go 4242) Doc.twelveExamples [] = Ok rs
    /\ map Response.Code rs = 404 :: repeat 200 12
    /\ Forall (fun r =>
                 exists key item value,
                   In (key, item) (openapi3.Responses Doc.twelveExamples)
                   /\ openapi3.ResponseRef_Value item = Some value
                   /\ Atoi key = Some (Response.Code r)
                   /\ Response.Name r = cleanFolderName (description_of value)
                   /\ ((openapi3.Content_ value = None
                        /\ Response.Headers r = None
                        /\ Response.Body r = None
                        /\ Response.Query r = str "?key=" ++ Itoa (Response.Code r))
                       \/ (exists content contentType media,
                             openapi3.Content_ value = Some content
                             /\ In (contentType, Some media) content
                             /\ Response.Headers r = Some (content_headers contentType)
                             /\ ((openapi3.Examples media = []
                                  /\ Response.Query r = content_query key contentType)
                                 \/ (exists name example,
                                       In (name, example) (openapi3.Examples media)
                                       /\ Response.Query r
                                          = content_query key contentType ++ str "&name=" ++ name
                                       /\ Response.Body r
                                          = match getBodyString (RT := Sample.go 4242) example with
                                            | [] => None
                                            | _ :: _ =>
                                                Some (getBodyString (RT := Sample.go 4242) example)
                                            end))))) rs.
Proof.
  eexists.
  match goal with
  | |- ?S = Ok ?x /\ _ => assert (H : S = Ok x) by (vm_compute; reflexivity)
  end.
  split; [exact H|]. split; [reflexivity|].
  exact (@X3_extracted_provenance _ _ _ _ H).
Defined.

(* ================================================================== *)
(** ** The query strings *)

Section Queries.

Context `{RT : GoRuntime}.

(** The query built for a media type: the prefix for the content type,
    then nothing or an ampersand and more. *)
Lemma mediaTypeResponses_query schemaExamples description code key contentType media r :
  In r (mediaTypeResponses schemaExamples description code key contentType media) ->
  exists rest,
    Response.Query r = content_query key contentType ++ rest
    /\ (rest = [] \/ exists rest', rest = "&"%char :: rest').
Proof.
  intros H. apply mediaTypeResponses_In in H as (_ & _ & _ & _ & _ & [[_ Hq]|Hq]).
  - exists []. rewrite app_nil_r. split; [exact Hq|now left].
  - destruct Hq as (name & example & _ & Hq & _).
    exists (str "&name=" ++ name). split; [exact Hq|]. right. now exists (str "name=" ++ name).
Qed.

Lemma responseResponses_query_key schemaExamples key item o r :
  responseResponses schemaExamples (key, item) = Ok o ->
  In r o ->
  Atoi key = Some (Response.Code r)
  /\ Atoi (query_key (Response.Query r)) = Some (Response.Code r).
Proof.
  intros Ho Hr.
  destruct (@responseResponses_In RT schemaExamples key item o r Ho Hr)
    as (value & _ & Hcode & _ & Hcase).
  split; [exact Hcode|].
  destruct Hcase as [[_ Hbare]|(content & contentType & media & _ & _ & _ & Hm)].
  - assert (Hq : Response.Query r = str "?key=" ++ Itoa (Response.Code r)).
    { rewrite Hbare at 1. reflexivity. }
    rewrite Hq. unfold query_key. cbn [str list_ascii_of_string app skipn].
    apply Atoi_Some in Hcode as (_ & _ & Hrange).
    pose proof (Atoi_Itoa Hrange) as Hback.
    rewrite <- (app_nil_r (Itoa (Response.Code r))) at 1.
    rewrite take_until_app; [exact Hback| |now left].
    eapply Atoi_no_ampersand. exact Hback.
  - apply mediaTypeResponses_query in Hm as (rest & Hq & _).
    rewrite Hq. unfold query_key, content_query.
    cbn [str list_ascii_of_string app skipn]. rewrite <- app_assoc.
    cbn [app]. rewrite take_until_app; [exact Hcode| |right; eauto].
    eapply Atoi_no_ampersand. exact Hcode.
Qed.

Lemma mediaTypeResponses_queries_NoDup schemaExamples description code key contentType media :
  unique_keys (openapi3.Examples media) ->
  NoDup (map Response.Query
           (mediaTypeResponses schemaExamples description code key contentType media)).
Proof.
  intros Hu. unfold mediaTypeResponses.
  destruct (openapi3.Examples media) as [|e es] eqn:Ee.
  - assert (H1 : forall r : Response.t, NoDup (map Response.Query [r])).
    { intros r. constructor; [intros []|constructor]. }
    destruct (openapi3.Schema_ media) as [ref|]; [|apply H1].
    destruct (openapi3.Ref ref); [apply H1|].
    destruct (map_lookup schemaExamples _) as [[|b text]|]; apply H1.
  - rewrite map_map. unfold unique_keys in Hu.
    apply NoDup_map_NoDup_ForallPairs; [|eapply NoDup_map_inv; exact Hu].
    intros [n1 e1] [n2 e2] H1 H2. unfold exampleResponse. cbn [Response.Query]. intros E.
    do 5 apply app_inv_head in E. subst n2.
    assert (Hin : forall n x y (l : list (gostring * option openapi3.ExampleRef)),
              NoDup (map fst l) -> In (n, x) l -> In (n, y) l -> x = y).
    { clear. intros n x y l. induction l as [|[k v] l IH]; cbn; intros Hnd Hx Hy; [destruct Hx|].
      inversion Hnd as [|? ? Hk Hnd']; subst.
      destruct Hx as [[= -> ->]|Hx], Hy as [[= ->]|Hy].
      - reflexivity.
      - exfalso. apply Hk. apply in_map_iff. now exists (n, y).
      - subst. exfalso. apply Hk. apply in_map_iff. now exists (n, x).
      - now apply IH. }
    f_equal. exact (Hin _ _ _ _ Hu H1 H2).
Qed.

Lemma contentResponses_queries_NoDup schemaExamples description code key content cts :
  NoDup cts ->
  (forall contentType, In contentType cts -> ~ In "&"%char contentType) ->
  (forall contentType media,
     In (contentType, Some media) content -> unique_keys (openapi3.Examples media)) ->
  NoDup (map Response.Query
           (flat_map (contentResponses schemaExamples description code key content) cts)).
Proof.
  intros Hnd Hamp Hex. induction Hnd as [|ct cts Hct Hnd IH]; [constructor|].
  cbn [flat_map]. rewrite map_app. apply NoDup_app.
  - unfold contentResponses.
    destruct (map_lookup content ct) as [[media|]|] eqn:El; try constructor.
    apply mediaTypeResponses_queries_NoDup.
    apply (Hex ct). now apply map_lookup_Some_In.
  - apply IH. intros c Hc. apply Hamp. now right.
  - intros q Hq1 Hq2.
    apply in_map_iff in Hq1 as (r1 & <- & Hr1).
    apply in_map_iff in Hq2 as (r2 & Eq & Hr2).
    apply in_flat_map in Hr2 as (ct2 & Hct2 & Hr2).
    unfold contentResponses in Hr1, Hr2.
    destruct (map_lookup content ct) as [[m1|]|]; try destruct Hr1.
    destruct (map_lookup content ct2) as [[m2|]|]; try destruct Hr2.
    apply mediaTypeResponses_query in Hr1 as (rest1 & Hq1 & Hrest1).
    apply mediaTypeResponses_query in Hr2 as (rest2 & Hq2 & Hrest2).
    rewrite Hq1, Hq2 in Eq. unfold content_query in Eq.
    rewrite <- !app_assoc in Eq. do 3 apply app_inv_head in Eq.
    apply (f_equal (take_until "&"%char)) in Eq.
    rewrite !take_until_app in Eq; try assumption.
    + subst ct2. contradiction.
    + apply Hamp. now left.
    + apply Hamp. now right.
Qed.

Lemma Forall2_concat_In {A B} (R : A -> list B -> Prop) (l : list A) (outs : list (list B)) b :
  Forall2 R l outs -> In b (List.concat outs) ->
  exists a o, In a l /\ R a o /\ In b o.
Proof.
  induction 1 as [|a o l outs Ha HF IH]; cbn [List.concat]; [intros []|].
  intros Hin. apply in_app_or in Hin as [Hin|Hin].
  - exists a, o. split; [now left|]. split; assumption.
  - destruct (IH Hin) as (a' & o' & H1 & H2 & H3).
    exists a', o'. split; [now right|]. split; assumption.
Qed.

End Queries.

(** X4 ([extractResponse]): the status code of an extracted response can
    be read back from its query: the text between [?key=] and the first
    ampersand is read by [Atoi] as the response's code. *)
Theorem X4_query_key_is_code `{RT : GoRuntime}
    (operation : openapi3.Operation) (schemaExamples : list (gostring * gostring))
    (rs : list Response.t) :
  extractResponse operation schemaExamples = Ok rs ->
  Forall (fun r => Atoi (query_key (Response.Query r)) = Some (Response.Code r)) rs.
Proof.
  intros H. apply Forall_forall. intros r Hin.
  destruct (@extractResponse_In RT operation schemaExamples rs r H Hin)
    as (key & item & o & _ & Ho & Hr).
  exact (proj2 (@responseResponses_query_key RT schemaExamples key item o r Ho Hr)).
Qed.

Lemma X4_query_key_is_code_witness :
  exists rs,
    extractResponse (RT := Sample.go 4242) Doc.twelveExamples [] = Ok rs
    /\ map (fun r => query_key (Response.Query r)) rs = str "404" :: repeat (str "200") 12
    /\ Forall (fun r => Atoi (query_key (Response.Query r)) = Some (Response.Code r)) rs.
Proof.
  eexists.
  match goal with
  | |- ?S = Ok ?x /\ _ => assert (H : S = Ok x) by (vm_compute; reflexivity)
  end.
  split; [exact H|]. split; [reflexivity|].
  exact (@X4_query_key_is_code _ _ _ _ H).
Defined.

(** X5 ([extractResponse]): the queries of the responses extracted for
    an operation are pairwise different, when the keys of the response map
    stand for different status codes, every content map has one entry for
    a content type, every media type one example for a name, and no
    content type holds an ampersand. *)
Theorem X5_queries_distinct `{RT : GoRuntime}
    (operation : openapi3.Operation) (schemaExamples : list (gostring * gostring))
    (rs : list Response.t) :
  extractResponse operation schemaExamples = Ok rs ->
  NoDup (parsed_codes operation) ->
  unique_content_keys operation ->
  unique_example_names operation ->
  plain_content_types operation ->
  NoDup (map Response.Query rs).
Proof.
  unfold extractResponse, parsed_codes, unique_content_keys, unique_example_names,
    plain_content_types.
  intros H Hcodes Hkeys Hnames Hplain.
  apply extractResponse_loop_Ok in H as (outs & HF & ->). cbn [app].
  induction HF as [|[key item] o es os Ho HF IH]; [constructor|].
  cbn [List.concat]. rewrite map_app.
  cbn [map fst] in Hcodes. inversion Hcodes as [|? ? Hfresh Hcodes']; subst.
  apply NoDup_app.
  - pose proof Ho as Ho'. unfold responseResponses in Ho'.
    destruct (openapi3.ResponseRef_Value item) as [value|] eqn:Ev; cbn [deref bind] in Ho';
      [|discriminate].
    destruct (Atoi key) as [code|]; [|discriminate].
    destruct (openapi3.Content_ value) as [content|] eqn:Ec; injection Ho' as <-.
    + apply contentResponses_queries_NoDup.
      * exact (Hkeys key item value content (or_introl eq_refl) Ev Ec).
      * intros ct Hct. apply in_map_iff in Hct as ([ct' media] & <- & Hct).
        exact (Hplain key item value content ct' media (or_introl eq_refl) Ev Ec Hct).
      * intros ct media Hct.
        exact (Hnames key item value content ct media (or_introl eq_refl) Ev Ec Hct).
    + constructor; [intros []|constructor].
  - apply IH.
    + exact Hcodes'.
    + intros k i v c Hin. apply (Hkeys k i v c). now right.
    + intros k i v c ct m Hin. apply (Hnames k i v c ct m). now right.
    + intros k i v c ct m Hin. apply (Hplain k i v c ct m). now right.
  - intros q Hq1 Hq2.
    apply in_map_iff in Hq1 as (r1 & <- & Hr1).
    apply in_map_iff in Hq2 as (r2 & Eq & Hr2).
    destruct (Forall2_concat_In _ HF Hr2) as ([key2 item2] & o2 & Hin2 & Ho2 & Hr2').
    destruct (@responseResponses_query_key RT schemaExamples key item o r1 Ho Hr1) as [K1 Q1].
    destruct (@responseResponses_query_key RT schemaExamples key2 item2 o2 r2 Ho2 Hr2')
      as [K2 Q2].
    apply Hfresh. apply in_map_iff. exists (key2, item2). split; [|exact Hin2].
    cbn [fst]. rewrite K1, K2, <- Q1, <- Q2, Eq. reflexivity.
Qed.

Lemma X5_queries_distinct_witness :
  exists rs,
    extractResponse (RT := Sample.go 4242) Doc.twelveExamples [] = Ok rs
    /\ NoDup (parsed_codes Doc.twelveExamples)
    /\ unique_content_keys Doc.twelveExamples
    /\ unique_example_names Doc.twelveExamples
    /\ plain_content_types Doc.twelveExamples
    /\ NoDup (map Response.Query rs).
Proof.
  assert (Hcodes : NoDup (parsed_codes Doc.twelveExamples)).
  { vm_compute. repeat constructor; cbn; intuition discriminate. }
  assert (Hcontent : forall key item value content,
            In (key, item) (openapi3.Responses Doc.twelveExamples) ->
            openapi3.ResponseRef_Value item = Some value ->
            openapi3.Content_ value = Some content ->
            exists examples,
              content = [Doc.json examples]
              /\ NoDup (map fst examples)).
  { intros key item value content [[= <- <-]|[[= <- <-]|[]]]; cbn.
    - intros [= <-]. discriminate.
    - intros [= <-]. intros [= <-]. eexists. split; [reflexivity|].
      vm_compute. repeat constructor; cbn; intuition discriminate. }
  assert (Hkeys : unique_content_keys Doc.twelveExamples).
  { intros key item value content H1 H2 H3.
    destruct (Hcontent _ _ _ _ H1 H2 H3) as (examples & -> & _).
    unfold unique_keys. cbn. constructor; [intros []|constructor]. }
  assert (Hnames : unique_example_names Doc.twelveExamples).
  { intros key item value content ct media H1 H2 H3 H4.
    destruct (Hcontent _ _ _ _ H1 H2 H3) as (examples & -> & Hnd).
    destruct H4 as [[= <- <-]|[]]. exact Hnd. }
  assert (Hplain : plain_content_types Doc.twelveExamples).
  { intros key item value content ct media H1 H2 H3 H4.
    destruct (Hcontent _ _ _ _ H1 H2 H3) as (examples & -> & _).
    destruct H4 as [[= <- <-]|[]]. vm_compute. intuition discriminate. }
  eexists.
  match goal with
  | |- ?S = Ok ?x /\ _ => assert (H : S = Ok x) by (vm_compute; reflexivity)
  end.
  split; [exact H|]. repeat (split; [assumption|]).
  exact (@X5_queries_distinct _ _ _ _ H Hcodes Hkeys Hnames Hplain).
Defined.

(* ================================================================== *)
(** ** Schema examples, further *)

Section SchemaExamples.

Context `{RT : GoRuntime}.

(** The loop over the properties stops exactly at a property that is
    not resolved, with a nil dereference. *)
Lemma extractSchemaExample_props_Stop props om e :
  extractSchemaExample_props props om = Stop e <->
  e = NilDereference /\ Exists dangling props.
Proof.
  revert om; induction props as [|[name ref] props IH]; intros om;
    cbn [extractSchemaExample_props].
  - split; [discriminate|]. intros [_ H]. inversion H.
  - destruct (openapi3.Value ref) as [child|] eqn:Ev; cbn [deref bind].
    + rewrite IH. split; intros [He Hx]; (split; [exact He|]).
      * now right.
      * inversion Hx as [? ? Hd|? ? Hd]; subst; [|exact Hd].
        unfold dangling in Hd. cbn [snd] in Hd. congruence.
    + split.
      * intros [= <-]. split; [reflexivity|]. left. exact Ev.
      * intros [-> _]. reflexivity.
Qed.

Lemma extractSchemaExample_props_none props om :
  Forall resolved props ->
  Forall (fun entry => eligible entry = false) props ->
  extractSchemaExample_props props om = Ok om.
Proof.
  revert om; induction props as [|[name ref] props IH]; intros om Hr He; [reflexivity|].
  inversion Hr as [|? ? Hr1 Hr']; inversion He as [|? ? He1 He']; subst.
  cbn [extractSchemaExample_props].
  unfold resolved in Hr1. unfold eligible in He1. cbn [snd] in Hr1, He1.
  destruct (openapi3.Value ref) as [child|]; [|congruence].
  cbn [deref bind]. rewrite He1. now apply IH.
Qed.

End SchemaExamples.

(** X6 ([extractSchemaExample]): the run panics on a nil dereference
    exactly when the schema is nil, or is of type object and has a
    property whose reference is not resolved (whatever the type of that
    property would be); it never ends in [log.Fatalf]. A schema that is
    not of type object is never looked into. *)
Theorem X6_extractSchemaExample_panics `{RT : GoRuntime}
    (schema : option openapi3.Schema) (e : Abort) :
  extractSchemaExample schema = Stop e <->
  e = NilDereference
  /\ (schema = None
      \/ exists s, schema = Some s
                   /\ openapi3.Is (openapi3.Type_ s) (str "object") = true
                   /\ Exists dangling (openapi3.Properties s)).
Proof.
  unfold extractSchemaExample. destruct schema as [s|]; cbn [deref bind].
  - destruct (openapi3.Is (openapi3.Type_ s) (str "object")) eqn:Eo.
    + destruct (extractSchemaExample_props (openapi3.Properties s) OrderedMap.NewOrderedMap)
        as [om|e'] eqn:Ep; cbn [bind].
      * split.
        -- destruct (OrderedMap.MarshalIndent om); discriminate.
        -- intros [-> [H|(s' & [= <-] & _ & Hx)]]; [discriminate|].
           assert (Hs : extractSchemaExample_props (openapi3.Properties s)
                          OrderedMap.NewOrderedMap = Stop NilDereference).
           { apply extractSchemaExample_props_Stop. split; [reflexivity|exact Hx]. }
           congruence.
      * apply extractSchemaExample_props_Stop in Ep as [-> Hx]. split.
        -- intros [= <-]. split; [reflexivity|]. right. exists s. repeat split; assumption.
        -- intros [-> _]. reflexivity.
    + cbn [bind]. split.
      * destruct (OrderedMap.MarshalIndent _); discriminate.
      * intros [_ [H|(s' & [= <-] & H & _)]]; [discriminate|congruence].
  - split.
    + intros [= <-]. split; [reflexivity|now left].
    + intros [-> _]. reflexivity.
Qed.

(** X7 ([extractSchemaExample]): for a schema of type object whose
    properties are all resolved, the ordered map that is marshalled holds
    exactly the properties of type string or integer, each with the
    example of its schema, in the order in which the [range] visits them;
    the result is the text of that map, or the empty text when
    marshalling fails. With no such property, and for a schema that is
    not of type object, the result is the text of the empty object. *)
Theorem X7_extractSchemaExample_contents `{RT : GoRuntime} (s : openapi3.Schema) :
  (openapi3.Is (openapi3.Type_ s) (str "object") = true ->
   unique_keys (openapi3.Properties s) ->
   Forall resolved (openapi3.Properties s) ->
   extractSchemaExample (Some s)
   = Ok (example_text (map example_of (filter eligible (openapi3.Properties s)))))
  /\ (openapi3.Is (openapi3.Type_ s) (str "object") = true ->
      Forall resolved (openapi3.Properties s) ->
      Forall (fun entry => eligible entry = false) (openapi3.Properties s) ->
      extractSchemaExample (Some s) = Ok (str "{}"))
  /\ (openapi3.Is (openapi3.Type_ s) (str "object") = false ->
      extractSchemaExample (Some s) = Ok (str "{}")).
Proof.
  unfold extractSchemaExample, example_text. cbn [deref bind]. repeat split.
  - intros -> Hu Hr.
    rewrite (@extractSchemaExample_props_order RT (openapi3.Properties s)
               OrderedMap.NewOrderedMap Hu Hr).
    cbn [bind OrderedMap.NewOrderedMap app].
    destruct (OrderedMap.MarshalIndent _); reflexivity.
  - intros -> Hr He.
    rewrite (@extractSchemaExample_props_none (openapi3.Properties s)
               OrderedMap.NewOrderedMap Hr He).
    reflexivity.
  - intros ->. reflexivity.
Qed.

Lemma X7_extractSchemaExample_contents_witness :
  let s := Doc.pet [Doc.name_; Doc.meta_; Doc.id_] in
  openapi3.Is (openapi3.Type_ s) (str "object") = true
  /\ unique_keys (openapi3.Properties s)
  /\ Forall resolved (openapi3.Properties s)
  /\ map example_of (filter eligible (openapi3.Properties s))
     = [(str "name", Some (VString (str "a"))); (str "id", Some (VInt 1))]
  /\ extractSchemaExample (RT := Sample.go 4242) (Some s)
     = Ok (example_text (RT := Sample.go 4242)
             (map example_of (filter eligible (openapi3.Properties s))))
  /\ extractSchemaExample (RT := Sample.go 4242) (Some (Doc.pet [Doc.meta_])) = Ok (str "{}")
  /\ extractSchemaExample (RT := Sample.go 4242)
       (Some (openapi3.mkSchema (Some [str "string"]) [Doc.id_] None)) = Ok (str "{}").
Proof.
  intros s.
  assert (H1 : openapi3.Is (openapi3.Type_ s) (str "object") = true) by reflexivity.
  assert (H2 : unique_keys (openapi3.Properties s)).
  { unfold unique_keys. vm_compute. repeat constructor; cbn; intuition discriminate. }
  assert (H3 : Forall resolved (openapi3.Properties s)).
  { repeat constructor; discriminate. }
  split; [exact H1|]. split; [exact H2|]. split; [exact H3|]. split; [reflexivity|].
  split; [exact (proj1 (@X7_extractSchemaExample_contents (Sample.go 4242) s) H1 H2 H3)|].
  split.
  - apply (proj1 (proj2 (@X7_extractSchemaExample_contents (Sample.go 4242)
                           (Doc.pet [Doc.meta_])))).
    + reflexivity.
    + repeat constructor; discriminate.
    + repeat constructor.
  - apply (proj2 (proj2 (@X7_extractSchemaExample_contents (Sample.go 4242)
                           (openapi3.mkSchema (Some [str "string"]) [Doc.id_] None)))).
    reflexivity.
Defined.

(* ================================================================== *)
(** ** The request list and the table of schema examples *)

Section RequestList.

Context `{RT : GoRuntime}.

Lemma getRequests_paths_walked schemaExamples paths acc requests :
  getRequests_paths schemaExamples paths acc = Ok requests ->
  exists news,
    requests = acc ++ news
    /\ Forall2 (request_of schemaExamples)
         (flat_map (fun p => map (fun o => (fst p, fst o, snd o))
                               (openapi3.Operations (snd p))) paths)
         news.
Proof.
  revert acc requests; induction paths as [|[path pathItem] paths IH];
    intros acc requests; cbn [getRequests_paths flat_map].
  - intros [= <-]. exists []. split; [now rewrite app_nil_r|constructor].
  - destruct (getRequests_operations schemaExamples path (openapi3.Operations pathItem) acc)
      as [requests1|] eqn:E; cbn [bind]; [|discriminate].
    apply getRequests_operations_Ok in E as (news1 & -> & HF1).
    intros H. apply IH in H as (news2 & -> & HF2).
    exists (news1 ++ news2). split; [now rewrite app_assoc|].
    apply Forall2_app; [|exact HF2].
    cbn [fst snd]. clear -HF1.
    induction HF1 as [|[method operation] r ops rs Hr HF1 IH]; cbn [map]; constructor.
    + exact Hr.
    + exact IH.
Qed.

Lemma getRequests_paths_succeeds schemaExamples paths acc :
  Forall (fun o => exists produced,
            extractResponse (snd o) schemaExamples = Ok produced)
    (flat_map (fun p => map (fun o => (fst p, fst o, snd o))
                          (openapi3.Operations (snd p))) paths) ->
  exists requests, getRequests_paths schemaExamples paths acc = Ok requests.
Proof.
  revert acc; induction paths as [|[path pathItem] paths IH]; intros acc;
    cbn [getRequests_paths flat_map]; [eauto|].
  intros H. apply Forall_app in H as [H1 H2]. cbn [fst snd] in H1.
  assert (Hops : exists requests1,
             getRequests_operations schemaExamples path (openapi3.Operations pathItem) acc
             = Ok requests1).
  { clear -H1. revert acc.
    induction (openapi3.Operations pathItem) as [|[method operation] ops IHo]; intros acc;
      cbn [getRequests_operations]; [eauto|].
    cbn [map] in H1. inversion H1 as [|? ? [produced Hp] H1']; subst.
    cbn [snd] in Hp. rewrite Hp. cbn [bind]. now apply IHo. }
  destruct Hops as [requests1 ->]. cbn [bind]. now apply IH.
Qed.

End RequestList.

(** X8 ([getRequests]): the request list has one request for every
    operation of the document, in the order in which the loops over the
    paths and over the operations of a path visit them; the request has
    the path, the method and the operation id of its operation, and its
    responses are what [sort.Slice] makes of the responses extracted for
    the operation. [getRequests] ends well as soon as the table of schema
    examples is built and the extraction succeeds for every operation. *)
Theorem X8_one_request_per_operation `{RT : GoRuntime} (openAPISpec : openapi3.T) :
  (forall requests,
     getRequests openAPISpec = Ok requests ->
     exists schemaExamples,
       schema_table openAPISpec = Ok schemaExamples
       /\ Forall2 (request_of schemaExamples) (operations_of openAPISpec) requests
       /\ map (fun r => (Request.Path r, Request.Method r, Request.Name r)) requests
          = map (fun o => (fst (fst o), snd (fst o), openapi3.OperationID (snd o)))
              (operations_of openAPISpec))
  /\ (forall schemaExamples,
        schema_table openAPISpec = Ok schemaExamples ->
        Forall (fun o => exists produced,
                  extractResponse (snd o) schemaExamples = Ok produced)
          (operations_of openAPISpec) ->
        exists requests, getRequests openAPISpec = Ok requests).
Proof.
  unfold getRequests, operations_of. fold (schema_table openAPISpec). split.
  - intros requests H.
    destruct (schema_table openAPISpec) as [schemaExamples|]; cbn [bind] in H; [|discriminate].
    exists schemaExamples. split; [reflexivity|].
    apply getRequests_paths_walked in H as (news & -> & HF). cbn [app].
    split; [exact HF|].
    induction HF as [|[[path method] operation] r os rs (produced & _ & ->) HF IH];
      [reflexivity|].
    cbn [map fst snd Request.Path Request.Method Request.Name]. now rewrite IH.
  - intros schemaExamples -> H. cbn [bind]. now apply getRequests_paths_succeeds.
Qed.

Lemma X8_one_request_per_operation_witness :
  exists requests,
    getRequests (RT := Sample.go 4242) Doc.petsFirst = Ok requests
    /\ map (fun r => (Request.Path r, Request.Method r, Request.Name r)) requests
       = [(str "/pets", str "GET", str "listPets");
          (str "/owners", str "GET", str "listOwners")]
    /\ exists schemaExamples,
         schema_table (RT := Sample.go 4242) Doc.petsFirst = Ok schemaExamples
         /\ Forall2 (request_of (RT := Sample.go 4242) schemaExamples)
              (operations_of Doc.petsFirst) requests.
Proof.
  eexists.
  match goal with
  | |- ?S = Ok ?x /\ _ => assert (H : S = Ok x) by (vm_compute; reflexivity)
  end.
  split; [exact H|]. split; [reflexivity|].
  destruct (proj1 (@X8_one_request_per_operation (Sample.go 4242) Doc.petsFirst) _ H)
    as (schemaExamples & H1 & H2 & _).
  exists schemaExamples. split; assumption.
Defined.

(* ================================================================== *)
(** ** The sanitizer, further *)

Lemma TrimLeftFunc_go_length (f : Z -> bool) (fuel : nat) (s : gostring) :
  (List.length (TrimLeftFunc_go fuel s f) <= List.length s)%nat.
Proof.
  revert s; induction fuel as [|fuel IH]; intros s; cbn [TrimLeftFunc_go].
  - apply Nat.le_0_l.
  - destruct s as [|c s']; [apply Nat.le_refl|].
    destruct (utf8.DecodeRuneInString (c :: s')) as [r size].
    destruct (f r); [|apply Nat.le_refl].
    eapply Nat.le_trans; [apply IH|]. rewrite length_skipn. apply Nat.le_sub_l.
Qed.

Lemma TrimRightFunc_length (f : Z -> bool) (s : gostring) :
  (List.length (TrimRightFunc s f) <= List.length s)%nat.
Proof.
  unfold TrimRightFunc.
  destruct (lastIndexFunc s f) as [i|]; [|apply Nat.le_0_l].
  destruct (utf8.RuneSelf <=? bv (nth i s "000"%char));
    rewrite length_firstn; apply Nat.le_min_r.
Qed.

Lemma TrimSpace_stop_length (r : gostring) :
  (List.length (TrimSpace_stop r) <= List.length r)%nat.
Proof.
  induction r as [|c r IH]; cbn [TrimSpace_stop]; [apply Nat.le_refl|].
  destruct (utf8.RuneSelf <=? bv c).
  - eapply Nat.le_trans; [apply TrimRightFunc_length|]. now rewrite length_rev.
  - destruct (asciiSpace c).
    + cbn [List.length]. now apply Nat.le_le_succ_r.
    + now rewrite length_rev.
Qed.

Lemma TrimSpace_length (s : gostring) :
  (List.length (TrimSpace s) <= List.length s)%nat.
Proof.
  induction s as [|c s IH]; cbn [TrimSpace]; [apply Nat.le_refl|].
  destruct (utf8.RuneSelf <=? bv c).
  - unfold TrimFunc, TrimLeftFunc.
    eapply Nat.le_trans; [apply TrimRightFunc_length|apply TrimLeftFunc_go_length].
  - destruct (asciiSpace c).
    + cbn [List.length]. now apply Nat.le_le_succ_r.
    + eapply Nat.le_trans; [apply TrimSpace_stop_length|]. now rewrite length_rev.
Qed.

Lemma filter_length_le {A} (p : A -> bool) (l : list A) :
  (List.length (filter p l) <= List.length l)%nat.
Proof.
  induction l as [|x l IH]; cbn [filter List.length]; [apply Nat.le_refl|].
  destruct (p x); cbn [List.length]; [now apply le_n_S|now apply Nat.le_le_succ_r].
Qed.

Lemma TrimSpace_spaces (s : gostring) :
  Forall (fun c => asciiSpace c = true) s -> TrimSpace s = [].
Proof.
  induction 1 as [|c s Hc Hs IH]; [reflexivity|].
  cbn [TrimSpace].
  assert (Hlt : bv c < utf8.RuneSelf).
  { unfold asciiSpace in Hc. unfold utf8.RuneSelf.
    repeat (apply orb_true_iff in Hc as [Hc|Hc]); apply Z.eqb_eq in Hc; lia. }
  destruct (utf8.RuneSelf <=? bv c) eqn:E; [apply Z.leb_le in E; lia|].
  now rewrite Hc.
Qed.

(** X9 ([cleanFolderName]): the sanitized name is never longer than the
    text, holds no space, and every byte of it is an underscore or a byte
    of the text. *)
Theorem X9_cleanFolderName_bounds (text : gostring) :
  (List.length (cleanFolderName text) <= List.length text)%nat
  /\ ~ In " "%char (cleanFolderName text)
  /\ (forall c, In c (cleanFolderName text) -> c = "_"%char \/ In c text).
Proof.
  rewrite cleanFolderName_bytewise. split; [|split].
  - unfold sanitize_bytewise.
    eapply Nat.le_trans; [apply filter_length_le|]. rewrite length_map.
    eapply Nat.le_trans; [apply TrimSpace_length|apply filter_length_le].
  - intros H. apply sanitize_bytewise_In in H as (_ & _ & H & _). now apply H.
  - intros c H. apply sanitize_bytewise_In in H as (_ & _ & _ & H). exact H.
Qed.

(** X10 ([cleanFolderName]): a text made of ASCII bytes that are neither
    white space nor among the characters that are not allowed is left as
    it is; a text made of ASCII white space only (the empty text among
    them) gives the empty name. *)
Theorem X10_cleanFolderName_fixed_and_empty (text : gostring) :
  (Forall (fun c => plain_byte c = true /\ is_notAllowed c = false) text ->
   cleanFolderName text = text)
  /\ (Forall (fun c => asciiSpace c = true) text -> cleanFolderName text = []).
Proof.
  rewrite cleanFolderName_bytewise. unfold sanitize_bytewise. split.
  - intros H. rewrite Forall_forall in H.
    assert (E1 : filter (fun c => negb (byte_eqb c LF)) text = text).
    { apply forallb_filter_id. apply forallb_forall. intros c Hc.
      destruct (H c Hc) as [Hp _]. apply negb_true_iff.
      destruct (byte_eqb c LF) eqn:E; [|reflexivity].
      apply byte_eqb_eq in E. subst c. discriminate. }
    rewrite E1, TrimSpace_plain.
    + assert (E2 : map (fun c => if byte_eqb c " "%char then "_"%char else c) text = text).
      { rewrite <- (map_id text) at 2. apply map_ext_in. intros c Hc.
        destruct (H c Hc) as [Hp _].
        destruct (byte_eqb c " "%char) eqn:E; [|reflexivity].
        apply byte_eqb_eq in E. subst c. discriminate. }
      rewrite E2. apply forallb_filter_id. apply forallb_forall. intros c Hc.
      destruct (H c Hc) as [_ Hn]. now rewrite Hn.
    + apply Forall_forall. intros c Hc. now destruct (H c Hc).
  - intros H. rewrite TrimSpace_spaces; [reflexivity|].
    apply Forall_forall. intros c Hc. apply filter_In in Hc as [Hc _].
    rewrite Forall_forall in H. now apply H.
Qed.

Lemma X10_cleanFolderName_fixed_and_empty_witness :
  Forall (fun c => plain_byte c = true /\ is_notAllowed c = false) (str "Pet_Store-2.json")
  /\ cleanFolderName (str "Pet_Store-2.json") = str "Pet_Store-2.json"
  /\ Forall (fun c => asciiSpace c = true) [" "%char; "009"%char; LF; " "%char]
  /\ cleanFolderName [" "%char; "009"%char; LF; " "%char] = [].
Proof.
  assert (H1 : Forall (fun c => plain_byte c = true /\ is_notAllowed c = false)
                 (str "Pet_Store-2.json")).
  { repeat constructor. }
  assert (H2 : Forall (fun c => asciiSpace c = true) [" "%char; "009"%char; LF; " "%char]).
  { repeat constructor. }
  split; [exact H1|].
  split; [exact (proj1 (X10_cleanFolderName_fixed_and_empty _) H1)|].
  split; [exact H2|].
  exact (proj2 (X10_cleanFolderName_fixed_and_empty _) H2).
Defined.

(* ================================================================== *)
(** ** The layout, further *)



Lemma CreateFolder_setting `{RT : GoRuntime}
    (m : MockServerSetting.t) (targetFolder : gostring) (fs : FS)
    (m' : MockServerSetting.t) (fs' : FS) :
  CreateFolder m targetFolder fs = Ok (m', fs') ->
  m' = with_Folder m (service_folder targetFolder (MockServerSetting.Name m)).
Proof.
  unfold CreateFolder.
  fold (trimmed_target targetFolder).
  fold (service_folder targetFolder (MockServerSetting.Name m)).
  fold (with_Folder m (service_folder targetFolder (MockServerSetting.Name m))).
  destruct (fs_exists fs _); [now intros [= <- _]|].
  destruct (os_Mkdir fs _); [now intros [= <- _]|discriminate].
Qed.



(** X12 ([CreateFolder], [SaveSetting]): the path recorded for a
    response in the setting names the file its body is written to: the
    full path is the trimmed target folder followed by the recorded
    relative path without its leading dot. *)
Theorem X12_recorded_path_is_written_path `{RT : GoRuntime}
    (m : MockServerSetting.t) (targetFolder : gostring) (fs : FS)
    (m1 : MockServerSetting.t) (fs1 : FS) (request : Request.t) (response : Response.t) :
  CreateFolder m targetFolder fs = Ok (m1, fs1) ->
  hd_error (fileRelativePath (MockServerSetting.Name m1) request response) = Some "."%char
  /\ fileFullPath (MockServerSetting.Folder m1) request response
     = trimmed_target targetFolder
         ++ tl (fileRelativePath (MockServerSetting.Name m1) request response).
Proof.
  intros H.
  apply CreateFolder_setting in H as ->.
  cbn [with_Folder MockServerSetting.Folder MockServerSetting.Name].
  unfold fileFullPath, folderFullPath, fileRelativePath, service_folder.
  cbn [str list_ascii_of_string app hd_error tl].
  split; [reflexivity|]. rewrite <- !app_assoc. reflexivity.
Qed.

Lemma X12_recorded_path_is_written_path_witness :
  exists m0 m1 fs1 request response,
    ConvertOpenAPIToMockServer (RT := Sample.go 4242) Doc.petStore = Ok m0
    /\ CreateFolder (RT := Sample.go 4242) m0 (str "out/") Sample.emptyFS = Ok (m1, fs1)
    /\ MockServerSetting.Requests m1 = [request]
    /\ Request.Responses request = [response]
    /\ fileRelativePath (MockServerSetting.Name m1) request response
       = str "./data/Pet_Store/GET/listPets/200/OK.json"
    /\ fileFullPath (MockServerSetting.Folder m1) request response
       = trimmed_target (str "out/")
           ++ tl (fileRelativePath (MockServerSetting.Name m1) request response).
Proof.
  do 5 eexists.
  split; [vm_compute; reflexivity|].
  match goal with
  | |- ?S = Ok (?m', ?fs') /\ _ => assert (H : S = Ok (m', fs')) by (vm_compute; reflexivity)
  end.
  split; [exact H|].
  split; [vm_compute; reflexivity|].
  split; [vm_compute; reflexivity|].
  split; [vm_compute; reflexivity|].
  exact (proj2 (@X12_recorded_path_is_written_path (Sample.go 4242) _ _ _ _ _ _ _ H)).
Defined.

(** *** What [SaveSetting] leaves alone *)

Lemma map_lookup_app {V} (a b : list (gostring * V)) (k : gostring) :
  map_lookup (a ++ b) k
  = match map_lookup a k with
    | Some v => Some v
    | None => map_lookup b k
    end.
Proof.
  induction a as [|[k' v'] a IH]; cbn [app map_lookup]; [reflexivity|].
  destruct (gostring_eqb k' k); [reflexivity|exact IH].
Qed.

Lemma map_lookup_absent {V} (a : list (gostring * V)) (k : gostring) :
  (forall p c, In (p, c) a -> p <> k) -> map_lookup a k = None.
Proof.
  intros H. rewrite <- (app_nil_r a). rewrite map_lookup_app_absent; [reflexivity|exact H].
Qed.

Section LayoutFrame.

Context `{RT : GoRuntime}.

Lemma fs_exists_grows (fs fs' : FS) (p : gostring) :
  incl (dirs fs) (dirs fs') -> incl (files fs) (files fs') ->
  fs_exists fs p = true -> fs_exists fs' p = true.
Proof.
  unfold fs_exists. intros Hd Hf H. apply orb_true_iff in H. apply orb_true_iff.
  destruct H as [H|H]; [left|right]; apply existsb_exists in H as (x & Hx & E);
    apply existsb_exists; exists x; (split; [|exact E]); auto.
Qed.

Lemma SaveSetting_response_dirs m request response fs response' fs' :
  SaveSetting_response m request response fs = Ok (response', fs') ->
  incl (dirs fs) (dirs fs').
Proof.
  unfold SaveSetting_response.
  destruct (Response.Body response) as [body|]; [|intros [= _ <-]; apply incl_refl].
  destruct (fs_exists fs _); cbn [bind].
  - unfold os_WriteFile. destruct (os_allows fs _); [|discriminate].
    intros [= _ <-]. apply incl_refl.
  - unfold os_MkdirAll. destruct (os_allows fs _); cbn [bind]; [|discriminate].
    unfold os_WriteFile. destruct (os_allows _ _); [|discriminate].
    intros [= _ <-]. cbn [dirs]. apply incl_tl, incl_refl.
Qed.

Lemma SaveSetting_responses_dirs m request responses fs responses' fs' :
  SaveSetting_responses m request responses fs = Ok (responses', fs') ->
  incl (dirs fs) (dirs fs').
Proof.
  revert fs responses' fs'; induction responses as [|r responses IH];
    intros fs responses' fs'; cbn [SaveSetting_responses].
  - intros [= _ <-]. apply incl_refl.
  - destruct (SaveSetting_response m request r fs) as [[r1 fs1]|] eqn:E1;
      cbn [bind]; [|discriminate].
    destruct (SaveSetting_responses m request responses fs1) as [[rs2 fs2]|] eqn:E2;
      cbn [bind]; [|discriminate].
    intros [= _ <-].
    eapply incl_tran; [eapply SaveSetting_response_dirs; exact E1|eapply IH; exact E2].
Qed.

Lemma SaveSetting_requests_dirs m requests fs requests' fs' :
  SaveSetting_requests m requests fs = Ok (requests', fs') ->
  incl (dirs fs) (dirs fs').
Proof.
  revert fs requests' fs'; induction requests as [|r requests IH];
    intros fs requests' fs'; cbn [SaveSetting_requests].
  - intros [= _ <-]. apply incl_refl.
  - destruct (SaveSetting_responses m r (Request.Responses r) fs) as [[rs1 fs1]|] eqn:E1;
      cbn [bind]; [|discriminate].
    destruct (SaveSetting_requests m requests fs1) as [[rs2 fs2]|] eqn:E2;
      cbn [bind]; [|discriminate].
    intros [= _ <-].
    eapply incl_tran; [eapply SaveSetting_responses_dirs; exact E1|eapply IH; exact E2].
Qed.

(** The steps of a successful [SaveSetting]. *)
Lemma SaveSetting_Ok_inv m fs m' fs' :
  SaveSetting m fs = Ok (m', fs') ->
  exists text,
    m' = with_Requests m (map (planned_request m) (MockServerSetting.Requests m))
    /\ yaml_Encode m' = Some text
    /\ files fs'
       = (settingFilePath m, text)
           :: rev (planned_writes (MockServerSetting.Folder m) (MockServerSetting.Requests m))
           ++ files fs
    /\ incl (dirs fs) (dirs fs').
Proof.
  unfold SaveSetting. intros H.
  destruct (SaveSetting_requests m (MockServerSetting.Requests m) fs)
    as [[requests fs1]|] eqn:E; cbn [bind] in H; [|discriminate].
  pose proof (SaveSetting_requests_dirs _ _ _ E) as Hd.
  apply SaveSetting_requests_plan in E as [-> F].
  fold (with_Requests m (map (planned_request m) (MockServerSetting.Requests m))) in H.
  destruct (negb (os_allows fs1 _)); [discriminate|].
  destruct (yaml_Encode _) as [text|] eqn:Ey; [|discriminate].
  injection H as <- <-. exists text. cbn [files dirs].
  split; [reflexivity|]. split; [exact Ey|]. split; [|exact Hd].
  unfold settingFilePath. cbn [with_Requests MockServerSetting.Folder]. now rewrite F.
Qed.

Lemma planned_response_again (m m2 : MockServerSetting.t) (request request2 : Request.t)
    (response : Response.t) :
  MockServerSetting.Name m2 = MockServerSetting.Name m ->
  Request.Name request2 = Request.Name request ->
  Request.Method request2 = Request.Method request ->
  planned_response m2 request2 (planned_response m request response)
  = planned_response m request response.
Proof.
  intros Hm Hn Hme. unfold planned_response.
  destruct (Response.Body response) as [body|] eqn:Eb.
  - cbn [with_FilePath Response.Body]. rewrite Eb.
    unfold with_FilePath, fileRelativePath, folderRelativePath.
    cbn [Response.Name Response.Code Response.Query Response.Headers Response.Body].
    now rewrite Hm, Hn, Hme.
  - now rewrite Eb.
Qed.

Lemma planned_request_again (m m2 : MockServerSetting.t) (request : Request.t) :
  MockServerSetting.Name m2 = MockServerSetting.Name m ->
  planned_request m2 (planned_request m request) = planned_request m request.
Proof.
  intros Hm. unfold planned_request at 1 3.
  cbn [planned_request Request.Name Request.Method Request.Path Request.Responses].
  f_equal. rewrite map_map. apply map_ext. intros response.
  now apply planned_response_again.
Qed.

Lemma planned_writes_planned (m : MockServerSetting.t) (Folder : gostring)
    (requests : list Request.t) :
  planned_writes Folder (map (planned_request m) requests) = planned_writes Folder requests.
Proof.
  unfold planned_writes. rewrite !flat_map_concat_map, map_map. f_equal.
  apply map_ext. intros request.
  unfold planned_writes_responses, planned_request. cbn [Request.Responses].
  rewrite !flat_map_concat_map, map_map. f_equal. apply map_ext. intros response.
  unfold planned_response.
  destruct (Response.Body response) as [body|] eqn:Eb.
  - cbn [with_FilePath Response.Body]. rewrite Eb. reflexivity.
  - rewrite Eb. reflexivity.
Qed.

End LayoutFrame.

(** X13 ([SaveSetting]): a call that ends well changes nothing of the
    setting but the file paths of the responses that have a body; the
    setting file then holds the encoding of the setting as changed; a
    path that names neither the setting file nor a file written for a
    response reads as before the call; and whatever existed before the
    call still exists. *)
Theorem X13_SaveSetting_frame `{RT : GoRuntime}
    (m : MockServerSetting.t) (fs : FS) (m' : MockServerSetting.t) (fs' : FS) :
  SaveSetting m fs = Ok (m', fs') ->
  m' = with_Requests m (map (planned_request m) (MockServerSetting.Requests m))
  /\ os_ReadFile fs' (settingFilePath m') = yaml_Encode m'
  /\ (forall p,
        os_resolve p <> os_resolve (settingFilePath m) ->
        (forall q c,
           In (q, c) (planned_writes (MockServerSetting.Folder m) (MockServerSetting.Requests m)) ->
           os_resolve q <> os_resolve p) ->
        os_ReadFile fs' p = os_ReadFile fs p)
  /\ (forall p, fs_exists fs p = true -> fs_exists fs' p = true).
Proof.
  intros H. apply SaveSetting_Ok_inv in H as (text & Hm & Hy & Hf & Hd).
  split; [exact Hm|]. split; [|split].
  - rewrite Hy. unfold os_ReadFile, by_file. rewrite Hf.
    assert (Es : settingFilePath m' = settingFilePath m) by (rewrite Hm; reflexivity).
    rewrite Es. cbn [map fst snd map_lookup]. now rewrite gostring_eqb_refl.
  - intros p Hs Hw. unfold os_ReadFile, by_file. rewrite Hf.
    cbn [map fst snd map_lookup].
    destruct (gostring_eqb (os_resolve (settingFilePath m)) (os_resolve p)) eqn:E.
    + apply gostring_eqb_eq in E. congruence.
    + rewrite map_app. apply map_lookup_app_absent.
      intros q c Hin. apply in_map_iff in Hin as ([q0 c0] & [= <- <-] & Hin).
      apply in_rev in Hin. exact (Hw q0 c0 Hin).
  - intros p Hp. apply (fs_exists_grows fs fs'); [exact Hd| |exact Hp].
    rewrite Hf. intros x Hx. right. apply in_or_app. now right.
Qed.

Lemma X13_SaveSetting_frame_witness :
  exists m0 m fs m' fs',
    ConvertOpenAPIToMockServer (RT := Sample.go 4242) Doc.petStore = Ok m0
    /\ CreateFolder (RT := Sample.go 4242) m0 (str "out") Sample.emptyFS = Ok (m, fs)
    /\ SaveSetting (RT := Sample.go 4242) m fs = Ok (m', fs')
    /\ os_ReadFile (RT := Sample.go 4242) fs' (str "out/data/Pet_Store/setting.yaml")
       = Sample.yaml_text m'
    /\ fs_exists (RT := Sample.go 4242) fs' (str "out/data/Pet_Store") = true.
Proof.
  do 5 eexists.
  split; [vm_compute; reflexivity|].
  split; [vm_compute; reflexivity|].
  match goal with
  | |- ?S = Ok (?m', ?fs') /\ _ => assert (H : S = Ok (m', fs')) by (vm_compute; reflexivity)
  end.
  split; [exact H|].
  destruct (@X13_SaveSetting_frame (Sample.go 4242) _ _ _ _ H) as (_ & H2 & _ & H4).
  split; [exact H2|].
  apply H4. reflexivity.
Defined.

(** X14 ([SaveSetting]): calling [SaveSetting] again on the setting and
    the file system a first call left changes neither the setting nor
    what any path reads as. *)
Theorem X14_SaveSetting_again `{RT : GoRuntime}
    (m : MockServerSetting.t) (fs : FS) (m' : MockServerSetting.t) (fs' : FS)
    (m'' : MockServerSetting.t) (fs'' : FS) :
  SaveSetting m fs = Ok (m', fs') ->
  SaveSetting m' fs' = Ok (m'', fs'') ->
  m'' = m' /\ forall p, os_ReadFile fs'' p = os_ReadFile fs' p.
Proof.
  intros H1 H2.
  apply SaveSetting_Ok_inv in H1 as (text1 & Hm1 & Hy1 & Hf1 & _).
  apply SaveSetting_Ok_inv in H2 as (text2 & Hm2 & Hy2 & Hf2 & _).
  assert (Hn : MockServerSetting.Name m' = MockServerSetting.Name m)
    by (rewrite Hm1; reflexivity).
  assert (Hr : map (planned_request m') (MockServerSetting.Requests m')
               = MockServerSetting.Requests m').
  { rewrite Hm1 at 2 3. cbn [with_Requests MockServerSetting.Requests].
    rewrite map_map. apply map_ext. intros request. now apply planned_request_again. }
  assert (Hm : m'' = m').
  { rewrite Hm2, Hr. rewrite Hm1. reflexivity. }
  split; [exact Hm|].
  intros p. unfold os_ReadFile, by_file. rewrite Hf2.
  assert (Et : text2 = text1) by congruence.
  assert (Es : settingFilePath m' = settingFilePath m) by (rewrite Hm1; reflexivity).
  assert (Ew : planned_writes (MockServerSetting.Folder m') (MockServerSetting.Requests m')
               = planned_writes (MockServerSetting.Folder m) (MockServerSetting.Requests m)).
  { rewrite Hm1. cbn [with_Requests MockServerSetting.Folder MockServerSetting.Requests].
    apply planned_writes_planned. }
  rewrite Et, Es, Ew, Hf1.
  set (L := (settingFilePath m, text1)
            :: rev (planned_writes (MockServerSetting.Folder m) (MockServerSetting.Requests m))).
  change ((settingFilePath m, text1)
          :: rev (planned_writes (MockServerSetting.Folder m) (MockServerSetting.Requests m))
          ++ (settingFilePath m, text1)
          :: rev (planned_writes (MockServerSetting.Folder m) (MockServerSetting.Requests m))
          ++ files fs)
    with (L ++ L ++ files fs).
  change ((settingFilePath m, text1)
          :: rev (planned_writes (MockServerSetting.Folder m) (MockServerSetting.Requests m))
          ++ files fs)
    with (L ++ files fs).
  rewrite !map_app, !map_lookup_app.
  destruct (map_lookup _ (os_resolve p)); reflexivity.
Qed.

Lemma X14_SaveSetting_again_witness :
  exists m0 m fs m' fs' m'' fs'',
    ConvertOpenAPIToMockServer (RT := Sample.go 4242) Doc.twoExamples = Ok m0
    /\ CreateFolder (RT := Sample.go 4242) m0 (str "out") Sample.emptyFS = Ok (m, fs)
    /\ SaveSetting (RT := Sample.go 4242) m fs = Ok (m', fs')
    /\ SaveSetting (RT := Sample.go 4242) m' fs' = Ok (m'', fs'')
    /\ m'' = m'
    /\ List.length (files fs'') = 6%nat
    /\ forall p, os_ReadFile (RT := Sample.go 4242) fs'' p
                 = os_ReadFile (RT := Sample.go 4242) fs' p.
Proof.
  do 7 eexists.
  split; [vm_compute; reflexivity|].
  split; [vm_compute; reflexivity|].
  match goal with
  | |- ?S = Ok (?m', ?fs') /\ _ => assert (H1 : S = Ok (m', fs')) by (vm_compute; reflexivity)
  end.
  split; [exact H1|].
  match goal with
  | |- ?S = Ok (?m', ?fs') /\ _ => assert (H2 : S = Ok (m', fs')) by (vm_compute; reflexivity)
  end.
  split; [exact H2|].
  destruct (@X14_SaveSetting_again (Sample.go 4242) _ _ _ _ _ _ H1 H2) as [Hm Hp].
  split; [exact Hm|]. split; [reflexivity|exact Hp].
Defined.

(* ================================================================== *)
(** ** The copy of the document and the whole export *)

(** The extension is empty, or starts at the last dot of the path and
    holds no slash. *)
Lemma filepath_Ext_cases (path : gostring) :
  filepath_Ext path = []
  \/ exists stem e,
       path = stem ++ "."%char :: e
       /\ filepath_Ext path = "."%char :: e
       /\ ~ In "/"%char e /\ ~ In "."%char e.
Proof.
  unfold filepath_Ext.
  set (scan := fix scan (r ext : gostring) : gostring :=
         match r with
         | [] => []
         | c :: r' =>
             if byte_eqb c "/"%char then []
             else if byte_eqb c "."%char then c :: ext
             else scan r' (c :: ext)
         end).
  assert (H : forall r ext,
            scan r ext = []
            \/ exists a b,
                 r = a ++ "."%char :: b
                 /\ scan r ext = "."%char :: rev a ++ ext
                 /\ ~ In "/"%char a /\ ~ In "."%char a).
  { induction r as [|c r IH]; intros ext; [now left|].
    cbn [scan]. fold scan.
    destruct (byte_eqb c "/"%char) eqn:Es; [now left|].
    destruct (byte_eqb c "."%char) eqn:Ed.
    - apply byte_eqb_eq in Ed. subst c. right. exists [], r.
      repeat split; intros [].
    - destruct (IH (c :: ext)) as [E|(a & b & -> & E & Ha1 & Ha2)]; [now left|].
      right. exists (c :: a), b. split; [reflexivity|]. split.
      + rewrite E. cbn [rev]. now rewrite <- app_assoc.
      + split; intros [->|Hin]; try contradiction.
        * now rewrite byte_eqb_refl in Es.
        * now rewrite byte_eqb_refl in Ed. }
  destruct (H (rev path) []) as [E|(a & b & Hr & E & Ha1 & Ha2)]; [now left|].
  right. exists (rev b), (rev a).
  split.
  - rewrite <- (rev_involutive path), Hr, rev_app_distr. cbn [rev].
    now rewrite <- app_assoc.
  - split; [now rewrite E, app_nil_r|].
    split; intros Hin; apply in_rev in Hin; contradiction.
Qed.

(** X15 ([CopyOpenAPIFile]): the copy goes to [openapi] followed by the
    extension of the source path, in the folder of the service; the
    extension is empty or runs from the last dot of the path and holds no
    slash. After a call that ends well the copy reads as the source did,
    or as the empty file when the source could not be read (the error of
    [os.ReadFile] is dropped); every path that names another file reads
    as before and no directory is made. The call ends well exactly when
    the operating system lets the write through. *)
Theorem X15_CopyOpenAPIFile `{RT : GoRuntime}
    (m : MockServerSetting.t) (openApiFile : gostring) (fs : FS) :
  (forall fs',
     CopyOpenAPIFile m openApiFile fs = Ok fs' ->
     os_ReadFile fs' (copyFilePath m openApiFile)
     = Some (match os_ReadFile fs openApiFile with Some d => d | None => [] end)
     /\ (forall p, os_resolve p <> os_resolve (copyFilePath m openApiFile) ->
                   os_ReadFile fs' p = os_ReadFile fs p)
     /\ dirs fs' = dirs fs)
  /\ ((exists fs', CopyOpenAPIFile m openApiFile fs = Ok fs')
      <-> os_allows fs (SysWriteFile (copyFilePath m openApiFile)) = true)
  /\ (forall e, CopyOpenAPIFile m openApiFile fs = Stop e ->
                e = Fatal "Failed to copy OpenAPI file to data folder")
  /\ (filepath_Ext openApiFile = []
      \/ exists stem e,
           openApiFile = stem ++ "."%char :: e
           /\ copyFilePath m openApiFile
              = MockServerSetting.Folder m ++ str "/openapi." ++ e
           /\ ~ In "/"%char e /\ ~ In "."%char e).
Proof.
  unfold CopyOpenAPIFile. fold (copyFilePath m openApiFile). unfold os_WriteFile.
  split; [|split; [|split]].
  - intros fs'. destruct (os_allows fs _); [|discriminate].
    intros [= <-]. split; [|split; [|reflexivity]].
    + unfold os_ReadFile at 1. unfold by_file. cbn [files map fst snd map_lookup].
      now rewrite gostring_eqb_refl.
    + intros p Hp. unfold os_ReadFile, by_file. cbn [files map fst snd map_lookup].
      destruct (gostring_eqb (os_resolve (copyFilePath m openApiFile)) (os_resolve p)) eqn:E;
        [|reflexivity].
      apply gostring_eqb_eq in E. congruence.
  - destruct (os_allows fs _); split; eauto; try discriminate.
    intros [fs' H]. discriminate.
  - intros e. destruct (os_allows fs _); [discriminate|]. now intros [= <-].
  - destruct (filepath_Ext_cases openApiFile) as [E|(stem & e & Hp & E & H1 & H2)];
      [now left|].
    right. exists stem, e. split; [exact Hp|]. split; [|split; assumption].
    unfold copyFilePath. rewrite E. reflexivity.
Qed.

Lemma X15_CopyOpenAPIFile_witness :
  let m := with_Folder
             {| MockServerSetting.Name := str "Pet Store";
                MockServerSetting.Description := [];
                MockServerSetting.Folder := [];
                MockServerSetting.Host := str "0.0.0.0";
                MockServerSetting.Port := 14242;
                MockServerSetting.SwaggerEnabled := true;
                MockServerSetting.Headers := Some [];
                MockServerSetting.Requests := [];
                MockServerSetting.Schemas := [] |}
             (str "out/data/Pet_Store") in
  let fs := {| dirs := []; files := [(str "specs/v1.0/api.yaml", str "openapi: 3.0.0")] |} in
  exists fs',
    CopyOpenAPIFile (RT := Sample.go 4242) m (str "specs/v1.0/api.yaml") fs = Ok fs'
    /\ copyFilePath m (str "specs/v1.0/api.yaml") = str "out/data/Pet_Store/openapi.yaml"
    /\ copyFilePath m (str "specs/v1.0/api") = str "out/data/Pet_Store/openapi"
    /\ os_ReadFile (RT := Sample.go 4242) fs' (str "out/data/Pet_Store/openapi.yaml")
       = Some (str "openapi: 3.0.0").
Proof.
  intros m fs. eexists.
  match goal with
  | |- ?S = Ok ?x /\ _ => assert (H : S = Ok x) by (vm_compute; reflexivity)
  end.
  split; [exact H|]. split; [reflexivity|]. split; [reflexivity|].
  exact (proj1 (proj1 (@X15_CopyOpenAPIFile (Sample.go 4242) m _ fs) _ H)).
Defined.

(** The steps of a successful export. *)
Lemma export_steps `{RT : GoRuntime} openAPISpec openApiFile targetFolder fs m' fs' :
  exportOpenAPIToMockServer openAPISpec openApiFile targetFolder fs = Ok (m', fs') ->
  exists m0 m1 fs1 fs2,
    ConvertOpenAPIToMockServer openAPISpec = Ok m0
    /\ CreateFolder m0 targetFolder fs = Ok (m1, fs1)
    /\ SaveSetting m1 fs1 = Ok (m', fs2)
    /\ CopyOpenAPIFile m' openApiFile fs2 = Ok fs'.
Proof.
  unfold exportOpenAPIToMockServer.
  destruct (ConvertOpenAPIToMockServer openAPISpec) as [m0|] eqn:E0; cbn [bind];
    [|discriminate].
  destruct (CreateFolder m0 targetFolder fs) as [[m1 fs1]|] eqn:E1; cbn [bind];
    [|discriminate].
  destruct (SaveSetting m1 fs1) as [[m2 fs2]|] eqn:E2; cbn [bind]; [|discriminate].
  destruct (CopyOpenAPIFile m2 openApiFile fs2) as [fs3|] eqn:E3; cbn [bind]; [|discriminate].
  intros [= <- <-]. exists m0, m1, fs1, fs2. repeat split; assumption.
Qed.

Lemma getRequests_FilePath_None `{RT : GoRuntime} (contract : SortSliceContract RT)
    openAPISpec requests request response :
  getRequests openAPISpec = Ok requests ->
  In request requests -> In response (Request.Responses request) ->
  Response.FilePath response = None.
Proof.
  unfold getRequests.
  destruct (match openapi3.Components_ openAPISpec with
            | Some components => getRequests_schemas (openapi3.Schemas components) []
            | None => Ok []
            end) as [schemaExamples|]; cbn [bind]; [|discriminate].
  intros H Hreq Hresp.
  apply getRequests_paths_Ok in H as (news & -> & HF). cbn [app] in Hreq.
  rewrite Forall_forall in HF.
  destruct (HF _ Hreq) as (path & pathItem & method & operation & produced & _ & _ & He & ->).
  cbn [Request.Responses] in Hresp.
  assert (Hin : In response produced).
  { eapply Permutation_in; [symmetry; apply sort_Slice_perm|exact Hresp]. }
  destruct (@extractResponse_In RT operation schemaExamples produced response He Hin)
    as (key & item & o & _ & Ho & Hr).
  destruct (@responseResponses_In RT schemaExamples key item o response Ho Hr)
    as (value & _ & _ & _ & [[_ Hbare]|(content & contentType & media & _ & _ & _ & Hm)]).
  - rewrite Hbare. reflexivity.
  - now apply mediaTypeResponses_In in Hm as (_ & _ & _ & Hf & _).
Qed.

(** X16 ([exportOpenAPIToMockServer]): in the setting an export ends
    with, the name and the description are those of the document's info
    section, the host is [0.0.0.0], the port is the one derived from the
    process id, the folder is the trimmed target folder followed by
    [/data/] and the sanitized title, the table of schemas is empty, and a
    response has a file path exactly when it has a body, the path being
    [./data/<sanitized title>/<method>/<operation id>/<code>/<sanitized
    name>.json]. [sort.Slice] is taken to keep the elements of the slice,
    as its documentation says. *)
Theorem X16_export_setting `{RT : GoRuntime} (contract : SortSliceContract RT)
    (openAPISpec : openapi3.T) (openApiFile targetFolder : gostring) (fs : FS)
    (m : MockServerSetting.t) (fs' : FS) :
  exportOpenAPIToMockServer openAPISpec openApiFile targetFolder fs = Ok (m, fs') ->
  (exists info,
     openapi3.Info_ openAPISpec = Some info
     /\ MockServerSetting.Name m = openapi3.Title info
     /\ MockServerSetting.Description m = openapi3.Info_Description info)
  /\ MockServerSetting.Host m = str "0.0.0.0"
  /\ MockServerSetting.Port m = randomPort
  /\ MockServerSetting.Folder m = service_folder targetFolder (MockServerSetting.Name m)
  /\ MockServerSetting.Schemas m = []
  /\ (forall request response,
        In request (MockServerSetting.Requests m) ->
        In response (Request.Responses request) ->
        Response.FilePath response
        = match Response.Body response with
          | Some _ => Some (fileRelativePath (MockServerSetting.Name m) request response)
          | None => None
          end).
Proof.
  intros H. apply export_steps in H as (m0 & m1 & fs1 & fs2 & Hc & Hf & Hs & _).
  unfold ConvertOpenAPIToMockServer in Hc.
  destruct (getRequests openAPISpec) as [requests|] eqn:Eg; cbn [bind] in Hc; [|discriminate].
  destruct (openapi3.Info_ openAPISpec) as [info|] eqn:Ei; cbn [deref bind] in Hc;
    [|discriminate].
  injection Hc as <-.
  apply CreateFolder_setting in Hf as ->.
  apply SaveSetting_Ok_inv in Hs as (text & -> & _).
  cbn [with_Requests with_Folder MockServerSetting.Name MockServerSetting.Description
       MockServerSetting.Host MockServerSetting.Port MockServerSetting.Folder
       MockServerSetting.Schemas MockServerSetting.Requests].
  split; [exists info; repeat split|]. repeat (split; [reflexivity|]).
  intros request response Hreq Hresp.
  apply in_map_iff in Hreq as (request0 & <- & Hreq).
  cbn [planned_request Request.Responses] in Hresp.
  apply in_map_iff in Hresp as (response0 & <- & Hresp).
  pose proof (@getRequests_FilePath_None RT contract openAPISpec requests request0 response0
                Eg Hreq Hresp) as Hnone.
  unfold planned_response.
  cbn [with_Folder MockServerSetting.Name].
  destruct (Response.Body response0) as [body|] eqn:Eb.
  - cbn [with_FilePath Response.FilePath Response.Body]. rewrite Eb. reflexivity.
  - rewrite Eb. exact Hnone.
Qed.

Lemma X16_export_setting_witness :
  exists m fs',
    exportOpenAPIToMockServer (RT := Sample.plain 4242) Doc.petStore
      (str "api.yaml") (str "out/") Sample.emptyFS = Ok (m, fs')
    /\ MockServerSetting.Folder m = str "out/data/Pet_Store"
    /\ MockServerSetting.Port m = 14242
    /\ map (fun request => map Response.FilePath (Request.Responses request))
         (MockServerSetting.Requests m)
       = [[Some (str "./data/Pet_Store/GET/listPets/200/OK.json")]]
    /\ (forall request response,
          In request (MockServerSetting.Requests m) ->
          In response (Request.Responses request) ->
          Response.FilePath response
          = match Response.Body response with
            | Some _ => Some (fileRelativePath (MockServerSetting.Name m) request response)
            | None => None
            end).
Proof.
  do 2 eexists.
  match goal with
  | |- ?S = Ok (?m', ?fs') /\ _ => assert (H : S = Ok (m', fs')) by (vm_compute; reflexivity)
  end.
  split; [exact H|]. split; [reflexivity|]. split; [reflexivity|]. split; [reflexivity|].
  exact (proj2 (proj2 (proj2 (proj2 (proj2
           (@X16_export_setting (Sample.plain 4242) (plain_contract 4242) _ _ _ _ _ _ H)))))).
Defined.

(** X17 ([randomPort]): for a process id that is not negative the port
    lies between 10000 and 59999, and two processes whose ids differ by
    a multiple of 50000 get the same port. *)
Theorem X17_randomPort_range (RT RT' : GoRuntime) :
  0 <= @os_Getpid RT ->
  10000 <= @randomPort RT <= 59999
  /\ (0 <= @os_Getpid RT' ->
      (@os_Getpid RT' - @os_Getpid RT) mod 50000 = 0 ->
      @randomPort RT' = @randomPort RT).
Proof.
  unfold randomPort. intros H. split.
  - pose proof (Z.rem_bound_pos (@os_Getpid RT) 50000 H ltac:(lia)). lia.
  - intros H' Hd. rewrite !Z.rem_mod_nonneg by lia. f_equal.
    replace (@os_Getpid RT') with (@os_Getpid RT + (@os_Getpid RT' - @os_Getpid RT)) by lia.
    rewrite Z.add_mod by lia. rewrite Hd, Z.add_0_r. rewrite Z.mod_mod by lia. reflexivity.
Qed.

Lemma X17_randomPort_range_witness :
  0 <= @os_Getpid (Sample.go 64242)
  /\ @randomPort (Sample.go 64242) = 24242
  /\ 10000 <= @randomPort (Sample.go 64242) <= 59999
  /\ @randomPort (Sample.go 14242) = @randomPort (Sample.go 64242).
Proof.
  assert (H : 0 <= @os_Getpid (Sample.go 64242)) by (cbn; lia).
  split; [exact H|]. split; [reflexivity|].
  destruct (X17_randomPort_range (Sample.go 64242) (Sample.go 14242) H) as [H1 H2].
  split; [exact H1|]. apply H2; [cbn; lia|reflexivity].
Defined.
